(** * Interview coach: the deterministic control layer

    A shallow embedding of the policy primitives, the skill matrix, the
    policy-update step and the structured-call subsystem of the interview
    coach, followed by the properties proved about them.

    Conventions of the embedding.
    - A Python [str] is a [string]; the strings the policies normalise or
      compare (topics, statuses, question ids, action types) are ASCII.
    - A Python [int] is a [Z]; a [bool] is a [bool].
    - Open JSON data (the observer's dump, the question records) is a
      [pyval]; a [dict] inside it is an association list read by first match.
    - Fields whose type is fixed by the step that produces them are record
      fields of that type; [None] or a missing key is [None] of an option. *)

From Stdlib Require Import ZArith String Ascii List Lia.
From Stdlib Require QArith.
From stdpp Require Import gmap strings list.

Set Warnings "-register-all".
Local Open Scope string_scope.

(** ** Python values *)

Module Py.

(** A float by its mathematical value. *)
Inductive pyfloat : Type :=
| FNaN
| FInf (negative : bool)
| FFinite (q : QArith_base.Q).

Inductive pyval : Type :=
| PNone
| PBool (b : bool)
| PInt (z : Z)
| PFloat (f : pyfloat)
| PStr (s : string)
| PList (xs : list pyval)
| PDict (d : list (string * pyval)).

Definition pydict : Type := list (string * pyval).

Fixpoint lookup_key (d : pydict) (k : string) : option pyval :=
  match d with
  | [] => None
  | (k', v) :: rest => if String.eqb k' k then Some v else lookup_key rest k
  end.

(** [d.get(k, dflt)] and [d.get(k)]. *)
Definition get_or (d : pydict) (k : string) (dflt : pyval) : pyval :=
  match lookup_key d k with
  | Some v => v
  | None => dflt
  end.

Definition get (d : pydict) (k : string) : pyval := get_or d k PNone.

Definition float_is_zero (f : pyfloat) : bool :=
  match f with
  | FFinite q => QArith_base.Qeq_bool q (QArith_base.inject_Z 0)
  | _ => false
  end.

(** Truth value of an object, as [if x:] and [x or y] test it. *)
Definition truthy (v : pyval) : bool :=
  match v with
  | PNone => false
  | PBool b => b
  | PInt z => negb (Z.eqb z 0)
  | PFloat f => negb (float_is_zero f)
  | PStr s => negb (String.eqb s "")
  | PList xs => match xs with [] => false | _ => true end
  | PDict d => match d with [] => false | _ => true end
  end.

(** [v == s] for a string [s]. *)
Definition eq_str (v : pyval) (s : string) : bool :=
  match v with
  | PStr s' => String.eqb s' s
  | _ => false
  end.

(** [v == z] for an integer [z]: booleans and floats compare by value. *)
Definition eq_int (v : pyval) (z : Z) : bool :=
  match v with
  | PInt z' => Z.eqb z' z
  | PBool b => Z.eqb (Z.b2z b) z
  | PFloat (FFinite q) => QArith_base.Qeq_bool q (QArith_base.inject_Z z)
  | _ => false
  end.

(** [isinstance(v, dict)], returning the mapping. *)
Definition as_dict (v : pyval) : option pydict :=
  match v with
  | PDict d => Some d
  | _ => None
  end.

(** [isinstance(v, str)], returning the string. *)
Definition as_str (v : pyval) : option string :=
  match v with
  | PStr s => Some s
  | _ => None
  end.

(** An optional string that passes [if x:]: neither [None] nor empty. *)
Definition given (o : option string) : option string :=
  match o with
  | Some s => if String.eqb s "" then None else Some s
  | None => None
  end.

End Py.

Import Py.

(** ** app/policies/adaptability.py *)

Module Adaptability.

Local Open Scope Z_scope.

(** [int(difficulty or 1)], [int(delta or 0)], then [max(1, min(5, _))]. *)
Definition apply_difficulty (difficulty delta : Z) : Z :=
  let base := if difficulty =? 0 then 1 else difficulty in
  let delta_val := if delta =? 0 then 0 else delta in
  let new_val := base + delta_val in
  Z.max 1 (Z.min 5 new_val).

Definition decide_action_type (observer_json : pyval) (prev_action_type : option string)
  : string :=
  let robustness :=
    match as_dict observer_json with
    | Some oj => get_or oj "robustness" (PDict [])
    | None => PDict []
    end in
  let flag (name : string) : bool :=
    match as_dict robustness with
    | Some r => truthy (get r name)
    | None => false
    end in
  if flag "off_topic" then "refocus"
  else if flag "role_reversal" then "answer_candidate"
  else
    let answer_quality :=
      match as_dict observer_json with
      | Some oj => get_or oj "answer_quality" (PDict [])
      | None => PDict []
      end in
    let correctness :=
      match as_dict answer_quality with
      | Some aq => get aq "correctness"
      | None => PNone
      end in
    let confidence :=
      match as_dict answer_quality with
      | Some aq => get aq "confidence"
      | None => PNone
      end in
    if (eq_str correctness "wrong" || eq_str correctness "low"
        || eq_str correctness "incorrect")
       || (eq_str confidence "low" || eq_int confidence 0 || eq_int confidence 1)
    then "simplify"
    else if eq_str correctness "partial" || eq_str correctness "mixed"
    then "clarify"
    else if bool_decide (prev_action_type = Some "simplify")
    then "hint"
    else "ask".

End Adaptability.

(** ** app/policies/robustness.py and app/policies/router.py *)

Module Router.

Record RobustnessDetection : Type := {
  off_topic : bool;
  role_reversal : bool;
  hallucination_claim : bool;
  evasive : bool;
  reason : string;
  candidate_question : option string;
  suspicious_claim : option string
}.

Definition choose_route (stop_requested : bool) (det : RobustnessDetection) : string :=
  if stop_requested then "final"
  else if role_reversal det then "answer_candidate"
  else if hallucination_claim det then "hallucination"
  else if off_topic det then "refocus"
  else "normal".

End Router.

(** ** Strings: [str.strip] and [str.lower] on ASCII text *)

Module Str.

(** [c.isspace()] for a character below 128: tab to carriage return, the
    four separators 28..31, and the space. *)
Definition is_space (c : ascii) : bool :=
  let n := nat_of_ascii c in
  Nat.eqb n 32 || (Nat.leb 9 n && Nat.leb n 13) || (Nat.leb 28 n && Nat.leb n 31).

Fixpoint lstrip (s : string) : string :=
  match s with
  | EmptyString => EmptyString
  | String c rest => if is_space c then lstrip rest else s
  end.

Fixpoint rstrip (s : string) : string :=
  match s with
  | EmptyString => EmptyString
  | String c rest =>
      match rstrip rest with
      | EmptyString => if is_space c then EmptyString else String c EmptyString
      | kept => String c kept
      end
  end.

Definition strip (s : string) : string := rstrip (lstrip s).

Definition lower_char (c : ascii) : ascii :=
  let n := nat_of_ascii c in
  if Nat.leb 65 n && Nat.leb n 90 then ascii_of_nat (n + 32) else c.

Fixpoint lower (s : string) : string :=
  match s with
  | EmptyString => EmptyString
  | String c rest => String (lower_char c) (lower rest)
  end.

(** [xs[-n:]] for a positive [n]. *)
Definition last_n {A : Type} (n : nat) (xs : list A) : list A :=
  drop (length xs - n) xs.

End Str.

(** ** app/policies/question_bank.py *)

Module QuestionBank.

Local Open Scope Z_scope.

Definition QUESTION_BANK : list pydict := [
  [ ("question_id", PStr "py_types_1");
    ("topic", PStr "python_types");
    ("difficulty", PInt 1);
    ("type", PStr "ask");
    ("prompt", PStr "В чём разница между list и tuple в Python? Приведи пример.") ];
  [ ("question_id", PStr "py_types_1_simplify");
    ("topic", PStr "python_types");
    ("difficulty", PInt 1);
    ("type", PStr "simplify");
    ("prompt", PStr "Чем list отличается от tuple?") ];
  [ ("question_id", PStr "py_types_1_hint");
    ("topic", PStr "python_types");
    ("difficulty", PInt 1);
    ("type", PStr "hint");
    ("prompt", PStr "Подсказка: подумай про изменяемость коллекций. Чем list и tuple отличаются?") ];
  [ ("question_id", PStr "py_iter_2");
    ("topic", PStr "python_iterators");
    ("difficulty", PInt 2);
    ("type", PStr "ask");
    ("prompt", PStr "Что такое iterable и iterator? Как работает протокол итерации?") ];
  [ ("question_id", PStr "py_iter_2_clarify");
    ("topic", PStr "python_iterators");
    ("difficulty", PInt 2);
    ("type", PStr "clarify");
    ("prompt", PStr "Уточни разницу между iterable и iterator и как их получить.") ];
  [ ("question_id", PStr "sql_join_1");
    ("topic", PStr "sql_joins");
    ("difficulty", PInt 1);
    ("type", PStr "ask");
    ("prompt", PStr "Что такое JOIN в SQL и какие типы JOIN ты знаешь?") ];
  [ ("question_id", PStr "sql_join_1_simplify");
    ("topic", PStr "sql_joins");
    ("difficulty", PInt 1);
    ("type", PStr "simplify");
    ("prompt", PStr "Объясни простыми словами, что делает JOIN в SQL.") ];
  [ ("question_id", PStr "py_oop_3");
    ("topic", PStr "python_oop");
    ("difficulty", PInt 3);
    ("type", PStr "ask");
    ("prompt", PStr "Объясни разницу между classmethod и staticmethod. Когда их использовать?") ];
  [ ("question_id", PStr "sql_index_3");
    ("topic", PStr "sql_indexes");
    ("difficulty", PInt 3);
    ("type", PStr "ask");
    ("prompt", PStr "Что такое индекс в SQL и какие есть типы индексов?") ];
  [ ("question_id", PStr "git_rebase_1");
    ("topic", PStr "git_basics");
    ("difficulty", PInt 1);
    ("type", PStr "ask");
    ("prompt", PStr "Что делает команда git rebase и когда её используют?") ];
  [ ("question_id", PStr "git_rebase_1_clarify");
    ("topic", PStr "git_basics");
    ("difficulty", PInt 1);
    ("type", PStr "clarify");
    ("prompt", PStr "Когда бы ты выбрал rebase вместо merge?") ]
].

Definition get_candidates (topic : option string) (difficulty : Z) (qtype : option string)
  : list pydict :=
  let candidates :=
    List.filter (fun q => eq_int (get q "difficulty") difficulty) QUESTION_BANK in
  let candidates :=
    match given topic with
    | Some t => List.filter (fun q => eq_str (get q "topic") t) candidates
    | None => candidates
    end in
  let candidates :=
    match given qtype with
    | Some ty => List.filter (fun q => eq_str (get q "type") ty) candidates
    | None => candidates
    end in
  candidates.

(** The loop shared by [pick_next_question] and [enforce_no_repeat]:
    [for q in pool: qid = q.get("question_id");
     if isinstance(qid, str) and qid not in asked: return q], else [None]. *)
Fixpoint first_unasked (asked_questions : gset string) (pool : list pydict)
  : option pydict :=
  match pool with
  | [] => None
  | q :: rest =>
      match as_str (get q "question_id") with
      | Some qid =>
          if bool_decide (qid ∈ asked_questions)
          then first_unasked asked_questions rest
          else Some q
      | None => first_unasked asked_questions rest
      end
  end.

Definition pick_next_question (asked_questions : gset string) (topic : option string)
    (difficulty : Z) (qtype : string) : option pydict :=
  let candidates := get_candidates topic difficulty (Some qtype) in
  first_unasked asked_questions candidates.

(** [sorted(set(...))] on strings. *)
Fixpoint insert_sorted (s : string) (l : list string) : list string :=
  match l with
  | [] => [s]
  | x :: rest =>
      match String.compare s x with
      | Lt => s :: l
      | Eq => l
      | Gt => x :: insert_sorted s rest
      end
  end.

Definition sorted_set (l : list string) : list string :=
  fold_right insert_sorted [] l.

Definition get_all_topics : list string :=
  sorted_set (omap (fun q => as_str (get q "topic")) QUESTION_BANK).

End QuestionBank.

(** ** app/policies/context_guard.py *)

Module ContextGuard.

Import QuestionBank.

Definition normalize_topic (topic : string) : string :=
  Str.lower (Str.strip topic).

Definition enforce_no_repeat (chosen : option pydict) (asked_questions : gset string)
    (fallback_pool : list pydict) : option pydict :=
  match chosen with
  | None => first_unasked asked_questions fallback_pool
  | Some c =>
      match as_str (get c "question_id") with
      | Some qid =>
          if bool_decide (qid ∈ asked_questions)
          then first_unasked asked_questions fallback_pool
          else Some c
      | None => first_unasked asked_questions fallback_pool
      end
  end.

Definition should_switch_topic (last_topics available_topics : list string) : bool :=
  match rev last_topics with
  | last1 :: last2 :: _ =>
      if negb (String.eqb last1 last2) then false
      else existsb (fun topic => negb (String.eqb topic last1)) available_topics
  | _ => false
  end.

End ContextGuard.

(** ** app/memory/skills.py *)

Module Skills.

(** A skill-matrix entry [{"status": ..., "evidence": [...]}]. *)
Record Entry : Type := {
  status : option string;
  evidence : list string
}.

(** One update, read with [item.get("topic")], [item.get("status")] and
    [item.get("evidence")]. *)
Record Update : Type := {
  item_topic : option string;
  item_status : option string;
  item_evidence : option string
}.

(** The body of the loop over [updates]. *)
Definition apply_one (updated : gmap string Entry) (item : Update) : gmap string Entry :=
  let status_ := item_status item in
  match given (item_topic item) with
  | None => updated
  | Some topic =>
      let entry := default {| status := None; evidence := [] |} (updated !! topic) in
      let current_status := status entry in
      let evidence_list := evidence entry in
      let evidence_list :=
        match given (item_evidence item) with
        | Some e => (evidence_list ++ [e])%list
        | None => evidence_list
        end in
      let new_status :=
        if bool_decide (current_status = Some "confirmed")
           && negb (bool_decide (status_ = Some "confirmed"))
        then current_status
        else match given status_ with
             | Some s => Some s
             | None => current_status
             end in
      <[topic := {| status := new_status; evidence := evidence_list |}]> updated
  end.

Definition apply_skill_updates (skill_matrix : gmap string Entry) (updates : list Update)
  : gmap string Entry :=
  fold_left apply_one updates skill_matrix.

(** The evidence the updates add to [topic], in order. *)
Definition added_evidence (topic : string) (updates : list Update) : list string :=
  omap (fun item =>
          if bool_decide (given (item_topic item) = Some topic)
          then given (item_evidence item) else None) updates.

(** The entry an update leaves at its topic, given the entry it found. *)
Definition updated_entry (entry : Entry) (item : Update) : Entry :=
  {| status :=
       if bool_decide (status entry = Some "confirmed")
          && negb (bool_decide (item_status item = Some "confirmed"))
       then status entry
       else match given (item_status item) with
            | Some s => Some s
            | None => status entry
            end;
     evidence :=
       match given (item_evidence item) with
       | Some e => (evidence entry ++ [e])%list
       | None => evidence entry
       end |}.

(** Whether some update names [topic]. *)
Definition touches (topic : string) (updates : list Update) : bool :=
  existsb (fun item => bool_decide (given (item_topic item) = Some topic)) updates.

End Skills.

(** ** The topic state of the session record *)

Module State.

(** [topic_state]: the keys [current_topic], [last_topics], [coverage] and
    [last_prompts_hashes]; a missing list or mapping is the empty one. *)
Record TopicState : Type := {
  current_topic : option string;
  last_topics : list string;
  coverage : gmap string Z;
  last_prompts_hashes : list string
}.

End State.

(** ** app/policies/topic_manager.py *)

Module TopicManager.

Import QuestionBank ContextGuard State.
Local Open Scope Z_scope.

Definition _status_priority (status : string) : Z :=
  if String.eqb status "gap" then 0
  else if String.eqb status "uncertain" then 1
  else if String.eqb status "unknown" then 2
  else if String.eqb status "confirmed" then 3
  else 2.

(** [scored.sort(key=lambda x: x[0])]: a stable sort on the priority. *)
Fixpoint insert_by_key (x : Z * string) (l : list (Z * string)) : list (Z * string) :=
  match l with
  | [] => [x]
  | y :: rest => if fst x <=? fst y then x :: l else y :: insert_by_key x rest
  end.

Definition sort_by_key (l : list (Z * string)) : list (Z * string) :=
  fold_right insert_by_key [] l.

(** [str(entry.get("status", "unknown"))] for [entry = skill_matrix.get(topic, {})]. *)
Definition status_text (skill_matrix : gmap string Skills.Entry) (topic : string) : string :=
  match skill_matrix !! topic with
  | Some entry =>
      match Skills.status entry with
      | Some s => s
      | None => "None"
      end
  | None => "unknown"
  end.

Definition select_next_topic (skill_matrix : gmap string Skills.Entry)
    (topic_state : TopicState) : string :=
  let all_topics := get_all_topics in
  let last_topics := last_topics topic_state in
  let scored :=
    map (fun topic =>
           let status := normalize_topic (status_text skill_matrix topic) in
           (_status_priority status, topic)) all_topics in
  let scored := sort_by_key scored in
  let selected :=
    match scored with
    | (_, topic) :: _ => topic
    | [] => match all_topics with
            | topic :: _ => topic
            | [] => "general"
            end
    end in
  if should_switch_topic last_topics all_topics then
    match last last_topics with
    | Some recent =>
        match List.find (fun x => negb (String.eqb (snd x) recent)) scored with
        | Some (_, topic) => topic
        | None => selected
        end
    | None => selected
    end
  else selected.

End TopicManager.

(** ** app/memory/controls.py *)

Module Controls.

Import State.

Section WithHash.

(** [hashlib.sha1(prompt.encode("utf-8")).hexdigest()]: a function of the
    prompt's content. *)
Variable _hash_prompt : string -> string.

(** The hash is appended to the list read from the topic state, and the key
    is then bound to a new list of its last five entries. *)
Definition detect_loop (topic_state : TopicState) (new_prompt : string)
  : TopicState * bool :=
  let hashes := last_prompts_hashes topic_state in
  let new_hash := _hash_prompt new_prompt in
  let hashes := (hashes ++ [new_hash])%list in
  let topic_state :=
    {| current_topic := current_topic topic_state;
       last_topics := last_topics topic_state;
       coverage := coverage topic_state;
       last_prompts_hashes := Str.last_n 5 hashes |} in
  (topic_state,
   Nat.leb 3 (length hashes)
   && Nat.eqb (length (remove_dups (Str.last_n 3 hashes))) 1).

End WithHash.

Definition break_loop (skill_matrix : gmap string Skills.Entry) (topic_state : TopicState)
  : string :=
  TopicManager.select_next_topic skill_matrix topic_state.

End Controls.

(** ** app/llm/schemas.py: the observer's validated output *)

Module Schemas.

Record RobustnessFlags : Type := {
  off_topic : bool;
  role_reversal : bool;
  hallucination_claim : bool;
  evasive : bool
}.

Record ObserverNextAction : Type := {
  na_type : string;
  na_topic : string;
  na_instruction_to_interviewer : string
}.

Record SkillUpdate : Type := {
  su_topic : string;
  su_status : string;
  su_evidence : string
}.

(** What [ObserverOutput.model_validate] accepts: [difficulty_delta] is an
    integer, [answer_quality] any mapping, the flags booleans. *)
Record ObserverOutput : Type := {
  summary : string;
  answer_quality : pydict;
  detected_claims : list pyval;
  skill_updates : list SkillUpdate;
  difficulty_delta : Z;
  next_action : ObserverNextAction;
  robustness : RobustnessFlags
}.

Definition dump_flags (r : RobustnessFlags) : pyval :=
  PDict [ ("off_topic", PBool (off_topic r));
          ("role_reversal", PBool (role_reversal r));
          ("hallucination_claim", PBool (hallucination_claim r));
          ("evasive", PBool (evasive r)) ].

Definition dump_next_action (a : ObserverNextAction) : pyval :=
  PDict [ ("type", PStr (na_type a));
          ("topic", PStr (na_topic a));
          ("instruction_to_interviewer", PStr (na_instruction_to_interviewer a)) ].

Definition dump_skill_update (u : SkillUpdate) : pyval :=
  PDict [ ("topic", PStr (su_topic u));
          ("status", PStr (su_status u));
          ("evidence", PStr (su_evidence u)) ].

(** [ObserverOutput.model_dump]. *)
Definition model_dump (o : ObserverOutput) : pyval :=
  PDict [ ("summary", PStr (summary o));
          ("answer_quality", PDict (answer_quality o));
          ("detected_claims", PList (detected_claims o));
          ("skill_updates", PList (map dump_skill_update (skill_updates o)));
          ("difficulty_delta", PInt (difficulty_delta o));
          ("next_action", dump_next_action (next_action o));
          ("robustness", dump_flags (robustness o)) ].

End Schemas.

(** ** app/graph/nodes.py: the policy-update step *)

Module Nodes.

Import QuestionBank ContextGuard State.
Local Open Scope Z_scope.

(** The fields of the session record that [policy_update_node] reads.
    [observer_json] is the dump of a validated observer output, or [None]
    for the empty mapping the session starts with. *)
Record InterviewState : Type := {
  observer_json : option Schemas.ObserverOutput;
  action_type : option string;
  route : option string;
  difficulty : Z;
  topic_state : TopicState;
  skill_matrix : gmap string Skills.Entry;
  asked_questions : list string
}.

(** The partial update the step returns ([planned_response] is [None]). *)
Record Updates : Type := {
  new_difficulty : Z;
  new_action_type : string;
  planned_question : option pydict;
  new_topic_state : TopicState
}.

Definition is_special (s : string) : bool :=
  String.eqb s "answer_candidate" || String.eqb s "refocus" || String.eqb s "hallucination".

Definition is_followup (s : string) : bool :=
  String.eqb s "ask" || String.eqb s "clarify" || String.eqb s "simplify" || String.eqb s "hint".

(** [for level in range(1, 6)], leaving at the first question found. *)
Fixpoint scan_levels (asked_questions : gset string) (levels : list Z) : option pydict :=
  match levels with
  | [] => None
  | level :: rest =>
      let fallback_pool := get_candidates None level None in
      match enforce_no_repeat None asked_questions fallback_pool with
      | Some q => Some q
      | None => scan_levels asked_questions rest
      end
  end.

(** The selection of the planned question, before the loop guard. *)
Definition plan_question (asked_questions : gset string) (selected_topic : string)
    (difficulty : Z) (followup_type : string) : option pydict :=
  let planned_question :=
    pick_next_question asked_questions (Some selected_topic) difficulty followup_type in
  let planned_question :=
    match planned_question with
    | Some q => Some q
    | None =>
        let fallback_pool :=
          match get_candidates None difficulty (Some followup_type) with
          | [] => get_candidates None difficulty None
          | pool => pool
          end in
        enforce_no_repeat None asked_questions fallback_pool
    end in
  match planned_question with
  | Some q => Some q
  | None => scan_levels asked_questions [1; 2; 3; 4; 5]
  end.

Section WithHash.

Variable _hash_prompt : string -> string.

Definition policy_update_node (state : InterviewState) : Updates :=
  let observer := observer_json state in
  let observer_dict :=
    match observer with
    | Some o => Schemas.model_dump o
    | None => PDict []
    end in
  let prev_action := action_type state in
  let route := match given (route state) with Some r => r | None => "normal" end in
  let action_type :=
    if is_special route then route
    else Adaptability.decide_action_type observer_dict prev_action in
  let difficulty :=
    Adaptability.apply_difficulty (difficulty state)
      match observer with
      | Some o => Schemas.difficulty_delta o
      | None => 0
      end in
  let topic_state := topic_state state in
  let last_topics := last_topics topic_state in
  let soft_topic :=
    match observer with
    | Some o => Some (Schemas.na_topic (Schemas.next_action o))
    | None => None
    end in
  let soft_topic :=
    match given soft_topic with
    | Some t => Some (normalize_topic t)
    | None => None
    end in
  let skill_matrix := skill_matrix state in
  let selected_topic := TopicManager.select_next_topic skill_matrix topic_state in
  let selected_topic :=
    match given soft_topic with
    | Some t =>
        if bool_decide (t ∈ Str.last_n 2 last_topics) then selected_topic else t
    | None => selected_topic
    end in
  let asked_questions : gset string := list_to_set (asked_questions state) in
  let followup_type :=
    if is_special action_type then "ask"
    else if is_followup action_type then action_type else "ask" in
  let planned_question :=
    plan_question asked_questions selected_topic difficulty followup_type in
  let guarded :=
    match planned_question with
    | Some q =>
        match q, as_str (get q "prompt") with
        | _ :: _, Some prompt =>
            let (topic_state, looped) :=
              Controls.detect_loop _hash_prompt topic_state prompt in
            if looped then
              let selected_topic := Controls.break_loop skill_matrix topic_state in
              (topic_state, selected_topic,
               pick_next_question asked_questions (Some selected_topic)
                 difficulty followup_type)
            else (topic_state, selected_topic, planned_question)
        | _, _ => (topic_state, selected_topic, planned_question)
        end
    | None => (topic_state, selected_topic, planned_question)
    end in
  let topic_state := fst (fst guarded) in
  let selected_topic := snd (fst guarded) in
  let planned_question := snd guarded in
  let topic_state :=
    if String.eqb selected_topic "" then topic_state
    else
      {| current_topic := Some selected_topic;
         last_topics := Str.last_n 5 (last_topics ++ [selected_topic])%list;
         coverage :=
           <[selected_topic := default 0 (coverage topic_state !! selected_topic) + 1]>
             (coverage topic_state);
         last_prompts_hashes := last_prompts_hashes topic_state |} in
  {| new_difficulty := difficulty;
     new_action_type := action_type;
     planned_question := planned_question;
     new_topic_state := topic_state |}.

End WithHash.

End Nodes.

(** ** The vocabulary of the specification *)

Module Spec.

Import QuestionBank.
Local Open Scope Z_scope.

(** [clamp(x, lo, hi)]. *)
Definition clamp (x lo hi : Z) : Z :=
  if x <? lo then lo else if hi <? x then hi else x.

(** The evaluator's robustness flag [name], as the action-type decision
    reads it. *)
Definition robustness_flag (observer_json : pyval) (name : string) : bool :=
  match observer_json with
  | PDict oj =>
      match get_or oj "robustness" (PDict []) with
      | PDict r => truthy (get r name)
      | _ => false
      end
  | _ => false
  end.

(** The answer-quality signal [name] ([correctness] or [confidence]). *)
Definition quality_signal (observer_json : pyval) (name : string) : pyval :=
  match observer_json with
  | PDict oj =>
      match get_or oj "answer_quality" (PDict []) with
      | PDict aq => get aq name
      | _ => PNone
      end
  | _ => PNone
  end.

(** Low or incorrect correctness: one of "wrong", "low", "incorrect". *)
Definition low_or_incorrect (correctness : pyval) : bool :=
  eq_str correctness "wrong" || eq_str correctness "low" || eq_str correctness "incorrect".

(** Low confidence: "low", or the number 0 or 1. *)
Definition low_confidence (confidence : pyval) : bool :=
  eq_str confidence "low" || eq_int confidence 0 || eq_int confidence 1.

(** Partial or mixed correctness. *)
Definition partial_or_mixed (correctness : pyval) : bool :=
  eq_str correctness "partial" || eq_str correctness "mixed".

(** The relaxation order in the words of the specification: the exact
    filter, then without the type, then without the topic, then every
    difficulty from 1 to 5 in order. *)
Definition relaxation_as_specified (asked_questions : gset string) (topic : string)
    (difficulty : Z) (qtype : string) : option pydict :=
  match first_unasked asked_questions (get_candidates (Some topic) difficulty (Some qtype)) with
  | Some q => Some q
  | None =>
      match first_unasked asked_questions (get_candidates (Some topic) difficulty None) with
      | Some q => Some q
      | None =>
          match first_unasked asked_questions (get_candidates None difficulty None) with
          | Some q => Some q
          | None => Nodes.scan_levels asked_questions [1; 2; 3; 4; 5]
          end
      end
  end.

(** A question whose id is a string outside the asked set. *)
Definition unasked (asked_questions : gset string) (q : pydict) : Prop :=
  exists qid : string, get q "question_id" = PStr qid /\ qid ∉ asked_questions.

(** The pool the policy update tries once the topic is dropped: the questions of the same
    difficulty and type, or of the same difficulty when there is none. *)
Definition same_level_pool (difficulty : Z) (followup_type : string) : list pydict :=
  match get_candidates None difficulty (Some followup_type) with
  | [] => get_candidates None difficulty None
  | pool => pool
  end.

End Spec.


(** ** app/memory/skills.py on the object store

    The same function with the objects it touches made explicit: the
    mapping, the entry records and the evidence lists live in a store, and
    names hold references to them. *)

Module SkillsHeap.

Import Skills.

Abbreviation loc := positive (only parsing).

Inductive obj : Type :=
| Mapping (entries : gmap string loc)
| EntryObj (status : option string) (evidence : option loc)
| ListObj (items : list string).

Abbreviation heap := (gmap positive obj) (only parsing).

(** A computation on the store; [None] is a raised exception. *)
Definition M (A : Type) : Type := heap -> option A * heap.

Definition ret {A : Type} (a : A) : M A := fun h => (Some a, h).

Definition raise {A : Type} : M A := fun h => (None, h).

Definition bind {A B : Type} (m : M A) (k : A -> M B) : M B :=
  fun h =>
    match m h with
    | (Some a, h') => k a h'
    | (None, h') => (None, h')
    end.

Notation "'let*' x ':=' m 'in' k" := (bind m (fun x => k))
  (at level 10, x name, m at level 100, k at level 200).

(** A new object, at an address the store does not use. *)
Definition alloc (o : obj) : M loc :=
  fun h => let l := fresh (dom h) in (Some l, <[l := o]> h).

Definition write (l : loc) (o : obj) : M unit :=
  fun h => (Some tt, <[l := o]> h).

(** Reading through a reference of the expected kind; anything else raises. *)
Definition read_mapping (l : loc) : M (gmap string loc) :=
  fun h =>
    match h !! l with
    | Some (Mapping d) => (Some d, h)
    | _ => (None, h)
    end.

Definition read_entry (l : loc) : M (option string * option loc) :=
  fun h =>
    match h !! l with
    | Some (EntryObj st ev) => (Some (st, ev), h)
    | _ => (None, h)
    end.

Definition read_list (l : loc) : M (list string) :=
  fun h =>
    match h !! l with
    | Some (ListObj xs) => (Some xs, h)
    | _ => (None, h)
    end.

(** The body of the loop over [updates]; [updated] is the new mapping. *)
Definition apply_one (updated : loc) (item : Update) : M unit :=
  let status_ := item_status item in
  match given (item_topic item) with
  | None => ret tt
  | Some topic =>
      (* the default [{"status": None, "evidence": []}] is built first *)
      let* default_list := alloc (ListObj []) in
      let* default_entry := alloc (EntryObj None (Some default_list)) in
      let* d := read_mapping updated in
      let entry := default default_entry (d !! topic) in
      let* fields := read_entry entry in
      let current_status := fst fields in
      (* list(entry.get("evidence", [])) *)
      let* empty_list := alloc (ListObj []) in
      let* copied := read_list (default empty_list (snd fields)) in
      let* evidence_list := alloc (ListObj copied) in
      let* _ :=
        match given (item_evidence item) with
        | Some e =>
            let* xs := read_list evidence_list in
            write evidence_list (ListObj (xs ++ [e])%list)
        | None => ret tt
        end in
      let new_status :=
        if bool_decide (current_status = Some "confirmed")
           && negb (bool_decide (status_ = Some "confirmed"))
        then current_status
        else match given status_ with
             | Some s => Some s
             | None => current_status
             end in
      let* new_entry := alloc (EntryObj new_status (Some evidence_list)) in
      let* d := read_mapping updated in
      write updated (Mapping (<[topic := new_entry]> d))
  end.

Fixpoint for_each (updated : loc) (updates : list Update) : M unit :=
  match updates with
  | [] => ret tt
  | item :: rest => let* _ := apply_one updated item in for_each updated rest
  end.

(** [skill_matrix] is [None] or a reference. [dict(skill_matrix or {})]
    copies the mapping object, not the entries it refers to. *)
Definition apply_skill_updates (skill_matrix : option loc) (updates : list Update)
  : M loc :=
  let* source :=
    match skill_matrix with
    | Some l =>
        let* d := read_mapping l in
        if bool_decide (d = ∅) then alloc (Mapping ∅) else ret l
    | None => alloc (Mapping ∅)
    end in
  let* d := read_mapping source in
  let* updated := alloc (Mapping d) in
  let* _ := for_each updated updates in
  ret updated.

(** What the store holds at a mapping, read as a skill matrix. *)
Definition entry_at (h : heap) (l : loc) : option Entry :=
  match h !! l with
  | Some (EntryObj st ev) =>
      match ev with
      | Some ll =>
          match h !! ll with
          | Some (ListObj xs) => Some {| status := st; evidence := xs |}
          | _ => None
          end
      | None => Some {| status := st; evidence := [] |}
      end
  | _ => None
  end.

Definition matrix_at (h : heap) (l : loc) : option (gmap string Entry) :=
  match h !! l with
  | Some (Mapping d) =>
      if bool_decide (map_Forall (fun _ le => is_Some (entry_at h le)) d)
      then Some (omap (entry_at h) d)
      else None
  | _ => None
  end.

(** The entry an update finds at [topic]: the one the mapping refers to,
    or the default entry. *)
Definition found_entry (h : heap) (d : gmap string loc) (topic : string) : option Entry :=
  match d !! topic with
  | Some l0 => entry_at h l0
  | None => Some {| status := None; evidence := [] |}
  end.

(** [Q] holds of the outcome of [m] run from [h]. *)
Definition wp {A : Type} (m : M A) (Q : option A -> heap -> Prop) (h : heap) : Prop :=
  Q (m h).1 (m h).2.

(** Every object of [h] other than [u] is the same in [h']. *)
Definition only_changes (u : loc) (h h' : heap) : Prop :=
  forall l o, l <> u -> h !! l = Some o -> h' !! l = Some o.

(** What one iteration leaves: only the new mapping among the existing
    objects has changed; on success it refers, at the topic of the update, to
    a new entry record with a new evidence list. *)
Definition shape_post (updated : loc) (item : Update) (h : heap)
    (d : gmap string loc) (r : option unit) (h' : heap) : Prop :=
  only_changes updated h h'
  /\ match given (item_topic item) with
     | None => r = Some tt /\ h' !! updated = Some (Mapping d)
     | Some topic =>
         match r with
         | None => h' !! updated = Some (Mapping d)
         | Some _ => exists le ll st xs,
               h' !! updated = Some (Mapping (<[topic := le]> d))
               /\ h !! le = None /\ h !! ll = None
               /\ h' !! le = Some (EntryObj st (Some ll))
               /\ h' !! ll = Some (ListObj xs)
         end
     end.

(** What the loop leaves: the same, for every topic some update names;
    for the other topics the new mapping refers to what it referred to. *)
Definition loop_post (updated : loc) (updates : list Update) (h : heap)
    (d : gmap string loc) (r : option unit) (h' : heap) : Prop :=
  only_changes updated h h'
  /\ exists d', h' !! updated = Some (Mapping d')
     /\ (forall topic, touches topic updates = false -> d' !! topic = d !! topic)
     /\ (r = Some tt -> forall topic, touches topic updates = true ->
           exists le ll st xs,
             d' !! topic = Some le
             /\ h !! le = None /\ h !! ll = None
             /\ h' !! le = Some (EntryObj st (Some ll))
             /\ h' !! ll = Some (ListObj xs)).

(** The mapping the call copies. *)
Definition source_entries (h : heap) (skill_matrix : option loc)
  : gmap string loc :=
  match skill_matrix with
  | Some l => match h !! l with
              | Some (Mapping d) => d
              | _ => ∅
              end
  | None => ∅
  end.

(** Objects other than mappings are kept from [h] to [h']. *)
Definition keeps_records (h h' : heap) : Prop :=
  forall l o, h !! l = Some o -> (exists d, o = Mapping d) \/ h' !! l = Some o.

(** The matrix a call starts from. *)
Definition source_matrix (h : heap) (skill_matrix : option loc)
  : option (gmap string Entry) :=
  match skill_matrix with
  | Some l => matrix_at h l
  | None => Some ∅
  end.

End SkillsHeap.

(** ** app/llm/json_parser.py and app/llm/retry.py

    The capability is a function of the requests it has received. A run
    keeps the trace of what it did: every invocation, tagged by the place it
    was made from, and every pause. [json.loads] is a parameter; a schema is
    its validator and the JSON text of its description. *)

Module StructuredCall.

Local Open Scope string_scope.
Local Open Scope Z_scope.

Definition nl : string := String (ascii_of_nat 10) EmptyString.

Inductive lc_message : Type :=
| SystemMessage (content : string)
| HumanMessage (content : string)
| AIMessage (content : string).

(** What [llm.invoke] gives back: an exception, [None], a plain string, or a
    message object with its [content] and its [str()]. *)
Inductive response : Type :=
| Raises (error : string)
| ReturnsNone
| ReturnsStr (text : string)
| ReturnsMessage (content : option string) (repr : string).

(** The capability: the answer to the last of the requests received so far. *)
Definition capability : Type := list (list lc_message) -> response.

Inductive call_site : Type := FreshCall | RepairCall.

Inductive event : Type :=
| Invoked (site : call_site) (messages : list lc_message)
| Slept (half_seconds : Z).

Inductive exn : Type :=
| JsonSchemaValidationError (original_text : string) (repaired_text : option string)
| ValueError (message : string)
| AssertionError
| TransportError (error : string).

Record LLMCallError : Type := {
  role : string;
  last_response : option string;
  cause : option exn
}.

(** A run: from the trace so far to a value or an exception, and the trace. *)
Definition run (E A : Type) : Type := list event -> (A + E) * list event.

Definition requests (trace : list event) : list (list lc_message) :=
  omap (fun ev => match ev with
                  | Invoked _ messages => Some messages
                  | Slept _ => None
                  end) trace.

(** The number of repair round-trips in a trace. *)
Definition repair_calls (trace : list event) : nat :=
  length (List.filter (fun ev => match ev with
                                 | Invoked RepairCall _ => true
                                 | _ => false
                                 end) trace).

(** The number of fresh invocations in a trace. *)
Definition fresh_calls (trace : list event) : nat :=
  length (List.filter (fun ev => match ev with
                                 | Invoked FreshCall _ => true
                                 | _ => false
                                 end) trace).

(** [llm.invoke(messages)], recorded. *)
Definition invoke (llm : capability) (site : call_site) (messages : list lc_message)
  : run exn response :=
  fun trace =>
    let trace := (trace ++ [Invoked site messages])%list in
    match llm (requests trace) with
    | Raises error => (inr (TransportError error), trace)
    | r => (inl r, trace)
    end.

(** [getattr(response, "content", None)], or the response itself when it is
    a string. *)
Definition content_of (r : response) : option string :=
  match r with
  | ReturnsMessage content _ => content
  | ReturnsStr text => Some text
  | _ => None
  end.

(** [str(response)]. *)
Definition str_of (r : response) : string :=
  match r with
  | ReturnsMessage _ repr => repr
  | ReturnsStr text => text
  | ReturnsNone => "None"
  | Raises error => error
  end.

(** [range(n)]. *)
Definition range (n : Z) : list Z := seqZ 0 n.

Fixpoint find_char (c : ascii) (s : string) : option nat :=
  match s with
  | EmptyString => None
  | String c' rest =>
      if Ascii.eqb c' c then Some 0%nat else option_map S (find_char c rest)
  end.

Fixpoint rfind_char (c : ascii) (s : string) : option nat :=
  match s with
  | EmptyString => None
  | String c' rest =>
      match rfind_char c rest with
      | Some i => Some (S i)
      | None => if Ascii.eqb c' c then Some 0%nat else None
      end
  end.

(** [text[start : stop + 1]] for [start <= stop]. *)
Definition slice (text : string) (start stop : nat) : string :=
  substring start (stop + 1 - start) text.

Section WithJson.

Variable json : Type.

(** [json.loads]: [None] when the text does not parse. *)
Variable json_loads : string -> option json.

Record Schema (T : Type) : Type := {
  model_validate : json -> option T;
  schema_json : string
}.

Arguments model_validate {T}.
Arguments schema_json {T}.

(** The balanced-brace scan of [_extract_json_substring]. *)
Fixpoint scan_balanced (text : string) (chars : list ascii) (idx depth : nat)
    (start_idx : option nat) : option string :=
  match chars with
  | [] => None
  | ch :: rest =>
      if Ascii.eqb ch "{" then
        let start_idx := if Nat.eqb depth 0 then Some idx else start_idx in
        scan_balanced text rest (S idx) (S depth) start_idx
      else if Ascii.eqb ch "}" then
        if Nat.ltb 0 depth then
          let depth := (depth - 1)%nat in
          match Nat.eqb depth 0, start_idx with
          | true, Some start =>
              let candidate := slice text start idx in
              match json_loads candidate with
              | Some _ => Some candidate
              | None => scan_balanced text rest (S idx) depth None
              end
          | _, _ => scan_balanced text rest (S idx) depth start_idx
          end
        else scan_balanced text rest (S idx) depth start_idx
      else scan_balanced text rest (S idx) depth start_idx
  end.

(** [None] is the [ValueError] of a text with no JSON object in it. *)
Definition _extract_json_substring (text : string) : option string :=
  let text := Str.strip text in
  match json_loads text with
  | Some _ => Some text
  | None =>
      let sliced :=
        match find_char "{" text, rfind_char "}" text with
        | Some start, Some stop =>
            if Nat.ltb start stop then
              let candidate := slice text start stop in
              match json_loads candidate with
              | Some _ => Some candidate
              | None => None
              end
            else None
        | _, _ => None
        end in
      match sliced with
      | Some candidate => Some candidate
      | None => scan_balanced text (list_ascii_of_string text) 0 0 None
      end
  end.

Definition parse_json_with_schema {T : Type} (text : string) (schema : Schema T)
  : T + exn :=
  let failure := inr (JsonSchemaValidationError text None) in
  match _extract_json_substring text with
  | Some json_str =>
      match json_loads json_str with
      | Some data =>
          match model_validate schema data with
          | Some v => inl v
          | None => failure
          end
      | None => failure
      end
  | None => failure
  end.

(** [_convert_messages], with LangChain present: an unknown role is sent as
    a human message. *)
Definition _convert_messages (messages : list (string * string)) : list lc_message :=
  map (fun msg =>
         let role := fst msg in
         let content := snd msg in
         if String.eqb role "system" then SystemMessage content
         else if String.eqb role "user" then HumanMessage content
         else if String.eqb role "assistant" then AIMessage content
         else HumanMessage content) messages.

Definition repair_instruction : string :=
  "Ты вернул невалидный JSON. Верни только валидный JSON, строго по схеме. "
  ++ "Никакого текста до или после. Никакого markdown.".

(** The request of the repair round-trip: the instruction to return JSON
    only, the schema, and the bad text. *)
Definition repair_messages (bad_text schema_json_ : string) : list lc_message :=
  [ SystemMessage repair_instruction;
    HumanMessage ("Schema:" ++ nl ++ schema_json_ ++ nl ++ nl
                  ++ "Bad JSON:" ++ nl ++ bad_text ++ nl ++ nl ++ "Ответ:") ].

Definition repair_to_valid_json (llm : capability) (bad_text schema_json_ : string)
  : run exn string :=
  fun trace =>
    match invoke llm RepairCall (repair_messages bad_text schema_json_) trace with
    | (inl response_, trace) =>
        match content_of response_ with
        | Some content => (inl (Str.strip content), trace)
        | None => (inr (ValueError "LLM repair step returned empty response"), trace)
        end
    | (inr e, trace) => (inr e, trace)
    end.

(** How an iteration of a [for] loop ends. *)
Inductive outcome (T : Type) : Type :=
| Return (value : T)
| Break (last_error : option exn)
| Continue (last_error : option exn).

Arguments Return {T}.
Arguments Break {T}.
Arguments Continue {T}.

Section Call.

Context {T : Type}.
Variable llm : capability.
Variable schema : Schema T.

(** One iteration of the loop of [call_llm_for_json]. *)
Definition attempt_body (converted_messages : list lc_message) (max_attempts attempt : Z)
  : run exn (outcome T) :=
  fun trace =>
    match invoke llm FreshCall converted_messages trace with
    | (inr e, trace) => (inr e, trace)
    | (inl response_, trace) =>
        match content_of response_ with
        | None => (inr (JsonSchemaValidationError (str_of response_) None), trace)
        | Some content =>
            match parse_json_with_schema content schema with
            | inl v => (inl (Return v), trace)
            | inr exc =>
                if attempt =? max_attempts - 1 then (inl (Break (Some exc)), trace)
                else
                  match repair_to_valid_json llm content (schema_json schema) trace with
                  | (inr e, trace) => (inr e, trace)
                  | (inl repaired, trace) =>
                      match parse_json_with_schema repaired schema with
                      | inl v => (inl (Return v), trace)
                      | inr _ =>
                          (inl (Break (Some (JsonSchemaValidationError content
                                               (Some repaired)))), trace)
                      end
                  end
            end
        end
    end.

(** [assert last_error is not None; raise last_error]. *)
Definition raise_last (last_error : option exn) : run exn T :=
  fun trace =>
    match last_error with
    | Some e => (inr e, trace)
    | None => (inr AssertionError, trace)
    end.

Fixpoint attempts_loop (converted_messages : list lc_message) (max_attempts : Z)
    (attempts : list Z) (last_error : option exn) : run exn T :=
  fun trace =>
    match attempts with
    | [] => raise_last last_error trace
    | attempt :: rest =>
        match attempt_body converted_messages max_attempts attempt trace with
        | (inr e, trace) => (inr e, trace)
        | (inl (Return v), trace) => (inl v, trace)
        | (inl (Break last_error), trace) => raise_last last_error trace
        | (inl (Continue last_error), trace) =>
            attempts_loop converted_messages max_attempts rest last_error trace
        end
    end.

Definition call_llm_for_json (messages : list (string * string)) (max_attempts : Z)
  : run exn T :=
  let converted_messages := _convert_messages messages in
  attempts_loop converted_messages max_attempts (range max_attempts) None.

(** What the repair round-trip yields, given the answer to it. *)
Definition after_repair (content : string) (answer : response) : T + exn :=
  match answer with
  | Raises error => inr (TransportError error)
  | _ =>
      match content_of answer with
      | None => inr (ValueError "LLM repair step returned empty response")
      | Some repaired =>
          match parse_json_with_schema (Str.strip repaired) schema with
          | inl v => inl v
          | inr _ => inr (JsonSchemaValidationError content (Some (Str.strip repaired)))
          end
      end
  end.

(** [text if len(text) <= limit else text[:limit] + "..."]. *)
Definition _clip (text : option string) : option string :=
  match text with
  | None => None
  | Some text =>
      if Nat.leb (String.length text) 800 then Some text
      else Some (substring 0 800 text ++ "...")
  end.

(** The loop of [safe_call_for_json]; the timeout is a setting of the
    capability and leaves no trace of its own. *)
Fixpoint safe_loop (messages : list (string * string)) (max_attempts : Z) (role_ : string)
    (attempts : list Z) (last_err : option exn) (last_response_ : option string)
  : run LLMCallError T :=
  fun trace =>
    match attempts with
    | [] =>
        (inr {| role := role_;
                last_response := _clip last_response_;
                cause := last_err |}, trace)
    | attempt :: rest =>
        match call_llm_for_json messages 1 trace with
        | (inl result, trace) => (inl result, trace)
        | (inr exc, trace) =>
            let last_response_ :=
              match exc with
              | JsonSchemaValidationError original_text _ => _clip (Some original_text)
              | _ => last_response_
              end in
            let trace :=
              if attempt <? max_attempts - 1
              then (trace ++ [Slept (attempt + 1)])%list else trace in
            safe_loop messages max_attempts role_ rest (Some exc) last_response_ trace
        end
    end.

Definition safe_call_for_json (messages : list (string * string)) (max_attempts : Z)
    (role_ : string) : run LLMCallError T :=
  safe_loop messages max_attempts role_ (range max_attempts) None None.

End Call.

End WithJson.

Arguments model_validate {json T}.
Arguments schema_json {json T}.
Arguments Return {T}.
Arguments Break {T}.
Arguments Continue {T}.

(** A capability that answers every request with the same text. *)
Definition constant_capability (text : string) : capability :=
  fun _ => ReturnsMessage (Some text) text.

End StructuredCall.

(** * Further parts of the program

    The robustness detector, the path of a turn through the graph, the
    session as a sequence of turns, the window on the history, the
    normalisation of texts and the log of the turns.

    Conventions of these parts.
    - The candidate's message may hold any Unicode white space: where a
      function strips it, [strip] is a variable of the section.
    - The texts the normalisation and the log work on are lists of code
      points, with [str.isspace] written out.
    - What the language models return (the evaluator's and the interviewer's
      validated outputs, the extracted profile) is an input of the turn. *)

From Stdlib Require Import Sorted.

(** ** app/llm/retry.py: the shape of a trace of failed attempts *)

Module RetryTrace.

Import StructuredCall.
Local Open Scope list_scope.
Local Open Scope Z_scope.


End RetryTrace.

(** ** app/policies/topic_manager.py and question_bank.py: ranks and filters *)

Module Ranking.

Import Py QuestionBank ContextGuard TopicManager.
Local Open Scope Z_scope.

(** The key [select_next_topic] sorts a topic by: the priority of its
    normalised status in the skill matrix. *)
Definition topic_priority (skill_matrix : gmap string Skills.Entry) (topic : string) : Z :=
  _status_priority (normalize_topic (status_text skill_matrix topic)).

(** The three conditions of the comprehensions of [get_candidates] on one
    bank entry; a falsy [topic] or [qtype] does not filter. *)
Definition matches (topic : option string) (difficulty : Z) (qtype : option string)
    (q : pydict) : bool :=
  eq_int (get q "difficulty") difficulty
  && match given topic with
     | Some t => eq_str (get q "topic") t
     | None => true
     end
  && match given qtype with
     | Some ty => eq_str (get q "type") ty
     | None => true
     end.

(** No entry three times in a row. *)
Definition no_triple (topics : list string) : Prop :=
  forall pre r post, topics <> (pre ++ [r; r; r] ++ post)%list.

(** The order of the sort of [select_next_topic]: by the priority alone. *)
Definition by_key (x y : Z * string) : Prop := fst x <= fst y.

End Ranking.

(** ** app/policies/robustness.py *)

Module Robustness.

Import Py Router.
Local Open Scope string_scope.

(** [c in text] for a single character [c]. *)
Fixpoint contains_char (c : ascii) (text : string) : bool :=
  match text with
  | EmptyString => false
  | String c' rest => Ascii.eqb c' c || contains_char c rest
  end.

(** The class [[\n\.?!]] of the split. *)
Definition is_sentence_end (c : ascii) : bool :=
  Ascii.eqb c "010" || Ascii.eqb c "." || Ascii.eqb c "?" || Ascii.eqb c "!".

(** [re.split] on a class of single characters: the pieces between the
    separators, empty ones included. *)
Fixpoint split_on (sep : ascii -> bool) (text : string) : list string :=
  match text with
  | EmptyString => [EmptyString]
  | String c rest =>
      if sep c then EmptyString :: split_on sep rest
      else
        match split_on sep rest with
        | piece :: pieces => String c piece :: pieces
        | [] => [String c EmptyString]
        end
  end.

(** [", ".join(parts)]. *)
Fixpoint join (sep : string) (parts : list string) : string :=
  match parts with
  | [] => ""
  | [part] => part
  | part :: rest => part ++ sep ++ join sep rest
  end.

Section WithStrip.

(** [str.strip] on the candidate's text, which may hold any Unicode white
    space. *)
Variable strip : string -> string.

Definition _extract_candidate_question (text : string) : option string :=
  if negb (contains_char "?" text) then None
  else
    let parts :=
      List.filter (fun p => negb (String.eqb p ""))
        (map strip (split_on is_sentence_end text)) in
    match List.find (contains_char "?") (rev parts) with
    | Some part => Some (part ++ "?")
    | None => Some (strip text)
    end.

(** The two fields of the session record that [detect_robustness] reads:
    [user_message] and [observer_json]. *)
Definition detect_robustness (user_message : option string) (observer_json : pyval)
  : RobustnessDetection :=
  let user_message :=
    strip match given user_message with Some s => s | None => "" end in
  let observer_robustness :=
    match as_dict observer_json with
    | Some oj =>
        let r := get_or oj "robustness" (PDict []) in
        if truthy r then r else PDict []
    | None => PDict []
    end in
  let flag (name : string) : bool :=
    match as_dict observer_robustness with
    | Some r => truthy (get r name)
    | None => false
    end in
  let off_topic := flag "off_topic" in
  let role_reversal := flag "role_reversal" in
  let candidate_question :=
    if role_reversal then _extract_candidate_question user_message else None in
  let hallucination_claim := flag "hallucination_claim" in
  let suspicious_claim := if hallucination_claim then Some user_message else None in
  let evasive := flag "evasive" in
  let reason_parts :=
    ((if off_topic then ["off_topic keywords"] else [])
     ++ (if role_reversal then ["candidate asked about process"] else [])
     ++ (if hallucination_claim then ["observer hallucination signal"] else [])
     ++ (if evasive then ["evasive phrasing/short answer"] else []))%list in
  let reason :=
    match reason_parts with
    | [] => "no issues detected"
    | _ => join ", " reason_parts
    end in
  {| off_topic := off_topic;
     role_reversal := role_reversal;
     hallucination_claim := hallucination_claim;
     evasive := evasive;
     reason := reason;
     candidate_question := candidate_question;
     suspicious_claim := suspicious_claim |}.

End WithStrip.

End Robustness.

(** ** app/graph/nodes.py and app/graph/build.py: from the detector to the branch *)

Module Turn.

Import Py Router Robustness State Nodes.
Local Open Scope string_scope.

(** What [robustness_detect_node] returns; [robustness_det] is the mapping
    of the detection's seven fields. *)
Record Detected : Type := {
  robustness_det : RobustnessDetection;
  det_route : string;
  det_internal_thoughts : string
}.

Section WithStrip.

Variable strip : string -> string.

Definition robustness_detect_node (stop_requested : bool) (user_message : option string)
    (observer_json : pyval) (internal_thoughts : string) : Detected :=
  let det := detect_robustness strip user_message observer_json in
  let route := choose_route stop_requested det in
  let line := "[RobustnessDetector]: route=" ++ route ++ " reason=" ++ reason det in
  let internal_thoughts :=
    if String.eqb internal_thoughts "" then line
    else internal_thoughts ++ String "010" line in
  {| robustness_det := det;
     det_route := route;
     det_internal_thoughts := internal_thoughts |}.

End WithStrip.

(** [merged = dict(state); merged.update(updates)] of [_wrap], on the
    [route] key. *)
Definition with_route (state : InterviewState) (route_ : string) : InterviewState :=
  {| observer_json := observer_json state;
     action_type := action_type state;
     route := Some route_;
     difficulty := difficulty state;
     topic_state := topic_state state;
     skill_matrix := skill_matrix state;
     asked_questions := asked_questions state |}.

(** The mapping under the [observer_json] key. *)
Definition observer_dict (state : InterviewState) : pyval :=
  match observer_json state with
  | Some o => Schemas.model_dump o
  | None => PDict []
  end.

(** [route_after_policy]: [state.get("route", "normal")], then the three
    comparisons. *)
Definition route_after_policy (route_ : option string) : string :=
  let route_ := match route_ with Some r => r | None => "normal" end in
  if String.eqb route_ "answer_candidate" then "answer_candidate"
  else if String.eqb route_ "refocus" then "refocus"
  else if String.eqb route_ "hallucination" then "hallucination"
  else "normal".

(** The node the conditional edge after [policy_update] leads to. *)
Definition node_after_policy (route_ : option string) : string :=
  let key := route_after_policy route_ in
  if String.eqb key "answer_candidate" then "answer_candidate"
  else if String.eqb key "refocus" then "refocus"
  else if String.eqb key "hallucination" then "factcheck"
  else "interviewer_generate".

End Turn.

(** ** app/graph/nodes.py, app/graph/build.py and app/main.py: one turn of the session *)

Module Session.

Import Py Router Robustness State Nodes Turn.
Local Open Scope string_scope.
Local Open Scope Z_scope.

(** A validated [InterviewerOutput]. *)
Record InterviewerOutput : Type := {
  agent_visible_message : string;
  meta_topic : string;
  meta_intent : string;
  meta_difficulty : Z
}.

(** The keys of the session record that the nodes of a turn read and write
    on the way from the evaluator to the interviewer. *)
Record SessionState : Type := {
  user_message : option string;
  history : list (string * string);
  observer_json : option Schemas.ObserverOutput;
  skill_matrix : gmap string Skills.Entry;
  internal_thoughts : string;
  route : option string;
  action_type : option string;
  difficulty : Z;
  topic_state : TopicState;
  asked_questions : list string;
  planned_question : option pydict;
  last_question_id : option string
}.

(** The record [main] starts the session with. *)
Definition initial_state : SessionState :=
  {| user_message := Some "";
     history := [];
     observer_json := None;
     skill_matrix := ∅;
     internal_thoughts := "";
     route := Some "normal";
     action_type := None;
     difficulty := 1;
     topic_state := {| current_topic := None; last_topics := []; coverage := ∅;
                       last_prompts_hashes := [] |};
     asked_questions := [];
     planned_question := None;
     last_question_id := None |}.

(** The keys [policy_update_node] reads. *)
Definition policy_input (state : SessionState) : InterviewState :=
  {| Nodes.observer_json := observer_json state;
     Nodes.action_type := action_type state;
     Nodes.route := route state;
     Nodes.difficulty := difficulty state;
     Nodes.topic_state := topic_state state;
     Nodes.skill_matrix := skill_matrix state;
     Nodes.asked_questions := asked_questions state |}.

(** An item of [observer_json["skill_updates"]], as [apply_skill_updates]
    reads it. *)
Definition skill_update_item (u : Schemas.SkillUpdate) : Skills.Update :=
  {| Skills.item_topic := Some (Schemas.su_topic u);
     Skills.item_status := Some (Schemas.su_status u);
     Skills.item_evidence := Some (Schemas.su_evidence u) |}.

(** [observer_evaluate_node] merged into the record; [observer_output] is
    what [run_observer] returned and [thoughts] the text
    [_format_internal_thoughts] made of it. *)
Definition observer_evaluate_node (state : SessionState)
    (observer_output : Schemas.ObserverOutput) (thoughts : string) : SessionState :=
  let history :=
    match given (user_message state) with
    | Some message => (history state ++ [("candidate", message)])%list
    | None => history state
    end in
  let skill_matrix :=
    Skills.apply_skill_updates (skill_matrix state)
      (map skill_update_item (Schemas.skill_updates observer_output)) in
  {| user_message := user_message state;
     history := history;
     observer_json := Some observer_output;
     skill_matrix := skill_matrix;
     internal_thoughts := thoughts;
     route := route state;
     action_type := action_type state;
     difficulty := difficulty state;
     topic_state := topic_state state;
     asked_questions := asked_questions state;
     planned_question := planned_question state;
     last_question_id := last_question_id state |}.

Section WithEnvironment.

Variable strip : string -> string.
Variable _hash_prompt : string -> string.

(** [robustness_detect_node] merged into the record; the turn is not
    stopped when this node runs. *)
Definition robustness_detect_step (state : SessionState) : SessionState :=
  let det :=
    robustness_detect_node strip false (user_message state)
      (observer_dict (policy_input state)) (internal_thoughts state) in
  {| user_message := user_message state;
     history := history state;
     observer_json := observer_json state;
     skill_matrix := skill_matrix state;
     internal_thoughts := det_internal_thoughts det;
     route := Some (det_route det);
     action_type := action_type state;
     difficulty := difficulty state;
     topic_state := topic_state state;
     asked_questions := asked_questions state;
     planned_question := planned_question state;
     last_question_id := last_question_id state |}.

(** [policy_update_node] merged into the record. *)
Definition policy_update_step (state : SessionState) : SessionState :=
  let updates := policy_update_node _hash_prompt (policy_input state) in
  {| user_message := user_message state;
     history := history state;
     observer_json := observer_json state;
     skill_matrix := skill_matrix state;
     internal_thoughts := internal_thoughts state;
     route := route state;
     action_type := Some (new_action_type updates);
     difficulty := new_difficulty updates;
     topic_state := new_topic_state updates;
     asked_questions := asked_questions state;
     planned_question := Nodes.planned_question updates;
     last_question_id := last_question_id state |}.

(** The branch after the policy update: [answer_candidate], [refocus] and
    [factcheck] followed by [hallucination] record their name as the action
    type; the normal branch goes to the interviewer at once. *)
Definition branch_step (state : SessionState) : SessionState :=
  let node := node_after_policy (route state) in
  let action_type :=
    if String.eqb node "answer_candidate" then Some "answer_candidate"
    else if String.eqb node "refocus" then Some "refocus"
    else if String.eqb node "factcheck" then Some "hallucination"
    else action_type state in
  {| user_message := user_message state;
     history := history state;
     observer_json := observer_json state;
     skill_matrix := skill_matrix state;
     internal_thoughts := internal_thoughts state;
     route := route state;
     action_type := action_type;
     difficulty := difficulty state;
     topic_state := topic_state state;
     asked_questions := asked_questions state;
     planned_question := planned_question state;
     last_question_id := last_question_id state |}.

(** The identifier [interviewer_generate_node] appends to the asked ones:
    that of the planned question, when it is a string not yet in the list. *)
Definition new_question_id (asked_questions : list string)
    (planned_question : option pydict) : option string :=
  let question_id :=
    match planned_question with
    | Some ((_ :: _) as question) => get question "question_id"
    | _ => PNone
    end in
  match as_str question_id with
  | Some qid => if bool_decide (qid ∈ asked_questions) then None else Some qid
  | None => None
  end.

(** [interviewer_generate_node] merged into the record; [output] is what
    [run_interviewer] returned. *)
Definition interviewer_generate_node (state : SessionState) (output : InterviewerOutput)
  : SessionState :=
  let message := agent_visible_message output in
  let history := (history state ++ [("interviewer", message)])%list in
  let recorded := new_question_id (asked_questions state) (planned_question state) in
  let asked_questions :=
    match recorded with
    | Some qid => (asked_questions state ++ [qid])%list
    | None => asked_questions state
    end in
  let last_question_id :=
    match recorded with
    | Some qid => Some qid
    | None => last_question_id state
    end in
  let topic_state :=
    if String.eqb (meta_topic output) "" then topic_state state
    else
      {| current_topic := Some (meta_topic output);
         last_topics := last_topics (topic_state state);
         coverage := coverage (topic_state state);
         last_prompts_hashes := last_prompts_hashes (topic_state state) |} in
  {| user_message := user_message state;
     history := history;
     observer_json := observer_json state;
     skill_matrix := skill_matrix state;
     internal_thoughts := internal_thoughts state;
     route := route state;
     action_type := action_type state;
     difficulty := difficulty state;
     topic_state := topic_state;
     asked_questions := asked_questions;
     planned_question := planned_question state;
     last_question_id := last_question_id |}.

(** What a turn takes from outside: the candidate's message and the two
    agents' outputs. *)
Record TurnInput : Type := {
  candidate_message : string;
  observer_output : Schemas.ObserverOutput;
  observer_thoughts : string;
  interviewer_output : InterviewerOutput
}.

(** [state["user_message"] = user_message] of [main]. *)
Definition receive (state : SessionState) (message : string) : SessionState :=
  {| user_message := Some message;
     history := history state;
     observer_json := observer_json state;
     skill_matrix := skill_matrix state;
     internal_thoughts := internal_thoughts state;
     route := route state;
     action_type := action_type state;
     difficulty := difficulty state;
     topic_state := topic_state state;
     asked_questions := asked_questions state;
     planned_question := planned_question state;
     last_question_id := last_question_id state |}.

(** A turn that is not stopped: the path [observer_evaluate],
    [robustness_detect], [policy_update], the branch, [interviewer_generate]
    of the graph. *)
Definition turn (state : SessionState) (input : TurnInput) : SessionState :=
  let state := receive state (candidate_message input) in
  let state := observer_evaluate_node state (observer_output input) (observer_thoughts input) in
  let state := robustness_detect_step state in
  let state := policy_update_step state in
  let state := branch_step state in
  interviewer_generate_node state (interviewer_output input).

(** The records after each turn of a session. *)
Fixpoint session (state : SessionState) (inputs : list TurnInput) : list SessionState :=
  match inputs with
  | [] => []
  | input :: rest => let state := turn state input in state :: session state rest
  end.

End WithEnvironment.

(** The identifier of a planned question. *)
Definition planned_id (state : SessionState) : option string :=
  match planned_question state with
  | Some question => as_str (get question "question_id")
  | None => None
  end.

(** The identifiers of the bank, in its order. *)
Definition bank_ids : list string :=
  omap (fun q => as_str (get q "question_id")) QuestionBank.QUESTION_BANK.

(** What is to hold of the record after every turn: the difficulty is
    between 1 and 5, the asked identifiers are those of bank questions
    without repetition, and five recent topics and five prompt hashes at most
    are kept. *)
Definition kept (st : SessionState) : Prop :=
  (1 <= difficulty st <= 5)%Z
  /\ List.NoDup (asked_questions st)
  /\ incl (asked_questions st) bank_ids
  /\ (length (last_topics (topic_state st)) <= 5)%nat
  /\ (length (last_prompts_hashes (topic_state st)) <= 5)%nat.

End Session.

(** ** app/memory/controls.py: the window on the history *)

Module Windowing.

Local Open Scope Z_scope.

(** [xs[start:]] for any integer [start]: a negative one counts from the
    end, and both are clamped to the list. *)
Definition slice_from {A : Type} (start : Z) (xs : list A) : list A :=
  let n := Z.of_nat (length xs) in
  let start := if start <? 0 then Z.max 0 (n + start) else Z.min start n in
  drop (Z.to_nat start) xs.

Definition history_tail {A : Type} (history : list A) (max_items : Z) : list A :=
  match history with
  | [] => []
  | _ => slice_from (- max_items) history
  end.

End Windowing.

(** ** app/policies/safety_limits.py, on the code points of the text *)

Module SafetyLimits.

Local Open Scope Z_scope.

(** The class of the tab, the line feed, the carriage return, the printable
    ASCII characters and the block U+0400..U+04FF, which the substitution
    keeps. *)
Definition allowed (c : Z) : bool :=
  (c =? 9) || (c =? 10) || (c =? 13)
  || ((32 <=? c) && (c <=? 126))
  || ((1024 <=? c) && (c <=? 1279)).

(** [str.isspace] of one code point. *)
Definition isspace (c : Z) : bool :=
  ((9 <=? c) && (c <=? 13)) || ((28 <=? c) && (c <=? 32))
  || (c =? 133) || (c =? 160) || (c =? 5760)
  || ((8192 <=? c) && (c <=? 8202))
  || (c =? 8232) || (c =? 8233) || (c =? 8239) || (c =? 8287) || (c =? 12288).

Fixpoint lstrip (s : list Z) : list Z :=
  match s with
  | [] => []
  | c :: rest => if isspace c then lstrip rest else s
  end.

Fixpoint rstrip (s : list Z) : list Z :=
  match s with
  | [] => []
  | c :: rest =>
      match rstrip rest with
      | [] => if isspace c then [] else [c]
      | kept => c :: kept
      end
  end.

Definition strip (s : list Z) : list Z := rstrip (lstrip s).

(** [xs[:stop]] for any integer [stop]. *)
Definition slice_to {A : Type} (stop : Z) (xs : list A) : list A :=
  let n := Z.of_nat (length xs) in
  let stop := if stop <? 0 then Z.max 0 (n + stop) else Z.min stop n in
  take (Z.to_nat stop) xs.

(** [normalize_text(s, max_len)] for [s] a string or [None]. *)
Definition normalize_text (s : option (list Z)) (max_len : Z) : list Z :=
  match s with
  | None => []
  | Some s =>
      let cleaned := map (fun c => if allowed c then c else 32) s in
      let cleaned := strip cleaned in
      match cleaned with
      | [] => []
      | _ =>
          if Z.of_nat (length cleaned) >? max_len then slice_to max_len cleaned
          else cleaned
      end
  end.

End SafetyLimits.

(** ** app/state/schema.py and app/logging/interview_logger.py: the log of the turns *)

Module InterviewLogger.

Import Py SafetyLimits.
Local Open Scope string_scope.
Local Open Scope Z_scope.

(** A turn of the log; the texts are lists of code points. *)
Record TurnLog : Type := {
  turn_id : Z;
  agent_visible_message : list Z;
  user_message : list Z;
  internal_thoughts : list Z
}.

(** The content of the log file: a mapping with the four keys of
    [InterviewLog], the turns being mappings with the four keys of [TurnLog]
    and values of their types. *)
Record InterviewLog : Type := {
  participant_name : string;
  candidate_profile : pydict;
  turns : list TurnLog;
  final_feedback : pyval
}.

Inductive ValueError : Type :=
| BlankThoughts
| TurnIdNotGreater.

(** [TurnLog.__init__] on values of the right types: the thoughts must not
    be blank. *)
Definition new_turn (turn_id_ : Z) (agent_visible_message_ user_message_
    internal_thoughts_ : list Z) : ValueError + TurnLog :=
  match strip internal_thoughts_ with
  | [] => inl BlankThoughts
  | _ =>
      inr {| turn_id := turn_id_;
             agent_visible_message := agent_visible_message_;
             user_message := user_message_;
             internal_thoughts := internal_thoughts_ |}
  end.

(** [[TurnLog.model_validate(t) for t in turns_raw]]. *)
Fixpoint validate_turns (turns_raw : list TurnLog) : ValueError + list TurnLog :=
  match turns_raw with
  | [] => inr []
  | t :: rest =>
      match new_turn (turn_id t) (agent_visible_message t) (user_message t)
              (internal_thoughts t) with
      | inl e => inl e
      | inr t =>
          match validate_turns rest with
          | inl e => inl e
          | inr rest => inr (t :: rest)
          end
      end
  end.

(** [InterviewLog.model_validate] on the content of the file. *)
Definition model_validate (data : InterviewLog) : ValueError + InterviewLog :=
  match validate_turns (turns data) with
  | inl e => inl e
  | inr turns_ =>
      inr {| participant_name := participant_name data;
             candidate_profile := candidate_profile data;
             turns := turns_;
             final_feedback := final_feedback data |}
  end.

Definition DEFAULT_PARTICIPANT_NAME : string := "Олейников Антон Александрович".

(** [append_turn]: the file is loaded and validated, the turn appended and
    the file written again; an exception leaves the file as it was. *)
Definition append_turn (file : InterviewLog) (turn_id_ : Z)
    (agent_visible_message_ user_message_ internal_thoughts_ : list Z)
  : ValueError + InterviewLog :=
  match model_validate file with
  | inl e => inl e
  | inr log =>
      let refused :=
        match last (turns log) with
        | Some recent => turn_id_ <=? turn_id recent
        | None => false
        end in
      if refused then inl TurnIdNotGreater
      else
        match new_turn turn_id_ agent_visible_message_ user_message_
                internal_thoughts_ with
        | inl e => inl e
        | inr t =>
            inr {| participant_name := DEFAULT_PARTICIPANT_NAME;
                   candidate_profile := candidate_profile log;
                   turns := (turns log ++ [t])%list;
                   final_feedback := final_feedback log |}
        end
  end.

(** [set_candidate_profile]. *)
Definition set_candidate_profile (file : InterviewLog) (candidate_profile_ : pydict)
  : ValueError + InterviewLog :=
  match model_validate file with
  | inl e => inl e
  | inr log =>
      inr {| participant_name := DEFAULT_PARTICIPANT_NAME;
             candidate_profile := candidate_profile_;
             turns := turns log;
             final_feedback := final_feedback log |}
  end.

(** The keys of the session record that [profile_extract_node] and
    [logger_node] read. *)
Record LoggerState : Type := {
  profile_extracted : bool;
  state_turn_id : Z;
  last_agent_message : option (list Z);
  state_user_message : list Z;
  state_internal_thoughts : list Z;
  state_agent_visible_message : list Z
}.

(** [logger_node]: the file after the call and the node's updates merged
    into the record. *)
Definition logger_node (state : LoggerState) (file : InterviewLog)
  : ValueError + (LoggerState * InterviewLog) :=
  let new_turn_id := state_turn_id state + 1 in
  let log_agent_message :=
    match last_agent_message state with
    | Some m => m
    | None => []
    end in
  let agent_msg := normalize_text (Some log_agent_message) 2000 in
  let user_msg := normalize_text (Some (state_user_message state)) 4000 in
  let internal :=
    match normalize_text (Some (state_internal_thoughts state)) 4000 with
    | [] => [32]
    | text => text
    end in
  match append_turn file new_turn_id agent_msg user_msg internal with
  | inl e => inl e
  | inr file =>
      inr ({| profile_extracted := profile_extracted state;
              state_turn_id := new_turn_id;
              last_agent_message := Some (state_agent_visible_message state);
              state_user_message := state_user_message state;
              state_internal_thoughts := state_internal_thoughts state;
              state_agent_visible_message := state_agent_visible_message state |},
           file)
  end.

(** [profile_extract_node], [extracted] being the profile the extractor
    returns: the file after the call and the node's update of the
    [profile_extracted] key. *)
Definition profile_extract_node (state : LoggerState) (file : InterviewLog)
    (extracted : pydict) : ValueError + (LoggerState * InterviewLog) :=
  if profile_extracted state then inr (state, file)
  else if negb (state_turn_id state =? -1) then inr (state, file)
  else
    match strip (state_user_message state) with
    | [] => inr (state, file)
    | _ =>
        match set_candidate_profile file extracted with
        | inl e => inl e
        | inr file =>
            inr ({| profile_extracted := true;
                    state_turn_id := state_turn_id state;
                    last_agent_message := last_agent_message state;
                    state_user_message := state_user_message state;
                    state_internal_thoughts := state_internal_thoughts state;
                    state_agent_visible_message := state_agent_visible_message state |},
                 file)
        end
    end.

(** What a turn brings to the two nodes: the candidate's message, the
    profile the extractor would return, and the thoughts and the
    interviewer's message of the turn. *)
Record Logged : Type := {
  logged_user_message : list Z;
  logged_profile : pydict;
  logged_internal_thoughts : list Z;
  logged_agent_visible_message : list Z
}.

(** The turns of a session as the two nodes see them: the candidate's message
    is set, [profile_extract_node] runs, the turn sets the thoughts and the
    interviewer's message, and [logger_node] runs; an exception ends the
    session. *)
Fixpoint log_session (state : LoggerState) (file : InterviewLog) (inputs : list Logged)
  : ValueError + (LoggerState * InterviewLog) :=
  match inputs with
  | [] => inr (state, file)
  | input :: rest =>
      let state :=
        {| profile_extracted := profile_extracted state;
           state_turn_id := state_turn_id state;
           last_agent_message := last_agent_message state;
           state_user_message := logged_user_message input;
           state_internal_thoughts := state_internal_thoughts state;
           state_agent_visible_message := state_agent_visible_message state |} in
      match profile_extract_node state file (logged_profile input) with
      | inl e => inl e
      | inr (state, file) =>
          let state :=
            {| profile_extracted := profile_extracted state;
               state_turn_id := state_turn_id state;
               last_agent_message := last_agent_message state;
               state_user_message := state_user_message state;
               state_internal_thoughts := logged_internal_thoughts input;
               state_agent_visible_message := logged_agent_visible_message input |} in
          match logger_node state file with
          | inl e => inl e
          | inr (state, file) => log_session state file rest
          end
      end
  end.

(** The file [init_log] creates and the record [main] starts with, the
    greeting being the agent's message of the first turn. *)
Definition empty_log (candidate_profile_ : pydict) : InterviewLog :=
  {| participant_name := DEFAULT_PARTICIPANT_NAME;
     candidate_profile := candidate_profile_;
     turns := [];
     final_feedback := PNone |}.

Definition first_state (greeting : list Z) : LoggerState :=
  {| profile_extracted := false;
     state_turn_id := -1;
     last_agent_message := Some greeting;
     state_user_message := [];
     state_internal_thoughts := [];
     state_agent_visible_message := [] |}.

(** A text with a visible character. *)
Definition visible (text : list Z) : Prop := strip text <> [].

(** The turn [logger_node] writes. *)
Definition logged_turn (state : LoggerState) : TurnLog :=
  {| turn_id := state_turn_id state + 1;
     agent_visible_message :=
       normalize_text (Some (default [] (last_agent_message state))) 2000;
     user_message := normalize_text (Some (state_user_message state)) 4000;
     internal_thoughts := normalize_text (Some (state_internal_thoughts state)) 4000 |}.

End InterviewLogger.

(** ** app/policies/fallbacks.py: the evaluator's output when the model fails *)

Module Fallbacks.

Import Py State Schemas.
Local Open Scope string_scope.
Local Open Scope Z_scope.

(** [fallback_observer], validated: what [run_observer] returns when the
    call fails. *)
Definition fallback_observer (topic_state : TopicState) : ObserverOutput :=
  let topic :=
    match given (current_topic topic_state) with
    | Some t => t
    | None => "general"
    end in
  {| summary := "Fallback observer: no LLM available.";
     answer_quality := [("correctness", PStr "unknown"); ("confidence", PStr "low")];
     detected_claims := [];
     skill_updates := [];
     difficulty_delta := -1;
     next_action :=
       {| na_type := "clarify";
          na_topic := topic;
          na_instruction_to_interviewer :=
            "Уточни базовые понятия и задай простой вопрос." |};
     robustness :=
       {| off_topic := false;
          role_reversal := false;
          hallucination_claim := false;
          evasive := false |} |}.

End Fallbacks.

(** ** app/memory/skills.py: a topic's own updates *)

Module SkillsView.

Import Py Skills.

(** The updates that name [topic], in order. *)
Definition own_updates (topic : string) (updates : list Update) : list Update :=
  List.filter (fun item => bool_decide (given (item_topic item) = Some topic)) updates.

(** The entry a topic starts from: its entry in the matrix, or the default
    of the loop. *)
Definition prior_entry (skill_matrix : gmap string Entry) (topic : string) : Entry :=
  default {| status := None; evidence := [] |} (skill_matrix !! topic).

End SkillsView.

(** ** Sample inputs *)

Module Samples.

Import Py StructuredCall State Session Fallbacks.
Local Open Scope string_scope.
Local Open Scope Z_scope.

(** A parser that accepts the empty object only. *)
Definition loads_empty_object (s : string) : option unit :=
  if String.eqb s "{}" then Some tt else None.

(** A schema of one value. *)
Definition unit_schema : Schema unit unit :=
  {| model_validate := fun _ : unit => Some tt; schema_json := "{}" |}.

(** A first turn in which the evaluator's model fails. *)
Definition failed_first_turn : TurnInput :=
  {| candidate_message := "I am a junior Python developer.";
     observer_output := fallback_observer (topic_state initial_state);
     observer_thoughts := "[Observer]: Fallback observer: no LLM available.";
     interviewer_output :=
       {| agent_visible_message := "What is the difference between a list and a tuple?";
          meta_topic := "python_types";
          meta_intent := "ask";
          meta_difficulty := 1 |} |}.

(** A record in which a topic is confirmed. *)
Definition seasoned_state : SessionState :=
  {| user_message := Some "";
     history := [];
     observer_json := None;
     skill_matrix :=
       {[ "python_types" := {| Skills.status := Some "confirmed";
                               Skills.evidence := ["explained tuples"] |} ]};
     internal_thoughts := "";
     route := Some "normal";
     action_type := None;
     difficulty := 2;
     topic_state := {| current_topic := Some "python_types";
                       last_topics := ["python_types"];
                       coverage := {[ "python_types" := 1 ]};
                       last_prompts_hashes := [] |};
     asked_questions := ["py_types_1"];
     planned_question := None;
     last_question_id := Some "py_types_1" |}.

(** A record after two turns on the same topic. *)
Definition settled_state : SessionState :=
  {| user_message := Some "";
     history := [];
     observer_json := None;
     skill_matrix := ∅;
     internal_thoughts := "";
     route := Some "normal";
     action_type := Some "ask";
     difficulty := 1;
     topic_state := {| current_topic := Some "git_basics";
                       last_topics := ["git_basics"; "git_basics"];
                       coverage := {[ "git_basics" := 2 ]};
                       last_prompts_hashes := [] |};
     asked_questions := [];
     planned_question := None;
     last_question_id := None |}.

End Samples.

(** * Properties *)

(** ** Difficulty adaptation *)

Module AdaptabilityFacts.

Import Adaptability Spec.
Local Open Scope Z_scope.

Lemma clamp_bounds x lo hi : lo <= hi -> lo <= clamp x lo hi <= hi.
Proof.
  intros Hle. unfold clamp.
  destruct (x <? lo) eqn:E1; [lia|].
  destruct (hi <? x) eqn:E2; lia.
Qed.

(** Claim C2. For a base difficulty in [1,5] and a delta in [-2,2],
    [apply_difficulty] returns [clamp (b + d) 1 5]; the result lies in
    [1,5]; at the two corners, [apply_difficulty 1 (-2) = 1] and
    [apply_difficulty 5 2 = 5]. *)
Theorem apply_difficulty_clamps (b d : Z) :
  1 <= b <= 5 -> -2 <= d <= 2 ->
  apply_difficulty b d = clamp (b + d) 1 5
  /\ 1 <= apply_difficulty b d <= 5
  /\ apply_difficulty 1 (-2) = 1
  /\ apply_difficulty 5 2 = 5.
Proof.
  intros Hb Hd.
  assert (Heq : apply_difficulty b d = clamp (b + d) 1 5).
  { unfold apply_difficulty, clamp.
    destruct (b =? 0) eqn:Eb; [lia|].
    assert (Hdv : (if d =? 0 then 0 else d) = d) by (destruct (d =? 0) eqn:Ed; lia).
    rewrite Hdv.
    destruct (b + d <? 1) eqn:E1; [lia|].
    destruct (5 <? b + d) eqn:E2; lia. }
  split; [exact Heq|]. split.
  - rewrite Heq. apply clamp_bounds. lia.
  - split; reflexivity.
Qed.

Lemma apply_difficulty_clamps_witness :
  apply_difficulty 4 2 = clamp (4 + 2) 1 5
  /\ 1 <= apply_difficulty 4 2 <= 5
  /\ apply_difficulty 1 (-2) = 1
  /\ apply_difficulty 5 2 = 5.
Proof. apply (apply_difficulty_clamps 4 2); lia. Defined.

(** Whatever the arguments, the result is a difficulty. *)
Lemma apply_difficulty_range (b d : Z) : 1 <= apply_difficulty b d <= 5.
Proof. unfold apply_difficulty. lia. Qed.

Lemma decide_action_type_cases (oj : pyval) (prev : option string) :
  decide_action_type oj prev =
    if robustness_flag oj "off_topic" then "refocus"
    else if robustness_flag oj "role_reversal" then "answer_candidate"
    else if low_or_incorrect (quality_signal oj "correctness")
            || low_confidence (quality_signal oj "confidence") then "simplify"
    else if partial_or_mixed (quality_signal oj "correctness") then "clarify"
    else if bool_decide (prev = Some "simplify") then "hint"
    else "ask".
Proof.
  unfold decide_action_type, robustness_flag, quality_signal,
    low_or_incorrect, low_confidence, partial_or_mixed.
  destruct oj as [| | | | | |oj]; simpl; try reflexivity.
  destruct (get_or oj "robustness" (PDict [])) as [| | | | | |r]; simpl;
    destruct (get_or oj "answer_quality" (PDict [])) as [| | | | | |aq]; simpl;
    reflexivity.
Qed.

(** Claim C4. [decide_action_type] returns one of the six action types,
    chosen by the first condition that holds, in this order: off-topic flag,
    role-reversal flag, low or incorrect correctness or low confidence,
    partial or mixed correctness, previous action "simplify"; else "ask". *)
Theorem decide_action_type_priority (oj : pyval) (prev : option string) :
  let r := decide_action_type oj prev in
  let off := robustness_flag oj "off_topic" in
  let rev := robustness_flag oj "role_reversal" in
  let weak := low_or_incorrect (quality_signal oj "correctness")
              || low_confidence (quality_signal oj "confidence") in
  let part := partial_or_mixed (quality_signal oj "correctness") in
  In r ["refocus"; "answer_candidate"; "simplify"; "clarify"; "hint"; "ask"]
  /\ (off = true -> r = "refocus")
  /\ (off = false -> rev = true -> r = "answer_candidate")
  /\ (off = false -> rev = false -> weak = true -> r = "simplify")
  /\ (off = false -> rev = false -> weak = false -> part = true -> r = "clarify")
  /\ (off = false -> rev = false -> weak = false -> part = false ->
        prev = Some "simplify" -> r = "hint")
  /\ (off = false -> rev = false -> weak = false -> part = false ->
        prev <> Some "simplify" -> r = "ask").
Proof.
  cbv zeta. rewrite decide_action_type_cases.
  destruct (robustness_flag oj "off_topic");
    [simpl; intuition congruence|].
  destruct (robustness_flag oj "role_reversal");
    [simpl; intuition congruence|].
  destruct (low_or_incorrect _ || low_confidence _);
    [simpl; intuition congruence|].
  destruct (partial_or_mixed _);
    [simpl; intuition congruence|].
  case_bool_decide; simpl; intuition congruence.
Qed.

Lemma decide_action_type_priority_witness :
  decide_action_type
    (PDict [ ("robustness", PDict [ ("off_topic", PBool false);
                                    ("role_reversal", PBool false) ]);
             ("answer_quality", PDict [ ("correctness", PStr "partial");
                                        ("confidence", PStr "high") ]) ])
    (Some "simplify") = "clarify".
Proof.
  pose proof (decide_action_type_priority
                (PDict [ ("robustness", PDict [ ("off_topic", PBool false);
                                                ("role_reversal", PBool false) ]);
                         ("answer_quality", PDict [ ("correctness", PStr "partial");
                                                    ("confidence", PStr "high") ]) ])
                (Some "simplify")) as H.
  cbv zeta in H. destruct H as (_ & _ & _ & _ & H & _).
  apply H; reflexivity.
Defined.

(** On the dump of a validated observer output the two flags are the
    booleans of its robustness block and the signals are the entries of its
    answer-quality mapping. *)
Lemma decide_action_type_observer (o : Schemas.ObserverOutput) (prev : option string) :
  decide_action_type (Schemas.model_dump o) prev =
    if Schemas.off_topic (Schemas.robustness o) then "refocus"
    else if Schemas.role_reversal (Schemas.robustness o) then "answer_candidate"
    else if low_or_incorrect (get (Schemas.answer_quality o) "correctness")
            || low_confidence (get (Schemas.answer_quality o) "confidence") then "simplify"
    else if partial_or_mixed (get (Schemas.answer_quality o) "correctness") then "clarify"
    else if bool_decide (prev = Some "simplify") then "hint"
    else "ask".
Proof. rewrite decide_action_type_cases. reflexivity. Qed.

End AdaptabilityFacts.

(** ** Route selection and the action type of the policy update *)

Module RouterFacts.

Import Router Nodes State.
Local Open Scope list_scope.

Lemma is_special_spec (s : string) :
  is_special s = true <-> In s ["answer_candidate"; "refocus"; "hallucination"].
Proof.
  unfold is_special. rewrite !orb_true_iff, !String.eqb_eq. simpl. intuition.
Qed.

(** When the stored route is one of the three special routes, the policy
    update records it as the action type. *)
Lemma policy_update_action_special (hash : string -> string) (st : InterviewState)
    (r : string) :
  route st = Some r -> is_special r = true ->
  new_action_type (policy_update_node hash st) = r.
Proof.
  intros Hr Hs. unfold policy_update_node. rewrite Hr.
  assert (Hne : given (Some r) = Some r).
  { unfold given. destruct (String.eqb r "") eqn:E; [|reflexivity].
    apply String.eqb_eq in E. subst r. discriminate. }
  rewrite Hne. cbv zeta. cbn [new_action_type]. rewrite Hs. reflexivity.
Qed.

(** Otherwise the action type is the action-type decision. *)
Lemma policy_update_action_normal (hash : string -> string) (st : InterviewState) :
  (forall r, route st = Some r -> is_special r = false) ->
  new_action_type (policy_update_node hash st) =
    Adaptability.decide_action_type
      match observer_json st with
      | Some o => Schemas.model_dump o
      | None => PDict []
      end (action_type st).
Proof.
  intros Hr. unfold policy_update_node.
  assert (Hs : is_special match given (route st) with Some r => r | None => "normal" end
               = false).
  { destruct (route st) as [r|] eqn:E; simpl; [|reflexivity].
    destruct (String.eqb r ""); [reflexivity|]. apply Hr. reflexivity. }
  cbv zeta. cbn [new_action_type]. rewrite Hs. reflexivity.
Qed.

(** Claim C3. [choose_route] returns one of the five routes by the priority
    stop, role reversal, hallucination claim, off topic, else normal; and
    when that route is answer_candidate, refocus or hallucination, the policy
    update run on a state holding it records the route as the action type. *)
Theorem choose_route_priority (hash : string -> string) (stop_requested : bool)
    (det : RobustnessDetection) :
  let r := choose_route stop_requested det in
  In r ["final"; "answer_candidate"; "hallucination"; "refocus"; "normal"]
  /\ (stop_requested = true -> r = "final")
  /\ (stop_requested = false -> role_reversal det = true -> r = "answer_candidate")
  /\ (stop_requested = false -> role_reversal det = false ->
        hallucination_claim det = true -> r = "hallucination")
  /\ (stop_requested = false -> role_reversal det = false ->
        hallucination_claim det = false -> off_topic det = true -> r = "refocus")
  /\ (stop_requested = false -> role_reversal det = false ->
        hallucination_claim det = false -> off_topic det = false -> r = "normal")
  /\ (forall st : InterviewState,
        route st = Some r ->
        In r ["answer_candidate"; "refocus"; "hallucination"] ->
        new_action_type (policy_update_node hash st) = r).
Proof.
  cbv zeta. repeat split.
  - unfold choose_route.
    destruct stop_requested, (role_reversal det), (hallucination_claim det),
      (off_topic det); simpl; tauto.
  - intros ->. reflexivity.
  - intros -> H. unfold choose_route. rewrite H. reflexivity.
  - intros -> H1 H2. unfold choose_route. rewrite H1, H2. reflexivity.
  - intros -> H1 H2 H3. unfold choose_route. rewrite H1, H2, H3. reflexivity.
  - intros -> H1 H2 H3. unfold choose_route. rewrite H1, H2, H3. reflexivity.
  - intros st Hr Hin. apply policy_update_action_special; [exact Hr|].
    apply is_special_spec. exact Hin.
Qed.

Lemma choose_route_priority_witness :
  let det := {| off_topic := true; role_reversal := false;
                hallucination_claim := false; evasive := false;
                reason := "off_topic keywords";
                candidate_question := None; suspicious_claim := None |} in
  let st := {| observer_json := None;
               action_type := Some "ask";
               route := Some (choose_route false det);
               difficulty := 2;
               topic_state := {| current_topic := None; last_topics := [];
                                 coverage := ∅; last_prompts_hashes := [] |};
               skill_matrix := ∅;
               asked_questions := [] |} in
  new_action_type (policy_update_node (fun prompt => prompt) st) = "refocus".
Proof.
  cbv zeta.
  pose proof (choose_route_priority (fun prompt => prompt) false
                {| off_topic := true; role_reversal := false;
                   hallucination_claim := false; evasive := false;
                   reason := "off_topic keywords";
                   candidate_question := None; suspicious_claim := None |}) as H.
  cbv zeta in H. destruct H as (_ & _ & _ & _ & _ & _ & H).
  apply H; [reflexivity|]. simpl. auto.
Defined.

End RouterFacts.

(** ** No-repeat question selection *)

Module SelectionFacts.

Import QuestionBank ContextGuard Nodes Spec State.
Local Open Scope Z_scope.

Lemma as_str_Some (v : pyval) (s : string) : as_str v = Some s -> v = PStr s.
Proof. destruct v; simpl; congruence. Qed.

Lemma first_unasked_Some (asked : gset string) (pool : list pydict) (q : pydict) :
  first_unasked asked pool = Some q -> In q pool /\ unasked asked q.
Proof.
  induction pool as [|c rest IH]; simpl; [discriminate|].
  destruct (as_str (get c "question_id")) as [qid|] eqn:E.
  - case_bool_decide as Hin.
    + intros H. destruct (IH H). auto.
    + intros [= <-]. split; [auto|]. exists qid. split; [|exact Hin].
      apply as_str_Some. exact E.
  - intros H. destruct (IH H). auto.
Qed.

Lemma first_unasked_None (asked : gset string) (pool : list pydict) :
  first_unasked asked pool = None <-> forall q, In q pool -> ~ unasked asked q.
Proof.
  induction pool as [|c rest IH]; simpl.
  - split; [intros _ q []|reflexivity].
  - destruct (as_str (get c "question_id")) as [qid|] eqn:E.
    + apply as_str_Some in E. case_bool_decide as Hin.
      * rewrite IH. split.
        -- intros H q [<-|Hq]; [|auto].
           intros (qid' & Hid & Hn). rewrite E in Hid. congruence.
        -- intros H q Hq. apply H. auto.
      * split; [discriminate|]. intros H. exfalso. apply (H c); [auto|].
        exists qid. auto.
    + rewrite IH. split.
      * intros H q [<-|Hq]; [|auto].
        intros (qid' & Hid & _). rewrite Hid in E. discriminate.
      * intros H q Hq. apply H. auto.
Qed.

(** Claim C5. A question returned by [pick_next_question] or by
    [enforce_no_repeat] has a question id outside the asked set. *)
Theorem selection_never_repeats (asked : gset string) (topic : option string)
    (difficulty : Z) (qtype : string) (chosen : option pydict)
    (fallback_pool : list pydict) (q : pydict) :
  pick_next_question asked topic difficulty qtype = Some q
  \/ enforce_no_repeat chosen asked fallback_pool = Some q ->
  exists qid : string, get q "question_id" = PStr qid /\ qid ∉ asked.
Proof.
  intros [H|H].
  - unfold pick_next_question in H. apply first_unasked_Some in H. apply H.
  - unfold enforce_no_repeat in H. destruct chosen as [c|].
    + destruct (as_str (get c "question_id")) as [qid|] eqn:E.
      * case_bool_decide as Hin.
        -- apply first_unasked_Some in H. apply H.
        -- injection H as <-. exists qid. split; [|exact Hin].
           apply as_str_Some. exact E.
      * apply first_unasked_Some in H. apply H.
    + apply first_unasked_Some in H. apply H.
Qed.

Lemma selection_never_repeats_witness :
  exists qid : string,
    get [ ("question_id", PStr "py_types_1_simplify");
          ("topic", PStr "python_types");
          ("difficulty", PInt 1);
          ("type", PStr "simplify");
          ("prompt", PStr "Чем list отличается от tuple?") ] "question_id" = PStr qid
    /\ qid ∉ ({["py_types_1"]} : gset string).
Proof.
  apply (selection_never_repeats {["py_types_1"]} (Some "python_types") 1 "simplify"
           None []).
  left. vm_compute. reflexivity.
Defined.

(** *** The relaxation of the filter in the policy update *)

Lemma get_candidates_bank (topic : option string) (difficulty : Z)
    (qtype : option string) (q : pydict) :
  In q (get_candidates topic difficulty qtype) -> In q QUESTION_BANK.
Proof.
  unfold get_candidates.
  destruct (given qtype); destruct (given topic);
    rewrite ?filter_In; tauto.
Qed.

Lemma get_candidates_level (level : Z) (q : pydict) :
  In q (get_candidates None level None) <->
  In q QUESTION_BANK /\ eq_int (get q "difficulty") level = true.
Proof. unfold get_candidates. simpl given. cbv iota. apply filter_In. Qed.

Lemma scan_levels_None (asked : gset string) (levels : list Z) :
  scan_levels asked levels = None <->
  forall level, In level levels ->
    first_unasked asked (get_candidates None level None) = None.
Proof.
  induction levels as [|l rest IH]; simpl.
  - split; [intros _ level []|reflexivity].
  - destruct (first_unasked asked (get_candidates None l None)) as [q|] eqn:E.
    + split; [discriminate|]. intros H. rewrite <- E. apply H. auto.
    + rewrite IH. split.
      * intros H level [<-|Hl]; [exact E|auto].
      * intros H level Hl. apply H. auto.
Qed.

Lemma scan_levels_Some (asked : gset string) (levels : list Z) (q : pydict) :
  scan_levels asked levels = Some q -> In q QUESTION_BANK /\ unasked asked q.
Proof.
  induction levels as [|l rest IH]; simpl; [discriminate|].
  destruct (first_unasked asked (get_candidates None l None)) as [q'|] eqn:E.
  - intros [= <-]. apply first_unasked_Some in E as [Hin Hu].
    split; [|exact Hu]. apply get_candidates_bank in Hin. exact Hin.
  - exact IH.
Qed.

(** Every question of the bank has a difficulty between 1 and 5. *)
Lemma bank_levels (q : pydict) :
  In q QUESTION_BANK ->
  exists level, In level [1; 2; 3; 4; 5] /\ eq_int (get q "difficulty") level = true.
Proof.
  assert (H : forallb (fun q => existsb (fun level => eq_int (get q "difficulty") level)
                                  [1; 2; 3; 4; 5]) QUESTION_BANK = true)
    by (vm_compute; reflexivity).
  rewrite forallb_forall in H. intros Hq. apply H in Hq.
  apply existsb_exists in Hq. exact Hq.
Qed.

Lemma same_level_pool_bank (difficulty : Z) (followup_type : string) (q : pydict) :
  In q (same_level_pool difficulty followup_type) -> In q QUESTION_BANK.
Proof.
  unfold same_level_pool.
  destruct (get_candidates None difficulty (Some followup_type)) as [|c rest] eqn:E.
  - apply get_candidates_bank.
  - rewrite <- E. apply get_candidates_bank.
Qed.

(** Claim C6, as the code has it. When the exact filter yields no unasked
    question, the selection first drops the topic, keeping the difficulty and
    the type (the type goes too only when the bank has no question of that
    difficulty and type), then scans the difficulties 1 to 5 in order without
    topic or type; it ends without a question only when every question of the
    bank has been asked. *)
Theorem relaxation_order (asked : gset string) (topic : string) (difficulty : Z)
    (followup_type : string) :
  pick_next_question asked (Some topic) difficulty followup_type = None ->
  plan_question asked topic difficulty followup_type =
    match first_unasked asked (same_level_pool difficulty followup_type) with
    | Some q => Some q
    | None => scan_levels asked [1; 2; 3; 4; 5]
    end
  /\ (plan_question asked topic difficulty followup_type = None <->
       forall q, In q QUESTION_BANK -> ~ unasked asked q).
Proof.
  intros Hexact.
  assert (Heq : plan_question asked topic difficulty followup_type =
                match first_unasked asked (same_level_pool difficulty followup_type) with
                | Some q => Some q
                | None => scan_levels asked [1; 2; 3; 4; 5]
                end).
  { unfold plan_question, same_level_pool. rewrite Hexact. simpl enforce_no_repeat.
    reflexivity. }
  split; [exact Heq|]. rewrite Heq. split.
  - intros H q Hq.
    destruct (first_unasked asked (same_level_pool difficulty followup_type));
      [discriminate|].
    destruct (bank_levels q Hq) as (level & Hl & Hd).
    rewrite scan_levels_None in H. specialize (H level Hl).
    rewrite first_unasked_None in H. apply H. apply get_candidates_level. auto.
  - intros H.
    destruct (first_unasked asked (same_level_pool difficulty followup_type)) as [q|] eqn:E.
    + apply first_unasked_Some in E as [Hin Hu]. exfalso.
      apply (H q); [|exact Hu]. apply same_level_pool_bank in Hin. exact Hin.
    + apply scan_levels_None. intros level _. apply first_unasked_None.
      intros q Hq. apply H. apply get_candidates_bank in Hq. exact Hq.
Qed.

Lemma relaxation_order_witness :
  let asked : gset string := {["py_types_1"]} in
  plan_question asked "python_types" 1 "ask" =
    match first_unasked asked (same_level_pool 1 "ask") with
    | Some q => Some q
    | None => scan_levels asked [1; 2; 3; 4; 5]
    end
  /\ (plan_question asked "python_types" 1 "ask" = None <->
       forall q, In q QUESTION_BANK -> ~ unasked asked q).
Proof.
  apply (relaxation_order {["py_types_1"]} "python_types" 1 "ask").
  vm_compute. reflexivity.
Defined.

(** With only [py_types_1] asked, topic python_types, difficulty 1 and type
    "ask": the exact filter is exhausted; dropping the type first would give
    [py_types_1_simplify]; the selection gives [sql_join_1]. *)
Lemma relaxation_order_counterexample :
  let asked : gset string := {["py_types_1"]} in
  let id_of := option_map (fun q : pydict => get q "question_id") in
  pick_next_question asked (Some "python_types") 1 "ask" = None
  /\ id_of (relaxation_as_specified asked "python_types" 1 "ask")
       = Some (PStr "py_types_1_simplify")
  /\ id_of (plan_question asked "python_types" 1 "ask") = Some (PStr "sql_join_1")
  /\ plan_question asked "python_types" 1 "ask"
       <> relaxation_as_specified asked "python_types" 1 "ask".
Proof.
  cbv zeta. split; [vm_compute; reflexivity|].
  split; [vm_compute; reflexivity|].
  split; [vm_compute; reflexivity|].
  intros H.
  apply (f_equal (option_map (fun q : pydict => get q "question_id"))) in H.
  vm_compute in H. discriminate H.
Qed.

(** The selection never plans an asked question. *)
Lemma plan_question_unasked (asked : gset string) (topic : string) (difficulty : Z)
    (followup_type : string) (q : pydict) :
  plan_question asked topic difficulty followup_type = Some q -> unasked asked q.
Proof.
  unfold plan_question.
  destruct (pick_next_question asked (Some topic) difficulty followup_type) as [q'|] eqn:E.
  - intros [= <-]. unfold pick_next_question in E.
    apply first_unasked_Some in E. apply E.
  - simpl enforce_no_repeat.
    destruct (first_unasked asked _) as [q'|] eqn:E'.
    + intros [= <-]. apply first_unasked_Some in E'. apply E'.
    + intros H. apply scan_levels_Some in H. apply H.
Qed.

Section WithHash.

Variable _hash_prompt : string -> string.

(** The question the policy update plans is never an asked one. *)
Lemma policy_update_never_repeats (st : InterviewState) (q : pydict) :
  planned_question (policy_update_node _hash_prompt st) = Some q ->
  unasked (list_to_set (asked_questions st)) q.
Proof.
  unfold policy_update_node. cbv zeta. cbn [planned_question].
  match goal with
  | |- context [plan_question ?a ?t ?d ?f] =>
      set (asked := a); set (topic := t); set (level := d); set (ftype := f);
      destruct (plan_question asked topic level ftype) as [q0|] eqn:Hplan
  end; [|discriminate].
  pose proof (plan_question_unasked _ _ _ _ _ Hplan) as Hq0.
  destruct q0 as [|kv rest]; [intros [= <-]; exact Hq0|].
  destruct (as_str (get (kv :: rest) "prompt")) as [prompt|];
    [|intros [= <-]; exact Hq0].
  destruct (Controls.detect_loop _hash_prompt (topic_state st) prompt) as [ts looped].
  destruct looped; cbn [snd]; [|intros [= <-]; exact Hq0].
  intros Hpick. unfold pick_next_question in Hpick.
  apply first_unasked_Some in Hpick. apply Hpick.
Qed.

Lemma policy_update_difficulty (st : InterviewState) :
  1 <= new_difficulty (policy_update_node _hash_prompt st) <= 5.
Proof. apply AdaptabilityFacts.apply_difficulty_range. Qed.

End WithHash.

(** The relaxation seen from the step: python_types is the ranked topic (a
    gap), [py_types_1] is asked, nothing calls for a special route; whatever
    the hash, the step plans [sql_join_1]. *)
Example policy_update_relaxation (hash : string -> string) :
  let st := {| observer_json := None;
               action_type := None;
               route := Some "normal";
               difficulty := 1;
               topic_state := {| current_topic := None; last_topics := [];
                                 coverage := ∅; last_prompts_hashes := [] |};
               skill_matrix := {["python_types" := {| Skills.status := Some "gap";
                                                      Skills.evidence := [] |}]};
               asked_questions := ["py_types_1"] |} in
  current_topic (new_topic_state (policy_update_node hash st)) = Some "python_types"
  /\ option_map (fun q : pydict => get q "question_id")
       (planned_question (policy_update_node hash st)) = Some (PStr "sql_join_1").
Proof. cbv zeta. split; vm_compute; reflexivity. Qed.

End SelectionFacts.

(** ** Loop detection and loop breaking *)

Module LoopFacts.

Import QuestionBank ContextGuard State TopicManager Controls.
Local Open Scope list_scope.

Section Lists.

Context {A : Type}.

Lemma last_n_app_exact (n : nat) (pre s : list A) :
  length s = n -> Str.last_n n (pre ++ s) = s.
Proof.
  intros <-. unfold Str.last_n. rewrite length_app.
  replace (length pre + length s - length s) with (length pre) by lia.
  apply drop_app_length.
Qed.

Lemma last_n_suffix (n : nat) (l : list A) : exists pre, l = pre ++ Str.last_n n l.
Proof.
  exists (take (length l - n) l). unfold Str.last_n.
  symmetry. apply take_drop.
Qed.

Lemma last_n_length (n : nat) (l : list A) : length (Str.last_n n l) <= n.
Proof. unfold Str.last_n. rewrite length_drop. lia. Qed.

Lemma last_n_app (k n : nat) (pre s : list A) :
  n = k + length s -> Str.last_n n (pre ++ s) = Str.last_n k pre ++ s.
Proof.
  intros ->. unfold Str.last_n. rewrite length_app.
  replace (length pre + length s - (k + length s)) with (length pre - k) by lia.
  apply drop_app_le. lia.
Qed.

Lemma three_at_end (l : list A) :
  3 <= length l -> exists pre a b c, l = pre ++ [a; b; c].
Proof.
  intros Hlen. rewrite <- (rev_involutive l) in *. rewrite length_rev in Hlen.
  destruct (rev l) as [|c [|b [|a r]]]; simpl in Hlen; try lia.
  exists (rev r), a, b, c. simpl. rewrite <- !app_assoc. reflexivity.
Qed.

End Lists.

Lemma one_distinct_of_three (a b c : string) :
  length (remove_dups [a; b; c]) = 1 <-> a = b /\ b = c.
Proof.
  simpl. repeat case_decide; simpl; set_unfold; intuition (congruence || lia).
Qed.

Section WithHash.

Variable _hash_prompt : string -> string.

(** [detect_loop] answers by the last three recorded hashes. *)
Lemma detect_loop_result (ts : TopicState) (prompt : string) :
  snd (detect_loop _hash_prompt ts prompt) = true <->
  exists pre h, last_prompts_hashes ts ++ [_hash_prompt prompt] = pre ++ [h; h; h].
Proof.
  unfold detect_loop. cbn [snd].
  set (recorded := last_prompts_hashes ts ++ [_hash_prompt prompt]).
  rewrite andb_true_iff, Nat.leb_le, Nat.eqb_eq. split.
  - intros [Hlen Hone].
    destruct (three_at_end recorded Hlen) as (pre & a & b & c & Heq).
    rewrite Heq in Hone.
    rewrite (last_n_app_exact 3 pre [a; b; c] eq_refl) in Hone.
    apply one_distinct_of_three in Hone as [-> ->].
    exists pre, c. exact Heq.
  - intros (pre & h & Heq). rewrite Heq. split.
    + rewrite length_app. simpl. lia.
    + rewrite (last_n_app_exact 3 pre [h; h; h] eq_refl).
      apply one_distinct_of_three. auto.
Qed.

(** Claim C7. [detect_loop] appends the hash of the new prompt to the ring
    of the topic state and keeps the last five entries, so the ring never
    holds more than five; it answers true exactly when at least three hashes
    are recorded and the last three are identical (read on the recorded
    hashes or on the new ring); two identical hashes alone, or two preceded
    by a different one, declare no loop; the other fields are untouched. *)
Theorem detect_loop_ring (ts : TopicState) (prompt : string) :
  let recorded := last_prompts_hashes ts ++ [_hash_prompt prompt] in
  let ts' := fst (detect_loop _hash_prompt ts prompt) in
  let looped := snd (detect_loop _hash_prompt ts prompt) in
  last_prompts_hashes ts' = Str.last_n 5 recorded
  /\ last (last_prompts_hashes ts') = Some (_hash_prompt prompt)
  /\ length (last_prompts_hashes ts') <= 5
  /\ (looped = true <->
       3 <= length recorded /\ exists h, Str.last_n 3 recorded = [h; h; h])
  /\ (looped = true <-> exists pre h, last_prompts_hashes ts' = pre ++ [h; h; h])
  /\ (forall h, recorded = [h; h] -> looped = false)
  /\ (forall pre x h, x <> h -> recorded = pre ++ [x; h; h] -> looped = false)
  /\ current_topic ts' = current_topic ts
  /\ last_topics ts' = last_topics ts
  /\ coverage ts' = coverage ts.
Proof.
  cbv zeta.
  pose proof (detect_loop_result ts prompt) as Hres.
  set (looped := snd (detect_loop _hash_prompt ts prompt)) in *.
  set (recorded := last_prompts_hashes ts ++ [_hash_prompt prompt]) in *.
  assert (Hring : last_prompts_hashes (fst (detect_loop _hash_prompt ts prompt))
                  = Str.last_n 5 recorded) by reflexivity.
  rewrite Hring.
  split; [reflexivity|]. split.
  { unfold recorded. rewrite (last_n_app 4 5 _ [_hash_prompt prompt] eq_refl).
    apply last_snoc. }
  split; [apply last_n_length|]. split.
  { rewrite Hres. split.
    - intros (pre & h & Heq). rewrite Heq. split.
      + rewrite length_app. simpl. lia.
      + exists h. apply (last_n_app_exact 3 pre [h; h; h] eq_refl).
    - intros [_ [h Hh]]. destruct (last_n_suffix 3 recorded) as [pre Hpre].
      exists pre, h. rewrite <- Hh. exact Hpre. }
  split.
  { rewrite Hres. split.
    - intros (pre & h & Heq). rewrite Heq.
      exists (Str.last_n 2 pre), h.
      apply (last_n_app 2 5 pre [h; h; h] eq_refl).
    - intros (pre & h & Heq). destruct (last_n_suffix 5 recorded) as [pre' Hpre'].
      exists (pre' ++ pre), h. rewrite <- app_assoc, <- Heq. exact Hpre'. }
  split.
  { intros h Heq. destruct looped eqn:E; [|reflexivity].
    destruct Hres as [Hres _]. destruct (Hres eq_refl) as (pre & x & Hx).
    rewrite Heq in Hx. apply (f_equal length) in Hx.
    rewrite length_app in Hx. simpl in Hx. lia. }
  split.
  { intros pre x h Hne Heq. destruct looped eqn:E; [|reflexivity].
    destruct Hres as [Hres _]. destruct (Hres eq_refl) as (pre' & y & Hy).
    rewrite Heq in Hy.
    apply (f_equal (Str.last_n 3)) in Hy.
    rewrite (last_n_app_exact 3 pre [x; h; h] eq_refl) in Hy.
    rewrite (last_n_app_exact 3 pre' [y; y; y] eq_refl) in Hy.
    congruence. }
  repeat split.
Qed.

(** The loop guard leaves the topic ranking's inputs alone: breaking the
    loop asks the ranking the question it was asked before. *)
Lemma break_loop_after_detect (skill_matrix : gmap string Skills.Entry)
    (ts : TopicState) (prompt : string) :
  break_loop skill_matrix (fst (detect_loop _hash_prompt ts prompt))
  = select_next_topic skill_matrix ts.
Proof. reflexivity. Qed.

End WithHash.

Lemma detect_loop_ring_witness :
  let ts := {| current_topic := Some "git_basics"; last_topics := ["git_basics"];
               coverage := ∅; last_prompts_hashes := ["0a4d"] |} in
  snd (detect_loop (fun _ => "0a4d") ts "Что делает команда git rebase?") = false.
Proof.
  cbv zeta.
  pose proof (detect_loop_ring (fun _ => "0a4d")
                {| current_topic := Some "git_basics"; last_topics := ["git_basics"];
                   coverage := ∅; last_prompts_hashes := ["0a4d"] |}
                "Что делает команда git rebase?") as H.
  cbv zeta in H. destruct H as (_ & _ & _ & _ & _ & H & _).
  apply (H "0a4d"). reflexivity.
Defined.

Lemma insert_by_key_In (x y : Z * string) (l : list (Z * string)) :
  In y (insert_by_key x l) <-> y = x \/ In y l.
Proof.
  induction l as [|z rest IH]; simpl; [intuition|].
  destruct (fst x <=? fst z)%Z; simpl; [intuition|].
  rewrite IH. intuition.
Qed.

Lemma sort_by_key_In (y : Z * string) (l : list (Z * string)) :
  In y (sort_by_key l) <-> In y l.
Proof.
  induction l as [|x rest IH]; simpl; [reflexivity|].
  rewrite insert_by_key_In, IH. intuition.
Qed.

Lemma should_switch_topic_repeat (pre : list string) (t : string)
    (available : list string) (alt : string) :
  In alt available -> alt <> t ->
  should_switch_topic (pre ++ [t; t]) available = true.
Proof.
  intros Halt Hne. unfold should_switch_topic. rewrite rev_app_distr. simpl.
  rewrite String.eqb_refl. simpl. apply existsb_exists.
  exists alt. split; [exact Halt|].
  apply negb_true_iff, String.eqb_neq. exact Hne.
Qed.

(** Claim C8, as the code has it. Breaking a loop is the topic ranking
    itself; when the two most recent topics of the topic history are the same
    topic [t] and the pool has another topic, the topic it returns differs
    from [t]. *)
Theorem break_loop_switches (skill_matrix : gmap string Skills.Entry)
    (ts : TopicState) (pre : list string) (t : string) :
  last_topics ts = pre ++ [t; t] ->
  (exists alt, In alt get_all_topics /\ alt <> t) ->
  break_loop skill_matrix ts = select_next_topic skill_matrix ts
  /\ break_loop skill_matrix ts <> t.
Proof.
  intros Hlast (alt & Halt & Hne). split; [reflexivity|].
  unfold break_loop, select_next_topic. rewrite Hlast.
  pose proof (should_switch_topic_repeat pre t get_all_topics alt Halt Hne) as Hsw.
  cbv zeta. rewrite Hsw.
  replace (last (pre ++ [t; t])) with (Some t)
    by (rewrite last_app_cons; reflexivity).
  match goal with
  | |- context [List.find ?f ?l] => destruct (List.find f l) as [[p topic]|] eqn:E
  end.
  - apply find_some in E as [_ E]. simpl in E.
    apply negb_true_iff, String.eqb_neq in E. exact E.
  - exfalso.
    match type of E with
    | List.find ?f (sort_by_key ?l) = None =>
        assert (Hin : exists p, In (p, alt) (sort_by_key l))
    end.
    { eexists. apply sort_by_key_In. apply in_map_iff.
      exists alt. split; [reflexivity|exact Halt]. }
    destruct Hin as [p Hin].
    apply (find_none _ _ E) in Hin. simpl in Hin.
    apply negb_false_iff, String.eqb_eq in Hin. contradiction.
Qed.

Lemma break_loop_switches_witness :
  let ts := {| current_topic := Some "git_basics";
               last_topics := ["git_basics"; "git_basics"];
               coverage := ∅;
               last_prompts_hashes := [] |} in
  break_loop ∅ ts = select_next_topic ∅ ts /\ break_loop ∅ ts <> "git_basics".
Proof.
  apply (break_loop_switches ∅ _ [] "git_basics").
  - reflexivity.
  - exists "sql_joins". split; [vm_compute; auto 10|discriminate].
Defined.

(** A topic state whose last three prompt hashes are identical (a loop is
    declared) and whose current topic is git_basics; the pool has five other
    topics; breaking the loop returns git_basics. *)
Lemma break_loop_counterexample :
  let ts := {| current_topic := Some "git_basics";
               last_topics := ["git_basics"];
               coverage := {["git_basics" := 1%Z]};
               last_prompts_hashes := ["h"; "h"; "h"] |} in
  (exists alt, In alt get_all_topics /\ Some alt <> current_topic ts)
  /\ Some (break_loop ∅ ts) = current_topic ts.
Proof.
  cbv zeta. split.
  - exists "sql_joins". split; [vm_compute; auto 10|discriminate].
  - vm_compute. reflexivity.
Qed.

End LoopFacts.

(** ** The skill matrix *)

Module SkillsFacts.

Import Skills.
Local Open Scope list_scope.

Lemma apply_one_eq (m : gmap string Entry) (item : Update) :
  apply_one m item =
    match given (item_topic item) with
    | None => m
    | Some topic =>
        <[topic := updated_entry
                     (default {| status := None; evidence := [] |} (m !! topic)) item]> m
    end.
Proof. reflexivity. Qed.

Lemma updated_entry_confirmed (entry : Entry) (item : Update) :
  status entry = Some "confirmed" ->
  status (updated_entry entry item) = Some "confirmed".
Proof.
  intros Hc. unfold updated_entry. cbn [status]. rewrite Hc.
  rewrite bool_decide_eq_true_2 by reflexivity. cbn [andb].
  case_bool_decide as Hs; cbn [negb]; [|reflexivity].
  rewrite Hs. reflexivity.
Qed.

Lemma apply_one_other (m : gmap string Entry) (item : Update) (t : string) :
  given (item_topic item) <> Some t -> apply_one m item !! t = m !! t.
Proof.
  intros Hne. rewrite apply_one_eq. destruct (given (item_topic item)) as [t'|];
    [|reflexivity].
  apply lookup_insert_ne. congruence.
Qed.

Lemma apply_one_same (m : gmap string Entry) (item : Update) (t : string) :
  given (item_topic item) = Some t ->
  apply_one m item !! t =
    Some (updated_entry (default {| status := None; evidence := [] |} (m !! t)) item).
Proof. intros Ht. rewrite apply_one_eq, Ht. apply lookup_insert_eq. Qed.

Lemma apply_skill_updates_confirmed (updates : list Update) (m : gmap string Entry)
    (t : string) (e : Entry) :
  m !! t = Some e -> status e = Some "confirmed" ->
  exists e', apply_skill_updates m updates !! t = Some e'
             /\ status e' = Some "confirmed"
             /\ evidence e' = evidence e ++ added_evidence t updates.
Proof.
  revert m e. induction updates as [|item rest IH]; intros m e Hm Hc.
  - exists e. simpl. rewrite app_nil_r. auto.
  - unfold apply_skill_updates. cbn [fold_left].
    fold (apply_skill_updates (apply_one m item) rest).
    unfold added_evidence. cbn [omap list_omap]. fold (added_evidence t rest).
    case_bool_decide as Ht.
    + pose proof (apply_one_same m item t Ht) as Hsame. rewrite Hm in Hsame.
      cbn [default from_option id] in Hsame.
      destruct (IH _ _ Hsame (updated_entry_confirmed e item Hc)) as (e' & He' & Hs' & Hev).
      exists e'. split; [exact He'|]. split; [exact Hs'|].
      rewrite Hev. unfold updated_entry. cbn [evidence].
      destruct (given (item_evidence item)) as [ev|].
      * rewrite <- app_assoc. reflexivity.
      * reflexivity.
    + pose proof (apply_one_other m item t Ht) as Hother. rewrite Hm in Hother.
      destruct (IH _ _ Hother Hc) as (e' & He' & Hs' & Hev).
      exists e'. auto.
Qed.

(** Claim C9. Once a topic's status is "confirmed", it is "confirmed" after
    any sequence of updates, in particular after updates whose status is not
    "confirmed"; the evidence of every update of that topic is appended, in
    order, to its evidence list; and an update of a topic without an entry
    creates the entry from an empty evidence list. *)
Theorem confirmed_is_monotonic (m : gmap string Entry) (updates : list Update)
    (t : string) (e : Entry) :
  m !! t = Some e -> status e = Some "confirmed" ->
  (exists e', apply_skill_updates m updates !! t = Some e'
              /\ status e' = Some "confirmed"
              /\ evidence e' = evidence e ++ added_evidence t updates)
  /\ (forall item, given (item_topic item) = Some t ->
        item_status item <> Some "confirmed" ->
        apply_skill_updates m [item] !! t =
          Some {| status := Some "confirmed";
                  evidence := evidence e ++ match given (item_evidence item) with
                                            | Some ev => [ev]
                                            | None => []
                                            end |})
  /\ (forall (m0 : gmap string Entry) item t0,
        m0 !! t0 = None -> given (item_topic item) = Some t0 ->
        apply_skill_updates m0 [item] !! t0 =
          Some {| status := given (item_status item);
                  evidence := match given (item_evidence item) with
                              | Some ev => [ev]
                              | None => []
                              end |}).
Proof.
  intros Hm Hc. split; [exact (apply_skill_updates_confirmed updates m t e Hm Hc)|].
  split.
  - intros item Ht Hs. unfold apply_skill_updates. cbn [fold_left].
    rewrite (apply_one_same m item t Ht), Hm. cbn [default from_option id].
    unfold updated_entry. rewrite Hc.
    rewrite bool_decide_eq_true_2 by reflexivity.
    rewrite (bool_decide_eq_false_2 _ Hs). cbn [andb negb].
    destruct (given (item_evidence item)); [reflexivity|].
    rewrite app_nil_r. reflexivity.
  - intros m0 item t0 Hm0 Ht0. unfold apply_skill_updates. cbn [fold_left].
    rewrite (apply_one_same m0 item t0 Ht0), Hm0. cbn [default from_option id].
    unfold updated_entry. cbn [status evidence].
    rewrite bool_decide_eq_false_2 by discriminate. cbn [andb].
    destruct (given (item_status item)), (given (item_evidence item)); reflexivity.
Qed.

Lemma confirmed_is_monotonic_witness :
  let e := {| status := Some "confirmed"; evidence := ["explained inner join"] |} in
  let item := {| item_topic := Some "sql_joins";
                 item_status := Some "gap";
                 item_evidence := Some "confused left and right join" |} in
  exists e', apply_skill_updates {["sql_joins" := e]} [item] !! "sql_joins" = Some e'
             /\ status e' = Some "confirmed"
             /\ evidence e' = evidence e ++ added_evidence "sql_joins" [item].
Proof.
  cbv zeta.
  apply (confirmed_is_monotonic
           {["sql_joins" := {| status := Some "confirmed";
                               evidence := ["explained inner join"] |}]}
           [ {| item_topic := Some "sql_joins";
                item_status := Some "gap";
                item_evidence := Some "confused left and right join" |} ]
           "sql_joins").
  - apply lookup_singleton_eq.
  - reflexivity.
Defined.

End SkillsFacts.

(** ** The skill matrix on the object store *)

Module SkillsHeapFacts.

Import Skills SkillsHeap SkillsFacts.
Local Open Scope list_scope.

Section Rules.

Context {A : Type}.
Implicit Types (Q : option A -> gmap positive obj -> Prop) (h : gmap positive obj).

Lemma wp_ret (a : A) Q h : Q (Some a) h -> wp (ret a) Q h.
Proof. intros H. exact H. Qed.

Lemma wp_bind {B : Type} (m : M B) (k : B -> M A) Q h :
  wp m (fun r h' => match r with Some b => wp (k b) Q h' | None => Q None h' end) h ->
  wp (bind m k) Q h.
Proof. unfold wp, bind. destruct (m h) as [[b|] h']; intros H; exact H. Qed.

End Rules.

Lemma wp_alloc (o : obj) (Q : option positive -> gmap positive obj -> Prop) h :
  (forall l, h !! l = None -> Q (Some l) (<[l := o]> h)) -> wp (alloc o) Q h.
Proof.
  intros H. unfold wp, alloc. simpl. apply H.
  apply not_elem_of_dom. apply is_fresh.
Qed.

Lemma wp_write (l : positive) (o : obj) (Q : option unit -> gmap positive obj -> Prop) h :
  Q (Some tt) (<[l := o]> h) -> wp (write l o) Q h.
Proof. intros H. exact H. Qed.

Lemma wp_read_mapping (l : positive) (Q : option (gmap string positive) -> _ -> Prop) h :
  match h !! l with
  | Some (Mapping d) => Q (Some d) h
  | _ => Q None h
  end -> wp (read_mapping l) Q h.
Proof. unfold wp, read_mapping. destruct (h !! l) as [[]|]; intros H; exact H. Qed.

Lemma wp_read_entry (l : positive) (Q : option (option string * option positive) -> _ -> Prop) h :
  match h !! l with
  | Some (EntryObj st ev) => Q (Some (st, ev)) h
  | _ => Q None h
  end -> wp (read_entry l) Q h.
Proof. unfold wp, read_entry. destruct (h !! l) as [[]|]; intros H; exact H. Qed.

Lemma wp_read_list (l : positive) (Q : option (list string) -> _ -> Prop) h :
  match h !! l with
  | Some (ListObj xs) => Q (Some xs) h
  | _ => Q None h
  end -> wp (read_list l) Q h.
Proof. unfold wp, read_list. destruct (h !! l) as [[]|]; intros H; exact H. Qed.

(** Reads whose outcome does not matter. *)
Lemma wp_read_entry_any (l : positive) (Q : option (option string * option positive) -> _ -> Prop) h :
  Q None h -> (forall f, Q (Some f) h) -> wp (read_entry l) Q h.
Proof. intros HN HS. apply wp_read_entry. destruct (h !! l) as [[]|]; auto. Qed.

Lemma wp_read_list_any (l : positive) (Q : option (list string) -> _ -> Prop) h :
  Q None h -> (forall xs, Q (Some xs) h) -> wp (read_list l) Q h.
Proof. intros HN HS. apply wp_read_list. destruct (h !! l) as [[]|]; auto. Qed.

Ltac fresh_facts :=
  repeat match goal with
  | H : <[_ := _]> _ !! _ = None |- _ => apply lookup_insert_None in H; destruct H
  end.

(** A lookup away from the freshly inserted addresses. *)
Ltac skip_inserts :=
  repeat (rewrite lookup_insert_ne; [|first [assumption | intros ->; congruence | congruence]]).

Ltac frame_goal :=
  let l := fresh "l" in let o := fresh "o" in let Hne := fresh "Hne" in
  let Hl := fresh "Hl" in
  intros l o Hne Hl; skip_inserts; exact Hl.

Lemma apply_one_shape (updated : positive) (item : Update) (h : gmap positive obj)
    (d : gmap string positive) :
  h !! updated = Some (Mapping d) ->
  wp (SkillsHeap.apply_one updated item) (shape_post updated item h d) h.
Proof.
  intros Hu. unfold SkillsHeap.apply_one, shape_post.
  destruct (given (item_topic item)) as [topic|];
    [|apply wp_ret; split; [intros l o _ H; exact H|auto]].
  apply wp_bind, wp_alloc. intros l1 Hl1.
  apply wp_bind, wp_alloc. intros l2 Hl2. fresh_facts.
  apply wp_bind, wp_read_mapping. skip_inserts. rewrite Hu.
  apply wp_bind, wp_read_entry_any.
  { split; [frame_goal|]. skip_inserts. exact Hu. }
  intros fields.
  apply wp_bind, wp_alloc. intros l3 Hl3. fresh_facts.
  apply wp_bind, wp_read_list_any.
  { split; [frame_goal|]. skip_inserts. exact Hu. }
  intros copied.
  apply wp_bind, wp_alloc. intros l4 Hl4. fresh_facts.
  destruct (given (item_evidence item)) as [e|].
  - apply wp_bind, wp_bind, wp_read_list. rewrite lookup_insert_eq.
    apply wp_write. rewrite insert_insert_eq.
    apply wp_bind, wp_alloc. intros l5 Hl5. fresh_facts.
    apply wp_bind, wp_read_mapping. skip_inserts. rewrite Hu.
    apply wp_write. split; [frame_goal|].
    eexists l5, l4, _, _. rewrite lookup_insert_eq.
    split; [reflexivity|]. split; [assumption|]. split; [assumption|].
    split.
    + rewrite lookup_insert_ne by (intros ->; congruence). apply lookup_insert_eq.
    + rewrite lookup_insert_ne by (intros ->; congruence).
      rewrite lookup_insert_ne by congruence. apply lookup_insert_eq.
  - apply wp_bind, wp_ret.
    apply wp_bind, wp_alloc. intros l5 Hl5. fresh_facts.
    apply wp_bind, wp_read_mapping. skip_inserts. rewrite Hu.
    apply wp_write. split; [frame_goal|].
    eexists l5, l4, _, _. rewrite lookup_insert_eq.
    split; [reflexivity|]. split; [assumption|]. split; [assumption|].
    split.
    + rewrite lookup_insert_ne by (intros ->; congruence). apply lookup_insert_eq.
    + rewrite lookup_insert_ne by (intros ->; congruence).
      rewrite lookup_insert_ne by congruence. apply lookup_insert_eq.
Qed.

Lemma wp_mono {A : Type} (m : M A) (Q Q' : option A -> gmap positive obj -> Prop) h :
  wp m Q h -> (forall r h', Q r h' -> Q' r h') -> wp m Q' h.
Proof. unfold wp. intros H HQ. apply HQ. exact H. Qed.

Lemma only_changes_refl (u : positive) (h : gmap positive obj) : only_changes u h h.
Proof. intros l o _ H. exact H. Qed.

Lemma only_changes_trans (u : positive) (h1 h2 h3 : gmap positive obj) :
  only_changes u h1 h2 -> only_changes u h2 h3 -> only_changes u h1 h3.
Proof. intros H12 H23 l o Hne Hl. apply H23; [exact Hne|]. apply H12; assumption. Qed.

(** An address unused after the step was unused before it. *)
Lemma only_changes_fresh (u : positive) (h h' : gmap positive obj) (l : positive) :
  only_changes u h h' -> is_Some (h' !! u) -> h' !! l = None -> h !! l = None.
Proof.
  intros Hoc [o Hu] Hl. destruct (h !! l) as [o'|] eqn:E; [|reflexivity].
  destruct (decide (l = u)) as [->|Hne]; [congruence|].
  apply Hoc in E; [congruence|exact Hne].
Qed.

Lemma for_each_shape (updated : positive) (updates : list Update) :
  forall (h : gmap positive obj) (d : gmap string positive),
    h !! updated = Some (Mapping d) ->
    wp (for_each updated updates) (loop_post updated updates h d) h.
Proof.
  induction updates as [|item rest IH]; intros h d Hu.
  - apply wp_ret. split; [apply only_changes_refl|]. exists d.
    split; [exact Hu|]. split; [auto|]. intros _ topic Ht. discriminate Ht.
  - cbn [for_each]. apply wp_bind.
    eapply wp_mono; [apply apply_one_shape; exact Hu|].
    intros r h1 [Hoc Hcase].
    assert (Hstep : exists d1, h1 !! updated = Some (Mapping d1)
              /\ (forall topic, given (item_topic item) <> Some topic ->
                    d1 !! topic = d !! topic)
              /\ (r = Some tt -> forall topic, given (item_topic item) = Some topic ->
                    exists le ll st xs,
                      d1 !! topic = Some le /\ h !! le = None /\ h !! ll = None
                      /\ h1 !! le = Some (EntryObj st (Some ll))
                      /\ h1 !! ll = Some (ListObj xs))).
    { destruct (given (item_topic item)) as [t|].
      - destruct r as [[]|].
        + destruct Hcase as (le & ll & st & xs & Hd1 & Hle & Hll & Hle' & Hll').
          exists (<[t := le]> d). split; [exact Hd1|]. split.
          * intros topic Hne. apply lookup_insert_ne. congruence.
          * intros _ topic [= ->]. exists le, ll, st, xs.
            rewrite lookup_insert_eq. auto.
        + exists d. split; [exact Hcase|]. split; [auto|]. discriminate.
      - destruct Hcase as [-> Hd1]. exists d. split; [exact Hd1|].
        split; [auto|]. intros _ topic Ht. discriminate Ht. }
    destruct Hstep as (d1 & Hd1 & Hother & Hsame).
    assert (Hpost_fail : loop_post updated (item :: rest) h d None h1).
    { split; [exact Hoc|]. exists d1. split; [exact Hd1|]. split; [|discriminate].
      intros topic Ht. cbn [touches existsb] in Ht. apply orb_false_iff in Ht as [Ht _].
      apply Hother. apply bool_decide_eq_false in Ht. exact Ht. }
    destruct r as [[]|]; [|exact Hpost_fail].
    eapply wp_mono; [apply IH; exact Hd1|].
    intros r' h' (Hoc' & d' & Hd' & Hun & Htouched).
    split; [exact (only_changes_trans _ _ _ _ Hoc Hoc')|].
    exists d'. split; [exact Hd'|]. split.
    + intros topic Ht. cbn [touches existsb] in Ht.
      apply orb_false_iff in Ht as [Ht1 Ht2]. fold (touches topic rest) in Ht2.
      rewrite (Hun topic Ht2). apply Hother.
      apply bool_decide_eq_false in Ht1. exact Ht1.
    + intros -> topic Ht.
      destruct (touches topic rest) eqn:Hrest.
      * destruct (Htouched eq_refl topic Hrest)
          as (le & ll & st & xs & Hdt & Hle & Hll & Hle' & Hll').
        exists le, ll, st, xs. split; [exact Hdt|].
        split; [apply (only_changes_fresh updated h h1); eauto|].
        split; [apply (only_changes_fresh updated h h1); eauto|]. auto.
      * cbn [touches existsb] in Ht. fold (touches topic rest) in Ht.
        rewrite Hrest, orb_false_r in Ht. apply bool_decide_eq_true in Ht.
        destruct (Hsame eq_refl topic Ht)
          as (le & ll & st & xs & Hdt & Hle & Hll & Hle' & Hll').
        exists le, ll, st, xs. rewrite (Hun topic Hrest).
        split; [exact Hdt|]. split; [exact Hle|]. split; [exact Hll|].
        split; (apply Hoc'; [intros ->; congruence|assumption]).
Qed.

Lemma apply_skill_updates_frame (h : gmap positive obj) (skill_matrix : option positive)
    (updates : list Update) :
  let r := (SkillsHeap.apply_skill_updates skill_matrix updates h).1 in
  let h' := (SkillsHeap.apply_skill_updates skill_matrix updates h).2 in
  (forall l o, h !! l = Some o -> h' !! l = Some o)
  /\ forall u, r = Some u ->
       h !! u = None
       /\ exists d', h' !! u = Some (Mapping d')
          /\ (forall topic, touches topic updates = true ->
                exists le ll st xs,
                  d' !! topic = Some le
                  /\ h !! le = None /\ h !! ll = None
                  /\ h' !! le = Some (EntryObj st (Some ll))
                  /\ h' !! ll = Some (ListObj xs))
          /\ (forall topic, touches topic updates = false ->
                d' !! topic = source_entries h skill_matrix !! topic).
Proof.
  cbv zeta.
  change (wp (SkillsHeap.apply_skill_updates skill_matrix updates)
            (fun r h' =>
               (forall l o, h !! l = Some o -> h' !! l = Some o)
               /\ forall u, r = Some u ->
                    h !! u = None
                    /\ exists d', h' !! u = Some (Mapping d')
                       /\ (forall topic, touches topic updates = true ->
                             exists le ll st xs,
                               d' !! topic = Some le
                               /\ h !! le = None /\ h !! ll = None
                               /\ h' !! le = Some (EntryObj st (Some ll))
                               /\ h' !! ll = Some (ListObj xs))
                       /\ (forall topic, touches topic updates = false ->
                             d' !! topic = source_entries h skill_matrix !! topic)) h).
  unfold SkillsHeap.apply_skill_updates.
  assert (Hfinish : forall (h0 : gmap positive obj) (src : positive),
    (forall l o, h !! l = Some o -> h0 !! l = Some o) ->
    h0 !! src = Some (Mapping (source_entries h skill_matrix)) ->
    wp (let* d := read_mapping src in
        let* updated := alloc (Mapping d) in
        let* _ := for_each updated updates in ret updated)
       (fun r h' =>
               (forall l o, h !! l = Some o -> h' !! l = Some o)
               /\ forall u, r = Some u ->
                    h !! u = None
                    /\ exists d', h' !! u = Some (Mapping d')
                       /\ (forall topic, touches topic updates = true ->
                             exists le ll st xs,
                               d' !! topic = Some le
                               /\ h !! le = None /\ h !! ll = None
                               /\ h' !! le = Some (EntryObj st (Some ll))
                               /\ h' !! ll = Some (ListObj xs))
                       /\ (forall topic, touches topic updates = false ->
                             d' !! topic = source_entries h skill_matrix !! topic)) h0).
  { intros h0 src Hext Hsrc.
    apply wp_bind, wp_read_mapping. rewrite Hsrc.
    apply wp_bind, wp_alloc. intros u Hu.
    assert (Hu0 : h !! u = None).
    { destruct (h !! u) as [o|] eqn:E; [|reflexivity]. apply Hext in E. congruence. }
    apply wp_bind.
    eapply wp_mono; [apply for_each_shape; apply lookup_insert_eq|].
    intros r h' (Hoc & d' & Hd' & Hun & Htouched).
    assert (Hframe : forall l o, h !! l = Some o -> h' !! l = Some o).
    { intros l o Hl. apply Hoc; [intros ->; congruence|].
      rewrite lookup_insert_ne by (intros ->; congruence). apply Hext. exact Hl. }
    destruct r as [[]|]; [|split; [exact Hframe|discriminate]].
    apply wp_ret. split; [exact Hframe|]. intros ? [= <-].
    split; [exact Hu0|]. exists d'. split; [exact Hd'|]. split; [|exact Hun].
    intros topic Ht.
    destruct (Htouched eq_refl topic Ht) as (le & ll & st & xs & Hdt & Hle & Hll & Hrest).
    exists le, ll, st, xs. split; [exact Hdt|].
    apply lookup_insert_None in Hle as [Hle _]. apply lookup_insert_None in Hll as [Hll _].
    split; [|split]; [| |exact Hrest].
    - destruct (h !! le) as [o|] eqn:E; [|reflexivity]. apply Hext in E. congruence.
    - destruct (h !! ll) as [o|] eqn:E; [|reflexivity]. apply Hext in E. congruence. }
  destruct skill_matrix as [l|]; cbn [source_entries] in *.
  - apply wp_bind, wp_bind, wp_read_mapping.
    destruct (h !! l) as [[d| |]|] eqn:Hl;
      try (split; [auto|discriminate]).
    case_bool_decide as Hd.
    + subst d. apply wp_alloc. intros tmp Htmp. apply Hfinish.
      * intros l' o Hl'. rewrite lookup_insert_ne by (intros ->; congruence). exact Hl'.
      * apply lookup_insert_eq.
    + apply wp_ret. apply Hfinish; [auto|exact Hl].
  - apply wp_bind, wp_alloc. intros tmp Htmp. apply Hfinish.
    + intros l' o Hl'. rewrite lookup_insert_ne by (intros ->; congruence). exact Hl'.
    + apply lookup_insert_eq.
Qed.

Lemma wp_conj {A : Type} (m : M A) (Q1 Q2 : option A -> gmap positive obj -> Prop) h :
  wp m Q1 h -> wp m Q2 h -> wp m (fun r h' => Q1 r h' /\ Q2 r h') h.
Proof. unfold wp. auto. Qed.

Lemma only_changes_keeps (u : positive) (h h' : gmap positive obj) (d : gmap string positive) :
  h !! u = Some (Mapping d) -> only_changes u h h' -> keeps_records h h'.
Proof.
  intros Hu Hoc l o Hl. destruct (decide (l = u)) as [->|Hne].
  - left. exists d. congruence.
  - right. apply Hoc; assumption.
Qed.

Lemma entry_at_keeps (h h' : gmap positive obj) (l0 : positive) (e : Entry) :
  keeps_records h h' -> entry_at h l0 = Some e -> entry_at h' l0 = Some e.
Proof.
  intros Hk. unfold entry_at.
  destruct (h !! l0) as [[|st ev|]|] eqn:E0; try discriminate.
  destruct (Hk _ _ E0) as [[d Hd]| ->]; [discriminate|].
  destruct ev as [ll|]; [|auto].
  destruct (h !! ll) as [[| |xs]|] eqn:E1; try discriminate.
  destruct (Hk _ _ E1) as [[d Hd]| ->]; [discriminate|]. auto.
Qed.

Lemma matrix_at_inv (h : gmap positive obj) (l : positive) (m : gmap string Entry) :
  matrix_at h l = Some m ->
  exists d, h !! l = Some (Mapping d)
            /\ map_Forall (fun _ le => is_Some (entry_at h le)) d
            /\ m = omap (entry_at h) d.
Proof.
  unfold matrix_at. destruct (h !! l) as [[d| |]|]; try discriminate.
  case_bool_decide as HF; [|discriminate]. intros [= <-]. eauto.
Qed.

Lemma matrix_at_intro (h : gmap positive obj) (l : positive) (d : gmap string positive) :
  h !! l = Some (Mapping d) ->
  map_Forall (fun _ le => is_Some (entry_at h le)) d ->
  matrix_at h l = Some (omap (entry_at h) d).
Proof.
  intros Hl HF. unfold matrix_at. rewrite Hl.
  rewrite bool_decide_eq_true_2 by exact HF. reflexivity.
Qed.

(** A mapping copied or kept at [l'] in a store that keeps the records reads
    as the same matrix. *)
Lemma matrix_at_keeps (h h' : gmap positive obj) (l l' : positive)
    (d : gmap string positive) (m : gmap string Entry) :
  keeps_records h h' -> matrix_at h l = Some m ->
  h !! l = Some (Mapping d) -> h' !! l' = Some (Mapping d) ->
  matrix_at h' l' = Some m.
Proof.
  intros Hk Hm Hl Hl'. apply matrix_at_inv in Hm as (d0 & Hd0 & HF & ->).
  assert (d0 = d) by congruence. subst d0.
  assert (Heq : omap (entry_at h') d = omap (entry_at h) d).
  { apply map_eq. intros t. rewrite !lookup_omap.
    destruct (d !! t) as [le|] eqn:E; [|reflexivity]. simpl.
    destruct (HF _ _ E) as [e He]. rewrite He. apply (entry_at_keeps h h'); assumption. }
  rewrite <- Heq. apply matrix_at_intro; [exact Hl'|].
  intros t le E. destruct (HF _ _ E) as [e He]. exists e.
  apply (entry_at_keeps h h'); assumption.
Qed.

Lemma found_entry_matrix (h : gmap positive obj) (d : gmap string positive) (topic : string) :
  map_Forall (fun _ le => is_Some (entry_at h le)) d ->
  found_entry h d topic =
    Some (default {| status := None; evidence := [] |} (omap (entry_at h) d !! topic)).
Proof.
  intros HF. unfold found_entry. rewrite lookup_omap.
  destruct (d !! topic) as [l0|] eqn:E; [|reflexivity]. simpl.
  destruct (HF _ _ E) as [e He]. rewrite He. reflexivity.
Qed.

Lemma apply_one_content (updated : positive) (item : Update) (h : gmap positive obj)
    (d : gmap string positive) (topic : string) (old : Entry) :
  h !! updated = Some (Mapping d) ->
  given (item_topic item) = Some topic ->
  found_entry h d topic = Some old ->
  wp (SkillsHeap.apply_one updated item)
     (fun r h' => r = Some tt
        /\ exists le, h' !! updated = Some (Mapping (<[topic := le]> d))
                      /\ entry_at h' le = Some (updated_entry old item)) h.
Proof.
  intros Hu Ht Hold. unfold SkillsHeap.apply_one. rewrite Ht.
  apply wp_bind, wp_alloc. intros l1 Hl1.
  apply wp_bind, wp_alloc. intros l2 Hl2. fresh_facts.
  apply wp_bind, wp_read_mapping. skip_inserts. rewrite Hu.
  unfold found_entry in Hold.
  assert (Hread : exists st ev xs,
            (<[l2 := EntryObj None (Some l1)]> (<[l1 := ListObj []]> h))
              !! default l2 (d !! topic) = Some (EntryObj st ev)
            /\ old = {| status := st; evidence := xs |}
            /\ forall l3, h !! l3 = None -> l1 <> l3 -> l2 <> l3 ->
                 (<[l3 := ListObj []]> (<[l2 := EntryObj None (Some l1)]>
                    (<[l1 := ListObj []]> h))) !! default l3 ev = Some (ListObj xs)).
  { destruct (d !! topic) as [l0|] eqn:E; cbn [default from_option id].
    - unfold entry_at in Hold.
      destruct (h !! l0) as [[|st ev|]|] eqn:E0; try discriminate.
      destruct ev as [ll|].
      + destruct (h !! ll) as [[| |xs]|] eqn:E1; try discriminate.
        injection Hold as <-. exists st, (Some ll), xs.
        split; [skip_inserts; exact E0|]. split; [reflexivity|].
        intros l3 H3 H13 H23. cbn [default from_option id]. skip_inserts. exact E1.
      + injection Hold as <-. exists st, None, [].
        split; [skip_inserts; exact E0|]. split; [reflexivity|].
        intros l3 H3 H13 H23. cbn [default from_option id]. apply lookup_insert_eq.
    - injection Hold as <-. exists None, (Some l1), [].
      split; [apply lookup_insert_eq|]. split; [reflexivity|].
      intros l3 H3 H13 H23. cbn [default from_option id].
      rewrite lookup_insert_ne by congruence.
      rewrite lookup_insert_ne by congruence. apply lookup_insert_eq. }
  destruct Hread as (st & ev & xs & Hentry & -> & Hlist).
  apply wp_bind, wp_read_entry. rewrite Hentry. cbn [fst snd].
  apply wp_bind, wp_alloc. intros l3 Hl3. fresh_facts.
  apply wp_bind, wp_read_list. rewrite (Hlist l3) by assumption.
  apply wp_bind, wp_alloc. intros l4 Hl4. fresh_facts.
  unfold updated_entry. cbn [status evidence].
  destruct (given (item_evidence item)) as [e|].
  - apply wp_bind, wp_bind, wp_read_list. rewrite lookup_insert_eq.
    apply wp_write. rewrite insert_insert_eq.
    apply wp_bind, wp_alloc. intros l5 Hl5. fresh_facts.
    apply wp_bind, wp_read_mapping. skip_inserts. rewrite Hu.
    apply wp_write. split; [reflexivity|]. exists l5.
    rewrite lookup_insert_eq. split; [reflexivity|].
    unfold entry_at.
    rewrite (lookup_insert_ne _ updated l5) by (intros ->; congruence).
    rewrite lookup_insert_eq.
    rewrite (lookup_insert_ne _ updated l4) by (intros ->; congruence).
    rewrite (lookup_insert_ne _ l5 l4) by congruence.
    rewrite lookup_insert_eq. reflexivity.
  - apply wp_bind, wp_ret.
    apply wp_bind, wp_alloc. intros l5 Hl5. fresh_facts.
    apply wp_bind, wp_read_mapping. skip_inserts. rewrite Hu.
    apply wp_write. split; [reflexivity|]. exists l5.
    rewrite lookup_insert_eq. split; [reflexivity|].
    unfold entry_at.
    rewrite (lookup_insert_ne _ updated l5) by (intros ->; congruence).
    rewrite lookup_insert_eq.
    rewrite (lookup_insert_ne _ updated l4) by (intros ->; congruence).
    rewrite (lookup_insert_ne _ l5 l4) by congruence.
    rewrite lookup_insert_eq. reflexivity.
Qed.

Lemma apply_one_refines (updated : positive) (item : Update) (h : gmap positive obj)
    (m : gmap string Entry) :
  matrix_at h updated = Some m ->
  wp (SkillsHeap.apply_one updated item)
     (fun r h' => r = Some tt /\ matrix_at h' updated = Some (Skills.apply_one m item)) h.
Proof.
  intros Hm. pose proof Hm as Hm0. apply matrix_at_inv in Hm as (d & Hu & HF & ->).
  rewrite apply_one_eq.
  destruct (given (item_topic item)) as [topic|] eqn:Ht.
  - eapply wp_mono.
    { apply wp_conj.
      - apply (apply_one_shape updated item h d Hu).
      - apply (apply_one_content updated item h d topic _ Hu Ht
                 (found_entry_matrix h d topic HF)). }
    intros r h' [[Hoc _] [-> (le & Hd' & Hle)]]. split; [reflexivity|].
    pose proof (only_changes_keeps _ _ _ _ Hu Hoc) as Hk.
    assert (Heq : omap (entry_at h') (<[topic := le]> d)
                  = <[topic := updated_entry
                        (default {| status := None; evidence := [] |}
                           (omap (entry_at h) d !! topic)) item]> (omap (entry_at h) d)).
    { apply map_eq. intros t. rewrite lookup_omap.
      destruct (decide (t = topic)) as [->|Hne].
      - rewrite !lookup_insert_eq. simpl. exact Hle.
      - rewrite !lookup_insert_ne by congruence. rewrite lookup_omap.
        destruct (d !! t) as [l0|] eqn:E; [|reflexivity]. simpl.
        destruct (HF _ _ E) as [e He]. rewrite He.
        apply (entry_at_keeps h h'); assumption. }
    rewrite <- Heq. apply matrix_at_intro; [exact Hd'|].
    apply map_Forall_insert_2; [rewrite Hle; eauto|].
    intros t l0 E. destruct (HF _ _ E) as [e He]. exists e.
    apply (entry_at_keeps h h'); assumption.
  - eapply wp_mono; [apply (apply_one_shape updated item h d Hu)|].
    intros r h' [Hoc Hcase]. rewrite Ht in Hcase. destruct Hcase as [-> Hd'].
    split; [reflexivity|].
    apply (matrix_at_keeps h h' updated updated d); auto.
    apply (only_changes_keeps _ _ _ _ Hu Hoc).
Qed.

Lemma for_each_refines (updated : positive) (updates : list Update) :
  forall (h : gmap positive obj) (m : gmap string Entry),
    matrix_at h updated = Some m ->
    wp (for_each updated updates)
       (fun r h' => r = Some tt
          /\ matrix_at h' updated = Some (Skills.apply_skill_updates m updates)) h.
Proof.
  induction updates as [|item rest IH]; intros h m Hm.
  - apply wp_ret. auto.
  - cbn [for_each]. apply wp_bind.
    eapply wp_mono; [apply apply_one_refines; exact Hm|].
    intros r h1 [-> Hm1]. apply IH. exact Hm1.
Qed.

Lemma apply_skill_updates_refines (h : gmap positive obj)
    (skill_matrix : option positive) (updates : list Update) (m : gmap string Entry) :
  source_matrix h skill_matrix = Some m ->
  exists u h',
    SkillsHeap.apply_skill_updates skill_matrix updates h = (Some u, h')
    /\ matrix_at h' u = Some (Skills.apply_skill_updates m updates).
Proof.
  intros Hsrc.
  enough (Hwp : wp (SkillsHeap.apply_skill_updates skill_matrix updates)
                  (fun r h' => exists u, r = Some u
                     /\ matrix_at h' u = Some (Skills.apply_skill_updates m updates)) h).
  { unfold wp in Hwp.
    destruct (SkillsHeap.apply_skill_updates skill_matrix updates h) as [r h'].
    destruct Hwp as (u & Hr & Hm). simpl in Hr. subst r. exists u, h'. auto. }
  unfold SkillsHeap.apply_skill_updates.
  assert (Hfinish : forall (h0 : gmap positive obj) (src : positive),
    matrix_at h0 src = Some m ->
    wp (let* d := read_mapping src in
        let* updated := alloc (Mapping d) in
        let* _ := for_each updated updates in ret updated)
       (fun r h' => exists u, r = Some u
          /\ matrix_at h' u = Some (Skills.apply_skill_updates m updates)) h0).
  { intros h0 src Hm. pose proof Hm as Hm'.
    apply matrix_at_inv in Hm' as (d & Hd & _ & _).
    apply wp_bind, wp_read_mapping. rewrite Hd.
    apply wp_bind, wp_alloc. intros u Hu.
    apply wp_bind. eapply wp_mono.
    { apply (for_each_refines u updates _ m).
      apply (matrix_at_keeps h0 _ src u d); [|exact Hm|exact Hd|apply lookup_insert_eq].
      intros l o Hl. right. rewrite lookup_insert_ne by (intros ->; congruence). exact Hl. }
    intros r h' [-> Hm'']. apply wp_ret. eauto. }
  destruct skill_matrix as [l|]; cbn [source_matrix] in Hsrc.
  - pose proof Hsrc as Hinv. apply matrix_at_inv in Hinv as (d & Hd & HF & Hmd).
    apply wp_bind, wp_bind, wp_read_mapping. rewrite Hd.
    case_bool_decide as Hempty.
    + apply wp_alloc. intros tmp Htmp. apply Hfinish.
      subst d. rewrite omap_empty in Hmd. subst m.
      unfold matrix_at. rewrite lookup_insert_eq.
      rewrite bool_decide_eq_true_2 by apply map_Forall_empty.
      rewrite omap_empty. reflexivity.
    + apply wp_ret. apply Hfinish. exact Hsrc.
  - injection Hsrc as <-.
    apply wp_bind, wp_alloc. intros tmp Htmp. apply Hfinish.
    unfold matrix_at. rewrite lookup_insert_eq.
    rewrite bool_decide_eq_true_2 by apply map_Forall_empty.
    rewrite omap_empty. reflexivity.
Qed.

Lemma source_matrix_kept (h h' : gmap positive obj) (skill_matrix : option positive)
    (m : gmap string Entry) :
  (forall l o, h !! l = Some o -> h' !! l = Some o) ->
  source_matrix h skill_matrix = Some m -> source_matrix h' skill_matrix = Some m.
Proof.
  intros Hext. destruct skill_matrix as [l|]; cbn [source_matrix]; [|auto].
  intros Hm. pose proof Hm as Hinv. apply matrix_at_inv in Hinv as (d & Hd & _ & _).
  apply (matrix_at_keeps h h' l l d); auto.
  intros l' o Hl'. right. auto.
Qed.

(** Claim C10. [apply_skill_updates] does not mutate its input. Every object
    of the store before the call (the mapping passed in, the entry records
    it refers to, their evidence lists) is the same object with the same
    content after it. The mapping returned is at a new address; for every
    topic named by an update it refers to a new entry record holding a new
    evidence list, and for every other topic to the entry the input refers
    to. When the input reads as a skill matrix, the call returns, the input
    still reads as that matrix, and the result reads as the matrix of the
    functional [apply_skill_updates], so the new lists are copies extended
    with the new evidence. *)
Theorem apply_skill_updates_keeps_input (h : gmap positive obj)
    (skill_matrix : option positive) (updates : list Update) :
  let r := (SkillsHeap.apply_skill_updates skill_matrix updates h).1 in
  let h' := (SkillsHeap.apply_skill_updates skill_matrix updates h).2 in
  (forall l o, h !! l = Some o -> h' !! l = Some o)
  /\ (forall u, r = Some u ->
        h !! u = None
        /\ exists d', h' !! u = Some (Mapping d')
           /\ (forall topic, touches topic updates = true ->
                 exists le ll st xs,
                   d' !! topic = Some le
                   /\ h !! le = None /\ h !! ll = None
                   /\ h' !! le = Some (EntryObj st (Some ll))
                   /\ h' !! ll = Some (ListObj xs))
           /\ (forall topic, touches topic updates = false ->
                 d' !! topic = source_entries h skill_matrix !! topic))
  /\ (forall m, source_matrix h skill_matrix = Some m ->
        exists u, r = Some u
                  /\ source_matrix h' skill_matrix = Some m
                  /\ matrix_at h' u = Some (Skills.apply_skill_updates m updates)).
Proof.
  cbv zeta.
  destruct (apply_skill_updates_frame h skill_matrix updates) as [Hframe Hshape].
  split; [exact Hframe|]. split; [exact Hshape|].
  intros m Hm.
  destruct (apply_skill_updates_refines h skill_matrix updates m Hm) as (u & h' & Hrun & Hres).
  rewrite Hrun in *. cbn [fst snd] in *. exists u.
  split; [reflexivity|]. split; [|exact Hres].
  apply (source_matrix_kept h h'); assumption.
Qed.

Lemma apply_skill_updates_keeps_input_witness :
  let h : gmap positive obj :=
    {[ 1%positive := Mapping {[ "sql_joins" := 2%positive ]};
       2%positive := EntryObj (Some "confirmed") (Some 3%positive);
       3%positive := ListObj ["explained inner join"] ]} in
  let m : gmap string Entry :=
    {[ "sql_joins" := {| status := Some "confirmed";
                         evidence := ["explained inner join"] |} ]} in
  let updates := [ {| item_topic := Some "sql_joins";
                      item_status := Some "gap";
                      item_evidence := Some "confused left and right join" |} ] in
  let run := SkillsHeap.apply_skill_updates (Some 1%positive) updates h in
  exists u, run.1 = Some u
            /\ source_matrix run.2 (Some 1%positive) = Some m
            /\ matrix_at run.2 u = Some (Skills.apply_skill_updates m updates).
Proof.
  cbv zeta.
  pose proof (apply_skill_updates_keeps_input
                {[ 1%positive := Mapping {[ "sql_joins" := 2%positive ]};
                   2%positive := EntryObj (Some "confirmed") (Some 3%positive);
                   3%positive := ListObj ["explained inner join"] ]}
                (Some 1%positive)
                [ {| item_topic := Some "sql_joins";
                     item_status := Some "gap";
                     item_evidence := Some "confused left and right join" |} ]) as H.
  cbv zeta in H. destruct H as (_ & _ & H).
  apply H. vm_compute. reflexivity.
Defined.

End SkillsHeapFacts.

(** ** The structured-call subsystem *)

Module StructuredCallFacts.

Import StructuredCall.
Local Open Scope string_scope.
Local Open Scope list_scope.
Local Open Scope Z_scope.

Lemma repair_calls_app (t1 t2 : list event) :
  repair_calls (t1 ++ t2) = (repair_calls t1 + repair_calls t2)%nat.
Proof. unfold repair_calls. rewrite List.filter_app, length_app. reflexivity. Qed.

Lemma fresh_calls_app (t1 t2 : list event) :
  fresh_calls (t1 ++ t2) = (fresh_calls t1 + fresh_calls t2)%nat.
Proof. unfold fresh_calls. rewrite List.filter_app, length_app. reflexivity. Qed.

Section WithJson.

Variable json : Type.
Variable json_loads : string -> option json.
Context {T : Type}.
Variable llm : capability.
Variable schema : Schema json T.

Abbreviation parse := (parse_json_with_schema json json_loads).
Abbreviation call := (call_llm_for_json json json_loads llm schema).
Abbreviation safe_call := (safe_call_for_json json json_loads llm schema).

(** With a budget of one attempt, the call makes one fresh invocation and
    nothing else. *)
Lemma call_once_trace (messages : list (string * string)) (trace : list event) :
  snd (call messages 1 trace) = trace ++ [Invoked FreshCall (_convert_messages messages)].
Proof.
  unfold call_llm_for_json. change (range 1) with [0].
  cbn [attempts_loop]. unfold attempt_body, invoke.
  destruct (llm _) as [err| |text|content repr]; cbn [content_of snd]; try reflexivity.
  - destruct (parse text schema); reflexivity.
  - destruct content as [c|]; [|reflexivity].
    destruct (parse c schema); reflexivity.
Qed.

Lemma safe_loop_trace (messages : list (string * string)) (max_attempts : Z)
    (role_ : string) (attempts : list Z) :
  forall (last_err : option exn) (last_response_ : option string) (trace : list event),
    repair_calls (snd (safe_loop json json_loads llm schema messages max_attempts role_
                         attempts last_err last_response_ trace))
    = repair_calls trace.
Proof.
  induction attempts as [|attempt rest IH]; intros last_err last_response_ trace.
  - reflexivity.
  - cbn [safe_loop].
    pose proof (call_once_trace messages trace) as Htr.
    destruct (call messages 1 trace) as [[v|exc] trace1]; cbn [snd] in Htr |- *.
    + rewrite Htr, repair_calls_app. cbn. lia.
    + rewrite IH. destruct (attempt <? max_attempts - 1).
      * rewrite Htr, !repair_calls_app. cbn. lia.
      * rewrite Htr, repair_calls_app. cbn. lia.
Qed.

(** Whatever the capability, the schema and the attempt budget,
    [safe_call_for_json] issues no repair round-trip: it calls
    [call_llm_for_json] with a budget of one attempt, whose first attempt is
    its last. *)
Lemma safe_call_for_json_never_repairs (messages : list (string * string))
    (max_attempts : Z) (role_ : string) (trace : list event) :
  repair_calls (snd (safe_call messages max_attempts role_ trace)) = repair_calls trace.
Proof. apply safe_loop_trace. Qed.

(** [call_llm_for_json] with at least two attempts, whose first answer does
    not parse or validate: exactly one repair round-trip follows, carrying
    the bad text and the schema, and the outcome is that of extraction and
    validation on the repaired text. *)
Lemma call_llm_for_json_repairs_once (messages : list (string * string))
    (max_attempts : Z) (trace : list event) (content : string) (exc : exn) :
  2 <= max_attempts ->
  let first := trace ++ [Invoked FreshCall (_convert_messages messages)] in
  let second := first ++ [Invoked RepairCall
                            (repair_messages content (schema_json schema))] in
  content_of (llm (requests first)) = Some content ->
  parse content schema = inr exc ->
  call messages max_attempts trace = (after_repair json json_loads schema content (llm (requests second)), second)
  /\ repair_calls second = S (repair_calls trace).
Proof.
  intros Hmax first second Hcontent Hparse. split.
  - assert (Hbody : attempt_body json json_loads llm schema (_convert_messages messages)
                     max_attempts 0 trace
                   = match after_repair json json_loads schema content (llm (requests second)) with
                     | inl v => (inl (Return v), second)
                     | inr (JsonSchemaValidationError original (Some repaired)) =>
                         (inl (Break (Some (JsonSchemaValidationError original
                                              (Some repaired)))), second)
                     | inr e => (inr e, second)
                     end).
    { unfold attempt_body, invoke. fold first.
      assert (Hfirst : exists r, llm (requests first) = r
                /\ content_of r = Some content
                /\ match r with Raises _ => False | _ => True end).
      { exists (llm (requests first)). split; [reflexivity|]. split; [exact Hcontent|].
        destruct (llm (requests first)); [discriminate Hcontent|exact I..]. }
      destruct Hfirst as (r & -> & Hc & Hr).
      destruct r as [err| |text|c repr]; [contradiction|..];
        rewrite Hc, Hparse;
        (destruct (0 =? max_attempts - 1) eqn:E0; [lia|]);
        unfold repair_to_valid_json, invoke; fold second; unfold after_repair;
        (destruct (llm (requests second)) as [err2| |text2|[c2|] repr2];
         cbn [content_of]; try reflexivity);
        destruct (parse (Str.strip _) schema); reflexivity. }
    unfold call_llm_for_json, range. rewrite seqZ_cons by lia.
    cbn [attempts_loop]. rewrite Hbody.
    destruct (after_repair json json_loads schema content (llm (requests second))) as [v|e]; [reflexivity|].
    destruct e as [original [repaired|]| | |]; reflexivity.
  - unfold second, first. rewrite !repair_calls_app. cbn. lia.
Qed.

End WithJson.

Section FailingInput.

Variable json : Type.
Variable json_loads : string -> option json.
Context {T : Type}.
Variable schema : Schema json T.

Lemma plain_text_rejected :
  json_loads "not json at all" = None ->
  parse_json_with_schema json json_loads "not json at all" schema
  = inr (JsonSchemaValidationError "not json at all" None).
Proof.
  intros Hloads. unfold parse_json_with_schema, _extract_json_substring.
  change (Str.strip "not json at all") with "not json at all".
  rewrite Hloads. reflexivity.
Qed.

(** Claim C1, at the failing input. For a capability that always answers
    the text "not json at all", [safe_call_for_json] with two attempts makes
    two fresh invocations with one pause between them and raises
    [LLMCallError]; it issues no repair round-trip, where the claim has
    exactly one. *)
Theorem safe_call_for_json_skips_repair (messages : list (string * string))
    (role_ : string) :
  json_loads "not json at all" = None ->
  let out := safe_call_for_json json json_loads (constant_capability "not json at all")
               schema messages 2 role_ [] in
  out = (inr {| role := role_;
                last_response := Some "not json at all";
                cause := Some (JsonSchemaValidationError "not json at all" None) |},
         [ Invoked FreshCall (_convert_messages messages);
           Slept 1;
           Invoked FreshCall (_convert_messages messages) ])
  /\ repair_calls (snd out) = 0%nat
  /\ fresh_calls (snd out) = 2%nat.
Proof.
  intros Hloads. pose proof (plain_text_rejected Hloads) as Hparse. cbv zeta.
  assert (Hout : safe_call_for_json json json_loads (constant_capability "not json at all")
                   schema messages 2 role_ []
                 = (inr {| role := role_;
                           last_response := Some "not json at all";
                           cause := Some (JsonSchemaValidationError "not json at all" None) |},
                    [ Invoked FreshCall (_convert_messages messages);
                      Slept 1;
                      Invoked FreshCall (_convert_messages messages) ])).
  { unfold safe_call_for_json. change (range 2) with [0; 1].
    unfold safe_loop, call_llm_for_json. change (range 1) with [0].
    unfold attempts_loop, attempt_body, invoke, constant_capability.
    cbn [content_of]. rewrite Hparse. reflexivity. }
  rewrite Hout. repeat split.
Qed.

End FailingInput.

Lemma safe_call_for_json_skips_repair_witness :
  let out := safe_call_for_json unit (fun _ => None) (constant_capability "not json at all")
               {| model_validate := fun _ : unit => Some tt; schema_json := "{}" |}
               [("system", "prompt"); ("user", "payload")] 2 "observer" [] in
  repair_calls (snd out) = 0%nat.
Proof.
  apply (safe_call_for_json_skips_repair unit (fun _ => None)
           {| model_validate := fun _ : unit => Some tt; schema_json := "{}" |}
           [("system", "prompt"); ("user", "payload")] "observer").
  reflexivity.
Defined.

End StructuredCallFacts.

(** ** Structured calls: extraction, bounds and back-off *)

Module ExtractionFacts.

Import Py StructuredCall.
Local Open Scope string_scope.
Local Open Scope list_scope.
Local Open Scope Z_scope.














Section Extraction.

Variable json : Type.
Variable json_loads : string -> option json.




End Extraction.




End ExtractionFacts.

Module RetryFacts.

Import Py StructuredCall RetryTrace.
Local Open Scope string_scope.
Local Open Scope list_scope.
Local Open Scope Z_scope.

Section WithJson.

Variable json : Type.
Variable json_loads : string -> option json.
Context {T : Type}.
Variable llm : capability.
Variable schema : Schema json T.

Abbreviation parse := (parse_json_with_schema json json_loads).
Abbreviation call := (call_llm_for_json json json_loads llm schema).
Abbreviation safe_call := (safe_call_for_json json json_loads llm schema).
Abbreviation body := (attempt_body json json_loads llm schema).

(** Property X4. An answer that parses and validates is returned at once by both
    entry points: one invocation, no repair, no pause. *)
Theorem valid_answer_accepted (messages : list (string * string)) (max_attempts : Z)
    (role_ : string) (trace : list event) (content : string) (v : T) :
  1 <= max_attempts ->
  let first := trace ++ [Invoked FreshCall (_convert_messages messages)] in
  content_of (llm (requests first)) = Some content ->
  parse content schema = inl v ->
  call messages max_attempts trace = (inl v, first)
  /\ safe_call messages max_attempts role_ trace = (inl v, first).
Proof.
  intros Hmax first Hcontent Hparse.
  assert (Hbody : forall n a, body (_convert_messages messages) n a trace
                              = (inl (Return v), first)).
  { intros n a. unfold attempt_body, invoke. fold first.
    destruct (llm (requests first)) as [err| |text|c repr];
      cbn [content_of] in Hcontent; try discriminate;
      [injection Hcontent as ->|subst c]; cbn [content_of]; rewrite Hparse; reflexivity. }
  assert (Hcall : forall n, 1 <= n -> call messages n trace = (inl v, first)).
  { intros n Hn. unfold call_llm_for_json, range. rewrite seqZ_cons by lia.
    cbn [attempts_loop]. rewrite Hbody. reflexivity. }
  split; [apply Hcall; exact Hmax|].
  unfold safe_call_for_json, range. rewrite seqZ_cons by lia.
  cbn [safe_loop]. rewrite Hcall by lia. reflexivity.
Qed.

(** Property X5. Whatever its budget, [call_llm_for_json] invokes the capability
    once, and once more for a repair at most (never with a budget of 1);
    with no budget it invokes nothing and fails its assertion. *)
Theorem call_llm_for_json_bounded (messages : list (string * string)) (max_attempts : Z)
    (trace : list event) :
  let out := call messages max_attempts trace in
  let first := Invoked FreshCall (_convert_messages messages) in
  (max_attempts <= 0 -> out = (inr AssertionError, trace))
  /\ (1 <= max_attempts ->
      snd out = trace ++ [first]
      \/ exists bad, content_of (llm (requests (trace ++ [first]))) = Some bad
                     /\ 2 <= max_attempts
                     /\ snd out = trace ++ [first; Invoked RepairCall
                                     (repair_messages bad (schema_json schema))]).
Proof.
  cbv zeta. split.
  - intros Hn. unfold call_llm_for_json, range. rewrite seqZ_nil by lia. reflexivity.
  - intros Hn. unfold call_llm_for_json, range. rewrite seqZ_cons by lia.
    cbn [attempts_loop]. unfold attempt_body, invoke.
    set (first := trace ++ [Invoked FreshCall (_convert_messages messages)]).
    destruct (llm (requests first)) as [err| |text|c repr] eqn:E1;
      try (left; reflexivity).
    + cbn [content_of]. destruct (parse text schema); [left; reflexivity|].
      destruct (0 =? max_attempts - 1) eqn:E0; [left; reflexivity|].
      right. exists text. split; [reflexivity|]. split; [lia|].
      unfold repair_to_valid_json, invoke.
      set (second := first ++ [Invoked RepairCall _]).
      replace (trace ++ [Invoked FreshCall (_convert_messages messages);
                         Invoked RepairCall (repair_messages text (schema_json schema))])
        with second by (unfold second, first; rewrite <- app_assoc; reflexivity).
      destruct (llm (requests second)) as [err2| |text2|[c2|] repr2];
        cbn [content_of]; try reflexivity;
        destruct (parse (Str.strip _) schema); reflexivity.
    + cbn [content_of]. destruct c as [c|]; [|left; reflexivity].
      destruct (parse c schema); [left; reflexivity|].
      destruct (0 =? max_attempts - 1) eqn:E0; [left; reflexivity|].
      right. exists c. split; [reflexivity|]. split; [lia|].
      unfold repair_to_valid_json, invoke.
      set (second := first ++ [Invoked RepairCall _]).
      replace (trace ++ [Invoked FreshCall (_convert_messages messages);
                         Invoked RepairCall (repair_messages c (schema_json schema))])
        with second by (unfold second, first; rewrite <- app_assoc; reflexivity).
      destruct (llm (requests second)) as [err2| |text2|[c2|] repr2];
        cbn [content_of]; try reflexivity;
        destruct (parse (Str.strip _) schema); reflexivity.
Qed.




End WithJson.

Lemma valid_answer_accepted_witness :
  let first := [Invoked FreshCall (_convert_messages [("user", "payload")])] in
  call_llm_for_json unit Samples.loads_empty_object (constant_capability "{}")
    Samples.unit_schema [("user", "payload")] 2 [] = (inl tt, first)
  /\ safe_call_for_json unit Samples.loads_empty_object (constant_capability "{}")
       Samples.unit_schema [("user", "payload")] 2 "observer" [] = (inl tt, first).
Proof.
  apply (valid_answer_accepted unit Samples.loads_empty_object
           (constant_capability "{}") Samples.unit_schema [("user", "payload")] 2 "observer" []
           "{}" tt).
  - lia.
  - reflexivity.
  - vm_compute. reflexivity.
Defined.

End RetryFacts.

(** ** Topic ranking, question selection and the recorded topic *)

Module RankingFacts.

Import Py QuestionBank ContextGuard State TopicManager Ranking Spec Nodes Controls.
Local Open Scope string_scope.
Local Open Scope list_scope.
Local Open Scope Z_scope.

Lemma insert_by_key_sorted (x : Z * string) (l : list (Z * string)) :
  StronglySorted by_key l -> StronglySorted by_key (insert_by_key x l).
Proof.
  induction 1 as [|y rest Hsorted IH Hall]; simpl.
  - constructor; [constructor|constructor].
  - destruct (fst x <=? fst y) eqn:E.
    + apply Z.leb_le in E. constructor.
      * constructor; assumption.
      * constructor; [exact E|].
        rewrite List.Forall_forall in *. intros z Hz. specialize (Hall z Hz).
        unfold by_key in *. lia.
    + apply Z.leb_gt in E. constructor; [exact IH|].
      rewrite List.Forall_forall in *. intros z Hz.
      apply (proj1 (LoopFacts.insert_by_key_In _ _ _)) in Hz as [->|Hz];
        [unfold by_key; lia|auto].
Qed.

Lemma sort_by_key_sorted (l : list (Z * string)) : StronglySorted by_key (sort_by_key l).
Proof.
  induction l as [|x l IH]; simpl; [constructor|].
  apply insert_by_key_sorted. exact IH.
Qed.

(** The head of the sorted list is the first of the entries of least key. *)
Lemma sort_by_key_head (l : list (Z * string)) (x : Z * string) (rest : list (Z * string)) :
  sort_by_key l = x :: rest ->
  exists before after,
    l = before ++ x :: after
    /\ (forall y, In y before -> fst x < fst y)
    /\ (forall y, In y after -> fst x <= fst y).
Proof.
  revert x rest. induction l as [|a l IH]; intros x rest; simpl; [discriminate|].
  destruct (sort_by_key l) as [|x' rest'] eqn:Hs; simpl.
  - intros [= <- <-]. exists [], l. split; [reflexivity|]. split; [intros y []|].
    destruct l as [|b l]; [intros y []|].
    exfalso. simpl in Hs. destruct (sort_by_key l); simpl in Hs; [discriminate|].
    destruct (fst b <=? fst p); discriminate.
  - destruct (IH _ _ eq_refl) as (before & after & Hl & Hb & Ha).
    destruct (fst a <=? fst x') eqn:E.
    + apply Z.leb_le in E. intros [= <- <-]. exists [], l.
      split; [reflexivity|]. split; [intros y []|].
      intros y Hy. rewrite Hl in Hy. apply in_app_or in Hy as [Hy|[<-|Hy]].
      * specialize (Hb y Hy). lia.
      * exact E.
      * specialize (Ha y Hy). lia.
    + apply Z.leb_gt in E. intros [= <- <-]. exists (a :: before), after.
      split; [rewrite Hl; reflexivity|]. split; [|exact Ha].
      intros y [<-|Hy]; [exact E|auto].
Qed.

Lemma find_sorted_least (f : Z * string -> bool) (l : list (Z * string)) (x : Z * string) :
  StronglySorted by_key l -> List.find f l = Some x ->
  forall y, In y l -> f y = true -> fst x <= fst y.
Proof.
  induction 1 as [|a rest Hsorted IH Hall]; simpl; [discriminate|].
  destruct (f a) eqn:Ea.
  - intros [= <-] y [<-|Hy] _; [lia|].
    rewrite List.Forall_forall in Hall. exact (Hall y Hy).
  - intros Hfind y [<-|Hy] Hfy; [congruence|]. apply IH; assumption.
Qed.

Lemma pool_not_empty : get_all_topics <> [].
Proof. vm_compute. discriminate. Qed.

Lemma pool_topics_named (t : string) : In t get_all_topics -> t <> "".
Proof.
  assert (H : forallb (fun t => negb (String.eqb t "")) get_all_topics = true)
    by (vm_compute; reflexivity).
  rewrite forallb_forall in H. intros Ht. apply H in Ht.
  apply negb_true_iff, String.eqb_neq in Ht. exact Ht.
Qed.

Lemma scored_entry (sm : gmap string Skills.Entry) (pool : list string) (k : Z) (t : string) :
  In (k, t) (map (fun topic => (topic_priority sm topic, topic)) pool) ->
  In t pool /\ k = topic_priority sm t.
Proof. intros H. apply in_map_iff in H as (t' & [= <- <-] & Ht). auto. Qed.

Lemma select_next_topic_cases (sm : gmap string Skills.Entry) (ts : TopicState) :
  let sel := select_next_topic sm ts in
  let p := topic_priority sm in
  In sel get_all_topics
  /\ (should_switch_topic (last_topics ts) get_all_topics = false ->
      exists before after,
        get_all_topics = before ++ sel :: after
        /\ (forall t, In t before -> p sel < p t)
        /\ (forall t, In t after -> p sel <= p t))
  /\ (should_switch_topic (last_topics ts) get_all_topics = true ->
      exists recent,
        last (last_topics ts) = Some recent
        /\ sel <> recent
        /\ forall t, In t get_all_topics -> t <> recent -> p sel <= p t).
Proof.
  cbv zeta. unfold select_next_topic.
  change (fun topic => (_status_priority (normalize_topic (status_text sm topic)), topic))
    with (fun topic => (topic_priority sm topic, topic)).
  set (g := fun topic => (topic_priority sm topic, topic)).
  set (pool := get_all_topics).
  assert (Hpool : pool <> []) by apply pool_not_empty.
  destruct (sort_by_key (map g pool)) as [|[k0 t0] rest] eqn:Hsort.
  { exfalso. destruct pool as [|t pool']; [congruence|].
    assert (Hin : In (g t) (sort_by_key (map g (t :: pool'))))
      by (apply LoopFacts.sort_by_key_In; simpl; auto).
    rewrite Hsort in Hin. destruct Hin. }
  destruct (sort_by_key_head _ _ _ Hsort) as (before & after & Hmap & Hb & Ha).
  assert (Hhead : In (k0, t0) (map g pool)) by (rewrite Hmap; apply in_elt).
  apply scored_entry in Hhead as [Ht0 Hk0].
  pose proof (sort_by_key_sorted (map g pool)) as Hsorted. rewrite Hsort in Hsorted.
  destruct (should_switch_topic (last_topics ts) pool) eqn:Hsw.
  - assert (Hrecent : exists recent, last (last_topics ts) = Some recent
                        /\ existsb (fun topic => negb (String.eqb topic recent)) pool = true).
    { unfold should_switch_topic in Hsw.
      destruct (rev (last_topics ts)) as [|l1 [|l2 tl]] eqn:Hrev; try discriminate.
      destruct (negb (String.eqb l1 l2)); [discriminate|].
      exists l1. split; [|exact Hsw].
      rewrite <- (rev_involutive (last_topics ts)), Hrev. simpl.
      apply last_snoc. }
    destruct Hrecent as (recent & Hlast & Halt). rewrite Hlast.
    destruct (List.find (fun x => negb (String.eqb (snd x) recent)) ((k0, t0) :: rest))
      as [[k t]|] eqn:Hfind.
    + pose proof (find_some _ _ Hfind) as [Hin Hf]. cbn [snd] in Hf.
      apply negb_true_iff, String.eqb_neq in Hf.
      rewrite <- Hsort in Hin. apply (proj1 (LoopFacts.sort_by_key_In _ _)) in Hin.
      apply scored_entry in Hin as [Ht Hk].
      split; [exact Ht|]. split; [discriminate|]. intros _.
      exists recent. split; [reflexivity|]. split; [exact Hf|].
      intros t' Ht' Hne.
      pose proof (find_sorted_least _ _ _ Hsorted Hfind (g t')) as Hle.
      cbn [fst] in Hle. rewrite <- Hk. apply Hle.
      * rewrite <- Hsort. apply LoopFacts.sort_by_key_In. apply in_map. exact Ht'.
      * cbn [snd g]. apply negb_true_iff, String.eqb_neq. exact Hne.
    + exfalso. apply existsb_exists in Halt as (alt & Halt & Hne).
      assert (Hin : In (g alt) ((k0, t0) :: rest)).
      { rewrite <- Hsort. apply LoopFacts.sort_by_key_In. apply in_map. exact Halt. }
      apply (find_none _ _ Hfind) in Hin. cbn [snd g] in Hin. congruence.
  - split; [exact Ht0|]. split; [|discriminate]. intros _.
    apply map_eq_app in Hmap as (before' & rest' & Hpool' & Hbefore & Hrest).
    apply map_eq_cons in Hrest as (t0' & after' & -> & Hg & Hafter).
    injection Hg as Hk Ht. subst t0'.
    exists before', after'. split; [exact Hpool'|]. split.
    + intros t Ht. specialize (Hb (g t)). cbn [fst g] in Hb.
      rewrite <- Hk0. apply Hb. rewrite <- Hbefore. apply in_map. exact Ht.
    + intros t Ht. specialize (Ha (g t)). cbn [fst g] in Ha.
      rewrite <- Hk0. apply Ha. rewrite <- Hafter. apply in_map. exact Ht.
Qed.

Lemma select_next_topic_pool (sm : gmap string Skills.Entry) (ts : TopicState) :
  In (select_next_topic sm ts) get_all_topics.
Proof. exact (proj1 (select_next_topic_cases sm ts)). Qed.


Lemma filter_filter_and {A : Type} (f g : A -> bool) (l : list A) :
  List.filter f (List.filter g l) = List.filter (fun x => g x && f x) l.
Proof.
  induction l as [|x l IH]; simpl; [reflexivity|].
  destruct (g x); simpl; [|exact IH]. destruct (f x); rewrite IH; reflexivity.
Qed.

Lemma filter_true {A : Type} (l : list A) : List.filter (fun _ => true) l = l.
Proof. induction l as [|x l IH]; simpl; [reflexivity|]. rewrite IH. reflexivity. Qed.

Lemma get_candidates_matches (topic : option string) (difficulty : Z) (qtype : option string) :
  get_candidates topic difficulty qtype
  = List.filter (matches topic difficulty qtype) QUESTION_BANK.
Proof.
  unfold get_candidates, matches. generalize QUESTION_BANK as bank. intros bank.
  destruct (given topic) as [t|], (given qtype) as [ty|];
    rewrite ?filter_filter_and; apply filter_ext; intros q;
    rewrite ?andb_true_r, ?andb_assoc; reflexivity.
Qed.

Lemma first_unasked_filter (asked : gset string) (f : pydict -> bool) (bank : list pydict) :
  match first_unasked asked (List.filter f bank) with
  | Some q =>
      exists before after,
        bank = before ++ q :: after
        /\ f q = true /\ unasked asked q
        /\ forall c, In c before -> f c = true -> ~ unasked asked c
  | None => forall c, In c bank -> f c = true -> ~ unasked asked c
  end.
Proof.
  induction bank as [|x bank IH]; simpl; [intros c []|].
  destruct (f x) eqn:Ef.
  - destruct (first_unasked asked (x :: List.filter f bank)) as [q|] eqn:E.
    + simpl in E. destruct (as_str (get x "question_id")) as [qid|] eqn:Eid.
      * case_bool_decide as Hin.
        -- rewrite E in IH. destruct IH as (before & after & -> & Hf & Hun & Hb).
           exists (x :: before), after. split; [reflexivity|]. split; [exact Hf|].
           split; [exact Hun|]. intros c [<-|Hc] Hfc; [|auto].
           intros (qid' & Hget & Hn). apply SelectionFacts.as_str_Some in Eid.
           rewrite Eid in Hget. congruence.
        -- injection E as <-. exists [], bank. split; [reflexivity|].
           split; [exact Ef|]. split; [|intros c []].
           exists qid. split; [apply SelectionFacts.as_str_Some; exact Eid|exact Hin].
      * rewrite E in IH. destruct IH as (before & after & -> & Hf & Hun & Hb).
        exists (x :: before), after. split; [reflexivity|]. split; [exact Hf|].
        split; [exact Hun|]. intros c [<-|Hc] Hfc; [|auto].
        intros (qid' & Hget & Hn). rewrite Hget in Eid. discriminate.
    + pose proof (proj1 (SelectionFacts.first_unasked_None _ _) E) as Hnone.
      intros c [<-|Hc] Hfc.
      * apply Hnone. simpl. auto.
      * apply Hnone. simpl. right. apply filter_In. auto.
  - destruct (first_unasked asked (List.filter f bank)) as [q|].
    + destruct IH as (before & after & -> & Hf & Hun & Hb).
      exists (x :: before), after. split; [reflexivity|]. split; [exact Hf|].
      split; [exact Hun|]. intros c [<-|Hc] Hfc; [congruence|auto].
    + intros c [<-|Hc] Hfc; [congruence|auto].
Qed.

(** Property X8. [pick_next_question] returns the first entry of the bank, in the bank's
    order, that has the requested difficulty, topic and type (a falsy topic
    or an empty type not filtering) and whose identifier has not been asked;
    it returns [None] exactly when the bank has no such entry. *)
Theorem pick_next_question_first_match (asked : gset string) (topic : option string)
    (difficulty : Z) (qtype : string) :
  let wanted := matches topic difficulty (Some qtype) in
  match pick_next_question asked topic difficulty qtype with
  | Some q =>
      exists before after,
        QUESTION_BANK = before ++ q :: after
        /\ wanted q = true /\ unasked asked q
        /\ forall c, In c before -> wanted c = true -> ~ unasked asked c
  | None => forall c, In c QUESTION_BANK -> wanted c = true -> ~ unasked asked c
  end.
Proof.
  cbv zeta. unfold pick_next_question. rewrite get_candidates_matches.
  apply first_unasked_filter.
Qed.

Lemma given_named (o : option string) (t : string) : given o = Some t -> t <> "".
Proof.
  destruct o as [s|]; simpl; [|discriminate].
  destruct (String.eqb s "") eqn:E; [discriminate|].
  intros [= <-]. apply String.eqb_neq. exact E.
Qed.

Section WithHash.

Variable _hash_prompt : string -> string.

Lemma policy_update_topic_parts (st : InterviewState) :
  let ts := topic_state st in
  let ts' := new_topic_state (policy_update_node _hash_prompt st) in
  exists t,
    t <> ""
    /\ (t = select_next_topic (skill_matrix st) ts
        \/ exists o, observer_json st = Some o
                     /\ t = normalize_topic (Schemas.na_topic (Schemas.next_action o))
                     /\ t ∉ Str.last_n 2 (last_topics ts))
    /\ current_topic ts' = Some t
    /\ last_topics ts' = Str.last_n 5 (last_topics ts ++ [t])
    /\ last (last_topics ts') = Some t
    /\ (length (last_topics ts') <= 5)%nat
    /\ coverage ts' !! t = Some (default 0 (coverage ts !! t) + 1)
    /\ (forall t', t' <> t -> coverage ts' !! t' = coverage ts !! t')
    /\ (length (last_prompts_hashes ts')
        <= Nat.max 5 (length (last_prompts_hashes ts)))%nat.
Proof.
  cbv zeta. unfold policy_update_node. cbv zeta. cbn [new_topic_state].
  set (sel0 := select_next_topic (skill_matrix st) (topic_state st)).
  set (soft := given match given match observer_json st with
                                 | Some o => Some (Schemas.na_topic (Schemas.next_action o))
                                 | None => None
                                 end with
                     | Some t => Some (normalize_topic t)
                     | None => None
                     end).
  set (sel := match soft with
              | Some t => if bool_decide (t ∈ Str.last_n 2 (last_topics (topic_state st)))
                          then sel0 else t
              | None => sel0
              end).
  assert (H0 : sel0 <> "") by (apply pool_topics_named, select_next_topic_pool).
  assert (Hsel : sel <> ""
                 /\ (sel = sel0
                     \/ exists o, observer_json st = Some o
                          /\ sel = normalize_topic (Schemas.na_topic (Schemas.next_action o))
                          /\ sel ∉ Str.last_n 2 (last_topics (topic_state st)))).
  { unfold sel. destruct soft as [t|] eqn:Hsoft; [|auto].
    case_bool_decide as Hrecent; [auto|].
    split; [exact (given_named _ _ Hsoft)|]. right.
    unfold soft in Hsoft. destruct (observer_json st) as [o|]; [|discriminate].
    exists o. split; [reflexivity|]. split; [|exact Hrecent].
    destruct (given (Some _)) as [raw|] eqn:Hraw; [|discriminate].
    simpl in Hraw. destruct (String.eqb _ ""); [discriminate|]. injection Hraw as <-.
    simpl in Hsoft. destruct (String.eqb _ ""); [discriminate|]. congruence. }
  match goal with
  | |- context [plan_question ?a ?t ?d ?f] => set (planned := plan_question a t d f)
  end.
  match goal with
  | |- context [fst (fst ?g)] => set (guarded := g)
  end.
  assert (Hg : (snd (fst guarded) <> ""
                /\ (snd (fst guarded) = sel0
                    \/ exists o, observer_json st = Some o
                         /\ snd (fst guarded)
                            = normalize_topic (Schemas.na_topic (Schemas.next_action o))
                         /\ snd (fst guarded) ∉ Str.last_n 2 (last_topics (topic_state st))))
               /\ last_topics (fst (fst guarded)) = last_topics (topic_state st)
               /\ coverage (fst (fst guarded)) = coverage (topic_state st)
               /\ (length (last_prompts_hashes (fst (fst guarded)))
                   <= Nat.max 5 (length (last_prompts_hashes (topic_state st))))%nat).
  { unfold guarded. destruct planned as [q|]; [|cbn; intuition lia].
    destruct q as [|kv q]; [cbn; intuition lia|].
    destruct (as_str (get (kv :: q) "prompt")) as [prompt|]; [|cbn; intuition lia].
    unfold detect_loop.
    match goal with |- context [Nat.leb 3 ?n && ?b] => destruct (Nat.leb 3 n && b) end;
      cbn [fst snd last_topics coverage last_prompts_hashes].
    - split; [|split; [reflexivity|split; [reflexivity|]]].
      + unfold break_loop. split; [exact H0|left; reflexivity].
      + pose proof (LoopFacts.last_n_length 5
                      (last_prompts_hashes (topic_state st) ++ [_hash_prompt prompt])). lia.
    - split; [exact Hsel|]. split; [reflexivity|]. split; [reflexivity|].
      pose proof (LoopFacts.last_n_length 5
                    (last_prompts_hashes (topic_state st) ++ [_hash_prompt prompt])). lia. }
  destruct Hg as ((Hne & Horigin) & Hlast & Hcov & Hring).
  exists (snd (fst guarded)).
  apply String.eqb_neq in Hne as Hneb. rewrite Hneb.
  cbn [current_topic last_topics coverage last_prompts_hashes].
  split; [exact Hne|]. split; [exact Horigin|]. split; [reflexivity|].
  split; [reflexivity|]. split.
  { rewrite (LoopFacts.last_n_app 4 5 _ [snd (fst guarded)]) by reflexivity.
    apply last_snoc. }
  split; [apply LoopFacts.last_n_length|]. rewrite Hcov.
  split; [apply lookup_insert_eq|].
  split; [intros t' Ht'; apply lookup_insert_ne; congruence|exact Hring].
Qed.

End WithHash.

End RankingFacts.

(** ** The robustness detector and the branch of the turn *)

Module RobustnessFacts.

Import Py Router Robustness Turn Nodes Spec Adaptability.
Local Open Scope string_scope.
Local Open Scope list_scope.

Lemma split_on_clean (sep : ascii -> bool) (c : ascii) (text : string) :
  sep c = true -> forall p, In p (split_on sep text) -> contains_char c p = false.
Proof.
  intros Hsep. induction text as [|c' rest IH]; simpl.
  - intros p [<-|[]]. reflexivity.
  - destruct (sep c') eqn:Ec'.
    + intros p [<-|Hp]; [reflexivity|auto].
    + destruct (split_on sep rest) as [|piece pieces].
      * intros p [<-|[]]. simpl. rewrite orb_false_r.
        apply Ascii.eqb_neq. intros ->. congruence.
      * intros p [<-|Hp]; [|apply IH; simpl; auto].
        simpl. rewrite (IH piece) by (simpl; auto). rewrite orb_false_r.
        apply Ascii.eqb_neq. intros ->. congruence.
Qed.

Lemma lstrip_clean (c : ascii) (s : string) :
  contains_char c s = false -> contains_char c (Str.lstrip s) = false.
Proof.
  induction s as [|c' s IH]; simpl; [reflexivity|].
  intros H. apply orb_false_iff in H as [Hc Hs].
  destruct (Str.is_space c'); [auto|]. simpl. rewrite Hc, Hs. reflexivity.
Qed.

Lemma rstrip_clean (c : ascii) (s : string) :
  contains_char c s = false -> contains_char c (Str.rstrip s) = false.
Proof.
  induction s as [|c' s IH]; simpl; [reflexivity|].
  intros H. apply orb_false_iff in H as [Hc Hs]. specialize (IH Hs).
  destruct (Str.rstrip s) as [|k kept].
  - destruct (Str.is_space c'); [reflexivity|]. simpl. rewrite Hc. reflexivity.
  - change (contains_char c (String c' (String k kept)))
      with (Ascii.eqb c' c || contains_char c (String k kept)).
    rewrite Hc, IH. reflexivity.
Qed.

Lemma strip_clean (c : ascii) (s : string) :
  contains_char c s = false -> contains_char c (Str.strip s) = false.
Proof. intros H. apply rstrip_clean, lstrip_clean, H. Qed.

Section WithStrip.

Variable strip : string -> string.

(** Property X10. The candidate's question is the whole stripped message whenever the
    message holds a question mark, and [None] otherwise: the pieces of the
    split hold no question mark, so the search for the last questioning
    sentence never succeeds. *)
Theorem extract_candidate_question_whole (text : string) :
  (forall s, contains_char "?" s = false -> contains_char "?" (strip s) = false) ->
  _extract_candidate_question strip text
  = if contains_char "?" text then Some (strip text) else None.
Proof.
  intros Hstrip. unfold _extract_candidate_question.
  destruct (contains_char "?" text); [|reflexivity]. cbn [negb].
  assert (Hnone : List.find (contains_char "?")
                    (rev (List.filter (fun p => negb (String.eqb p ""))
                            (map strip (split_on is_sentence_end text)))) = None).
  { match goal with |- ?f = None => destruct f as [p|] eqn:Hfind end; [|reflexivity].
    apply find_some in Hfind as [Hp Hq]. apply in_rev in Hp.
    apply filter_In in Hp as [Hp _]. apply in_map_iff in Hp as (piece & <- & Hpiece).
    rewrite Hstrip in Hq; [discriminate|].
    apply (split_on_clean is_sentence_end "?" text); [reflexivity|exact Hpiece]. }
  rewrite Hnone. reflexivity.
Qed.

Lemma detect_robustness_flags (user_message : option string) (observer_json : pyval) :
  let det := detect_robustness strip user_message observer_json in
  off_topic det = robustness_flag observer_json "off_topic"
  /\ role_reversal det = robustness_flag observer_json "role_reversal"
  /\ hallucination_claim det = robustness_flag observer_json "hallucination_claim"
  /\ evasive det = robustness_flag observer_json "evasive".
Proof.
  cbv zeta. unfold detect_robustness, robustness_flag.
  cbn [off_topic role_reversal hallucination_claim evasive].
  destruct observer_json as [| | | | | |oj]; try (repeat split; reflexivity).
  cbn [as_dict]. destruct (get_or oj "robustness" (PDict [])) as [|b|z|f|s|xs|r] eqn:E;
    cbn [truthy as_dict];
    try (repeat split; reflexivity).
  - destruct b; repeat split; reflexivity.
  - destruct (negb (Z.eqb z 0)); repeat split; reflexivity.
  - destruct (negb (float_is_zero f)); repeat split; reflexivity.
  - destruct (negb (String.eqb s "")); repeat split; reflexivity.
  - destruct xs; repeat split; reflexivity.
  - destruct r; repeat split; reflexivity.
Qed.


(** Property X11. [detect_robustness] reads the four flags as the
    action-type decision reads them, whatever value is stored as the
    evaluator's output; it reports "no issues detected" exactly when none is
    set, quotes the stripped message as the suspicious claim exactly when the
    hallucination flag is set, and extracts a question only on a role
    reversal. *)
Theorem detect_robustness_report (user_message : option string) (observer_json : pyval) :
  let det := detect_robustness strip user_message observer_json in
  let message := strip match given user_message with Some s => s | None => "" end in
  off_topic det = robustness_flag observer_json "off_topic"
  /\ role_reversal det = robustness_flag observer_json "role_reversal"
  /\ hallucination_claim det = robustness_flag observer_json "hallucination_claim"
  /\ evasive det = robustness_flag observer_json "evasive"
  /\ (reason det = "no issues detected"
      <-> off_topic det || role_reversal det || hallucination_claim det || evasive det
          = false)
  /\ suspicious_claim det = (if hallucination_claim det then Some message else None)
  /\ candidate_question det
     = (if role_reversal det then _extract_candidate_question strip message else None).
Proof.
  cbv zeta.
  destruct (detect_robustness_flags user_message observer_json) as (H1 & H2 & H3 & H4).
  split; [exact H1|]. split; [exact H2|]. split; [exact H3|]. split; [exact H4|].
  split; [|split; reflexivity].
  unfold detect_robustness.
  cbn [off_topic role_reversal hallucination_claim evasive reason].
  match goal with
  | |- context [as_dict ?r] => generalize r
  end.
  intros r. destruct (as_dict r) as [d|]; [|vm_compute; split; congruence].
  destruct (truthy (get d "off_topic")), (truthy (get d "role_reversal")),
    (truthy (get d "hallucination_claim")), (truthy (get d "evasive"));
    vm_compute; split; congruence.
Qed.

Variable _hash_prompt : string -> string.

(** Property X12. In a turn that is not stopped, the action type the policy update
    records is decided by the evaluator's flags in the order role reversal,
    hallucination, off topic, and by the answer's quality when none is set;
    the branch the graph takes after the policy update is the one this
    action type names. *)
Theorem turn_action_follows_route (st : InterviewState) (user_message : option string)
    (internal_thoughts : string) :
  let oj := observer_dict st in
  let det := robustness_detect_node strip false user_message oj internal_thoughts in
  let u := policy_update_node _hash_prompt (with_route st (det_route det)) in
  new_action_type u =
    (if robustness_flag oj "role_reversal" then "answer_candidate"
     else if robustness_flag oj "hallucination_claim" then "hallucination"
     else if robustness_flag oj "off_topic" then "refocus"
     else if low_or_incorrect (quality_signal oj "correctness")
             || low_confidence (quality_signal oj "confidence") then "simplify"
     else if partial_or_mixed (quality_signal oj "correctness") then "clarify"
     else if bool_decide (action_type st = Some "simplify") then "hint"
     else "ask")
  /\ node_after_policy (Some (det_route det)) =
       (if String.eqb (new_action_type u) "answer_candidate" then "answer_candidate"
        else if String.eqb (new_action_type u) "refocus" then "refocus"
        else if String.eqb (new_action_type u) "hallucination" then "factcheck"
        else "interviewer_generate").
Proof.
  cbv zeta. unfold robustness_detect_node. cbn [det_route].
  destruct (detect_robustness_flags user_message (observer_dict st))
    as (Hoff & Hrole & Hhall & _).
  unfold choose_route. rewrite Hoff, Hrole, Hhall.
  set (oj := observer_dict st).
  assert (Hspecial : forall r, is_special r = true ->
            new_action_type (policy_update_node _hash_prompt (with_route st r)) = r).
  { intros r Hr. apply RouterFacts.policy_update_action_special; [reflexivity|exact Hr]. }
  destruct (robustness_flag oj "role_reversal") eqn:Erole.
  { rewrite Hspecial by reflexivity. split; reflexivity. }
  destruct (robustness_flag oj "hallucination_claim") eqn:Ehall.
  { rewrite Hspecial by reflexivity. split; reflexivity. }
  destruct (robustness_flag oj "off_topic") eqn:Eoff.
  { rewrite Hspecial by reflexivity. split; reflexivity. }
  rewrite RouterFacts.policy_update_action_normal
    by (intros r [= <-]; reflexivity).
  change (match observer_json (with_route st "normal") with
          | Some o => Schemas.model_dump o
          | None => PDict []
          end) with oj.
  change (action_type (with_route st "normal")) with (action_type st).
  rewrite AdaptabilityFacts.decide_action_type_cases. rewrite Eoff, Erole.
  split; [reflexivity|].
  destruct (low_or_incorrect _ || low_confidence _); [reflexivity|].
  destruct (partial_or_mixed _); [reflexivity|].
  case_bool_decide; reflexivity.
Qed.

End WithStrip.

Lemma extract_candidate_question_whole_witness :
  _extract_candidate_question Str.strip " What is the salary? I am curious. "
  = Some "What is the salary? I am curious.".
Proof.
  apply (extract_candidate_question_whole Str.strip " What is the salary? I am curious. ").
  apply strip_clean.
Defined.

End RobustnessFacts.

(** ** The window on the history and the normalisation of texts *)

Module LimitsFacts.

Import Windowing SafetyLimits.
Local Open Scope list_scope.
Local Open Scope Z_scope.

(** Property X14. The window: for a positive [max_items] the tail is the suffix of the
    history of that length, or the whole history when it is shorter; for
    [max_items = 0] it is the whole history, not an empty one; for a negative
    one the first [- max_items] items are dropped. *)
Theorem history_tail_window {A : Type} (history : list A) (max_items : Z) :
  let tail := history_tail history max_items in
  (exists dropped, history = dropped ++ tail)
  /\ (1 <= max_items ->
      length tail = Nat.min (length history) (Z.to_nat max_items))
  /\ (max_items = 0 -> tail = history)
  /\ (max_items < 0 -> tail = drop (Z.to_nat (- max_items)) history).
Proof.
  cbv zeta. unfold history_tail, slice_from.
  destruct history as [|x history].
  { split; [exists []; reflexivity|]. split; [reflexivity|]. split; [reflexivity|].
    intros _. rewrite drop_nil. reflexivity. }
  set (h := x :: history). set (n := Z.of_nat (length h)).
  split; [eexists; symmetry; apply take_drop|].
  split; [|split].
  - intros Hk. replace (- max_items <? 0) with true by (symmetry; apply Z.ltb_lt; lia).
    rewrite length_drop. fold n. lia.
  - intros ->. reflexivity.
  - intros Hk. replace (- max_items <? 0) with false by (symmetry; apply Z.ltb_ge; lia).
    fold n. destruct (Z.le_gt_cases (- max_items) n) as [Hle|Hgt].
    + rewrite Z.min_l by lia. reflexivity.
    + rewrite Z.min_r by lia. rewrite !drop_ge by (unfold n in *; lia). reflexivity.
Qed.

Lemma lstrip_Forall (P : Z -> Prop) (s : list Z) : Forall P s -> Forall P (lstrip s).
Proof.
  induction 1 as [|c s Hc Hs IH]; simpl; [constructor|].
  destruct (isspace c); [exact IH|constructor; assumption].
Qed.

Lemma rstrip_Forall (P : Z -> Prop) (s : list Z) : Forall P s -> Forall P (rstrip s).
Proof.
  induction 1 as [|c s Hc Hs IH]; simpl; [constructor|].
  destruct (rstrip s) as [|k kept].
  - destruct (isspace c); constructor; [assumption|constructor].
  - constructor; assumption.
Qed.

Lemma lstrip_head (s : list Z) (c : Z) (rest : list Z) :
  lstrip s = c :: rest -> isspace c = false.
Proof.
  induction s as [|c' s IH]; simpl; [discriminate|].
  destruct (isspace c') eqn:E; [exact IH|]. intros [= <- <-]. exact E.
Qed.

(** Stripping on the right keeps the first of a text that starts with a
    visible character. *)
Lemma rstrip_head (c : Z) (s : list Z) :
  isspace c = false -> exists rest, rstrip (c :: s) = c :: rest.
Proof.
  intros Hc. simpl. destruct (rstrip s) as [|k kept]; [|eauto].
  rewrite Hc. eauto.
Qed.

Lemma lstrip_nil (s : list Z) : lstrip s = [] <-> Forall (fun c => isspace c = true) s.
Proof.
  induction s as [|c s IH]; simpl; [split; constructor|].
  destruct (isspace c) eqn:E.
  - rewrite IH. split; [intros H; constructor; assumption|].
    intros H. apply Forall_cons in H. tauto.
  - split; [discriminate|]. intros H. apply Forall_cons in H. destruct H. congruence.
Qed.

Lemma strip_head (s : list Z) (c : Z) (rest : list Z) :
  strip s = c :: rest -> isspace c = false.
Proof.
  unfold strip. destruct (lstrip s) as [|c' s'] eqn:E; [discriminate|].
  pose proof (lstrip_head _ _ _ E) as Hc'.
  destruct (rstrip_head c' s' Hc') as [rest' ->]. intros [= <- _]. exact Hc'.
Qed.

Lemma strip_nil (s : list Z) : strip s = [] <-> Forall (fun c => isspace c = true) s.
Proof.
  rewrite <- lstrip_nil. unfold strip.
  destruct (lstrip s) as [|c' s'] eqn:E; [split; reflexivity|].
  pose proof (lstrip_head _ _ _ E) as Hc'.
  destruct (rstrip_head c' s' Hc') as [rest' ->]. split; discriminate.
Qed.

Lemma normalize_text_parts (s : list Z) (max_len : Z) :
  0 <= max_len ->
  let r := normalize_text (Some s) max_len in
  Z.of_nat (length r) <= max_len
  /\ Forall (fun c => allowed c = true) r
  /\ (forall c rest, r = c :: rest -> isspace c = false)
  /\ (1 <= max_len ->
      (r = [] <-> Forall (fun c => allowed c = false \/ isspace c = true) s)).
Proof.
  intros Hmax. cbv zeta. unfold normalize_text.
  set (cleaned := map (fun c => if allowed c then c else 32) s).
  assert (Hallowed : Forall (fun c => allowed c = true) (strip cleaned)).
  { apply rstrip_Forall, lstrip_Forall. unfold cleaned. apply Forall_map.
    apply Forall_forall. intros c _. simpl. destruct (allowed c) eqn:E; [exact E|reflexivity]. }
  assert (Hblank : strip cleaned = []
                   <-> Forall (fun c => allowed c = false \/ isspace c = true) s).
  { rewrite strip_nil. unfold cleaned. rewrite Forall_map. apply Forall_iff. intros c.
    simpl. destruct (allowed c) eqn:E; [|split; [auto|reflexivity]].
    split; [auto|]. intros [H|H]; [discriminate|exact H]. }
  destruct (strip cleaned) as [|c rest] eqn:Hstrip.
  { split; [simpl; lia|]. split; [constructor|]. split; [discriminate|].
    intros _. exact Hblank. }
  pose proof (strip_head _ _ _ Hstrip) as Hc.
  destruct (Z.of_nat (length (c :: rest)) >? max_len) eqn:Hlong.
  - apply Z.gtb_lt in Hlong. unfold slice_to.
    replace (max_len <? 0) with false by (symmetry; apply Z.ltb_ge; lia).
    rewrite Z.min_l by lia.
    split; [rewrite length_take; lia|].
    split; [apply Forall_take; exact Hallowed|]. split.
    + intros c' rest'. destruct (Z.to_nat max_len) as [|k]; [discriminate|].
      simpl. intros [= <- _]. exact Hc.
    + intros Hpos. destruct (Z.to_nat max_len) as [|k] eqn:Hk; [lia|].
      simpl. rewrite <- Hblank. split; discriminate.
  - assert (Hshort : Z.of_nat (length (c :: rest)) <= max_len).
    { destruct (Z.gtb_spec (Z.of_nat (length (c :: rest))) max_len); [discriminate|lia]. }
    split; [exact Hshort|]. split; [exact Hallowed|]. split.
    + intros c' rest' [= <- _]. exact Hc.
    + intros _. exact Hblank.
Qed.

(** Property X15. The normalised text, for a limit that is not negative: it is no longer
    than the limit; it holds allowed characters only; it starts with a
    visible character; and, for a positive limit, it is empty exactly when
    the text has no allowed visible character. *)
Theorem normalize_text_safe (s : list Z) (max_len : Z) :
  0 <= max_len ->
  let r := normalize_text (Some s) max_len in
  Z.of_nat (length r) <= max_len
  /\ Forall (fun c => allowed c = true) r
  /\ (forall c rest, r = c :: rest -> isspace c = false)
  /\ (1 <= max_len ->
      (r = [] <-> Forall (fun c => allowed c = false \/ isspace c = true) s)).
Proof. exact (normalize_text_parts s max_len). Qed.

Lemma normalize_text_safe_witness :
  let r := normalize_text (Some [32; 1055; 8203; 111; 32; 33; 10]) 4 in
  Z.of_nat (length r) <= 4
  /\ Forall (fun c => allowed c = true) r
  /\ (forall c rest, r = c :: rest -> isspace c = false)
  /\ (1 <= 4 ->
      (r = [] <-> Forall (fun c => allowed c = false \/ isspace c = true)
                    [32; 1055; 8203; 111; 32; 33; 10])).
Proof. apply (normalize_text_safe [32; 1055; 8203; 111; 32; 33; 10] 4). lia. Defined.

End LimitsFacts.

(** ** The skill matrix, topic by topic and turn after turn *)

Module SkillsViewFacts.

Import Py Skills SkillsView State Nodes Turn Session.
Local Open Scope string_scope.
Local Open Scope list_scope.

Lemma fold_updated_evidence (items : list Update) (e : Entry) :
  evidence (fold_left updated_entry items e)
  = evidence e ++ omap (fun item => given (item_evidence item)) items.
Proof.
  revert e. induction items as [|item items IH]; intros e; simpl.
  - rewrite app_nil_r. reflexivity.
  - rewrite IH. unfold updated_entry at 1. cbn [evidence].
    change (omap ?f (item :: items))
      with (match f item with Some y => y :: omap f items | None => omap f items end).
    destruct (given (item_evidence item)); [rewrite <- app_assoc|]; reflexivity.
Qed.

Lemma added_evidence_own (t : string) (updates : list Update) :
  added_evidence t updates
  = omap (fun item => given (item_evidence item)) (own_updates t updates).
Proof.
  unfold added_evidence, own_updates.
  induction updates as [|item updates IH]; [reflexivity|].
  change (omap ?f (item :: updates))
    with (match f item with Some y => y :: omap f updates | None => omap f updates end).
  cbn [List.filter]. case_bool_decide; [|exact IH].
  change (omap ?f (item :: ?l))
    with (match f item with Some y => y :: omap f l | None => omap f l end).
  rewrite IH. reflexivity.
Qed.

Lemma fold_updated_confirmed (items : list Update) (e : Entry) :
  status (fold_left updated_entry items e) = Some "confirmed" ->
  status e = Some "confirmed"
  \/ exists item, In item items /\ item_status item = Some "confirmed".
Proof.
  revert e. induction items as [|item items IH]; intros e; simpl; [auto|].
  intros H. destruct (IH _ H) as [Hc|(item' & Hin & Hc)]; [|eauto].
  unfold updated_entry in Hc. cbn [status] in Hc.
  destruct (bool_decide (status e = Some "confirmed")
            && negb (bool_decide (item_status item = Some "confirmed"))); [auto|].
  destruct (item_status item) as [s|] eqn:Hs; cbn [given] in Hc.
  - destruct (String.eqb s ""); [auto|]. right. exists item. split; [auto|]. congruence.
  - auto.
Qed.

Lemma apply_skill_updates_lookup (updates : list Update) :
  forall (m : gmap string Entry) (t : string),
    apply_skill_updates m updates !! t
    = match own_updates t updates with
      | [] => m !! t
      | own => Some (fold_left updated_entry own (prior_entry m t))
      end.
Proof.
  unfold apply_skill_updates, prior_entry.
  induction updates as [|item updates IH]; intros m t; [reflexivity|].
  cbn [fold_left own_updates List.filter]. rewrite IH. fold (own_updates t updates).
  case_bool_decide as Ht.
  - rewrite (SkillsFacts.apply_one_same _ _ _ Ht). cbn [default fold_left].
    destruct (own_updates t updates); reflexivity.
  - rewrite (SkillsFacts.apply_one_other _ _ _ Ht). reflexivity.
Qed.

(** Property X19. The entry of a topic after the updates depends on its own updates only:
    with none it is what it was; otherwise it is the fold of its updates, in
    order, from its prior entry, so that its evidence is the prior evidence
    followed by the evidence the updates add, and its status is "confirmed"
    only if it was so before or one of its updates says so. *)
Theorem apply_skill_updates_per_topic (m : gmap string Entry) (updates : list Update)
    (t : string) :
  let after := apply_skill_updates m updates !! t in
  let own := own_updates t updates in
  after = match own with
          | [] => m !! t
          | _ :: _ => Some (fold_left updated_entry own (prior_entry m t))
          end
  /\ (forall e', after = Some e' ->
        evidence e' = evidence (prior_entry m t) ++ added_evidence t updates)
  /\ (forall e', after = Some e' -> status e' = Some "confirmed" ->
        status (prior_entry m t) = Some "confirmed"
        \/ exists item, In item own /\ item_status item = Some "confirmed").
Proof.
  cbv zeta. rewrite apply_skill_updates_lookup. rewrite added_evidence_own.
  destruct (own_updates t updates) as [|item own] eqn:Hown; (split; [reflexivity|]).
  - split.
    + intros e' He'. unfold prior_entry. rewrite He'. cbn. rewrite app_nil_r. reflexivity.
    + intros e' He' Hc. left. unfold prior_entry. rewrite He'. exact Hc.
  - split.
    + intros e' [= <-]. exact (fold_updated_evidence (item :: own) _).
    + intros e' [= <-] Hc. exact (fold_updated_confirmed (item :: own) _ Hc).
Qed.

Section WithEnvironment.

Variable strip : string -> string.
Variable _hash_prompt : string -> string.

Lemma turn_skill_matrix (st : SessionState) (input : TurnInput) :
  skill_matrix (Session.turn strip _hash_prompt st input)
  = apply_skill_updates (skill_matrix st)
      (map skill_update_item (Schemas.skill_updates (observer_output input))).
Proof. reflexivity. Qed.

(** Property X20. Over a session, a topic that is confirmed stays confirmed after every
    later turn, whatever the evaluator says, and the evidence recorded for it
    is only ever extended. *)
Theorem session_confirmed_sticks (inputs : list TurnInput) (st : SessionState)
    (t : string) (e : Entry) :
  skill_matrix st !! t = Some e -> status e = Some "confirmed" ->
  Forall (fun st' => exists e', skill_matrix st' !! t = Some e'
                                /\ status e' = Some "confirmed"
                                /\ exists added, evidence e' = evidence e ++ added)
    (Session.session strip _hash_prompt st inputs).
Proof.
  revert st e. induction inputs as [|input rest IH]; intros st e Hlookup Hconfirmed;
    cbn [Session.session]; [constructor|].
  destruct (SkillsFacts.apply_skill_updates_confirmed
              (map skill_update_item (Schemas.skill_updates (observer_output input)))
              _ _ _ Hlookup Hconfirmed) as (e1 & Hlookup1 & Hconfirmed1 & Hevidence1).
  rewrite <- turn_skill_matrix in Hlookup1.
  constructor; [eauto 6|].
  specialize (IH _ _ Hlookup1 Hconfirmed1).
  eapply Forall_impl; [exact IH|].
  intros st' (e' & Hl & Hc & added & Hadded). exists e'. split; [exact Hl|].
  split; [exact Hc|]. rewrite Hadded, Hevidence1, <- app_assoc. eauto.
Qed.

End WithEnvironment.

Lemma session_confirmed_sticks_witness :
  Forall (fun st' => exists e', skill_matrix st' !! "python_types" = Some e'
                                /\ status e' = Some "confirmed"
                                /\ exists added, evidence e' = ["explained tuples"] ++ added)
    (Session.session Str.strip (fun _ => "") Samples.seasoned_state
       [Samples.failed_first_turn]).
Proof.
  apply (session_confirmed_sticks Str.strip (fun _ => "") [Samples.failed_first_turn]
           Samples.seasoned_state "python_types"
           {| status := Some "confirmed"; evidence := ["explained tuples"] |}).
  - reflexivity.
  - reflexivity.
Defined.

End SkillsViewFacts.

(** ** The log of the turns *)

Module LoggerFacts.

Import Py SafetyLimits InterviewLogger.
Local Open Scope list_scope.
Local Open Scope Z_scope.

Lemma new_turn_visible (i : Z) (a u t : list Z) :
  visible t ->
  new_turn i a u t
  = inr {| turn_id := i; agent_visible_message := a; user_message := u;
           internal_thoughts := t |}.
Proof. unfold visible, new_turn. destruct (strip t); [congruence|reflexivity]. Qed.

Lemma new_turn_blank (i : Z) (a u t : list Z) :
  ~ visible t -> new_turn i a u t = inl BlankThoughts.
Proof.
  unfold visible, new_turn. destruct (strip t); [reflexivity|].
  intros H. exfalso. apply H. discriminate.
Qed.

Lemma visible_dec (t : list Z) : {visible t} + {~ visible t}.
Proof.
  unfold visible. destruct (strip t); [right; intros H; apply H; reflexivity|left; discriminate].
Qed.

Lemma validate_turns_spec (ts : list TurnLog) :
  match validate_turns ts with
  | inr ts' => ts' = ts /\ Forall (fun t => visible (internal_thoughts t)) ts
  | inl e => e = BlankThoughts /\ ~ Forall (fun t => visible (internal_thoughts t)) ts
  end.
Proof.
  induction ts as [|t ts IH]; simpl; [split; [reflexivity|constructor]|].
  destruct (visible_dec (internal_thoughts t)) as [Hv|Hv].
  - rewrite (new_turn_visible _ _ _ _ Hv).
    destruct (validate_turns ts) as [e|ts'].
    + destruct IH as [-> Hn]. split; [reflexivity|].
      intros H. apply Forall_cons in H. tauto.
    + destruct IH as [-> Hall]. split; [destruct t; reflexivity|].
      constructor; assumption.
  - rewrite (new_turn_blank _ _ _ _ Hv). split; [reflexivity|].
    intros H. apply Forall_cons in H. tauto.
Qed.

Lemma model_validate_spec (file : InterviewLog) :
  match model_validate file with
  | inr log => log = file /\ Forall (fun t => visible (internal_thoughts t)) (turns file)
  | inl e => e = BlankThoughts
             /\ ~ Forall (fun t => visible (internal_thoughts t)) (turns file)
  end.
Proof.
  unfold model_validate. pose proof (validate_turns_spec (turns file)) as H.
  destruct (validate_turns (turns file)) as [e|ts]; [exact H|].
  destruct H as [-> Hall]. split; [destruct file; reflexivity|exact Hall].
Qed.

(** A normalised text that is not empty is visible. *)
Lemma normalize_text_visible (s : list Z) (max_len : Z) :
  0 <= max_len -> normalize_text (Some s) max_len <> [] ->
  visible (normalize_text (Some s) max_len).
Proof.
  intros Hmax Hne. unfold visible.
  destruct (LimitsFacts.normalize_text_parts s max_len Hmax) as (_ & _ & Hhead & _).
  destruct (normalize_text (Some s) max_len) as [|c rest] eqn:E; [congruence|].
  specialize (Hhead c rest eq_refl). unfold strip. simpl. rewrite Hhead.
  destruct (LimitsFacts.rstrip_head c rest Hhead) as [kept ->]. discriminate.
Qed.

Lemma logger_node_cases (state : LoggerState) (file : InterviewLog) :
  let thoughts := normalize_text (Some (state_internal_thoughts state)) 4000 in
  let stored_fine := Forall (fun t => visible (internal_thoughts t)) (turns file) in
  let number_fine :=
    forall recent, last (turns file) = Some recent -> turn_id recent < state_turn_id state + 1 in
  match logger_node state file with
  | inr (state', file') =>
      stored_fine /\ number_fine /\ thoughts <> []
      /\ state_turn_id state' = state_turn_id state + 1
      /\ last_agent_message state' = Some (state_agent_visible_message state)
      /\ turns file' = turns file ++ [logged_turn state]
      /\ candidate_profile file' = candidate_profile file
      /\ final_feedback file' = final_feedback file
      /\ participant_name file' = DEFAULT_PARTICIPANT_NAME
  | inl TurnIdNotGreater => stored_fine /\ ~ number_fine
  | inl BlankThoughts => ~ stored_fine \/ (number_fine /\ thoughts = [])
  end.
Proof.
  cbv zeta. unfold logger_node, append_turn.
  pose proof (model_validate_spec file) as Hvalid.
  destruct (model_validate file) as [e|log]; [destruct Hvalid as [-> Hbad]; left; exact Hbad|].
  destruct Hvalid as [-> Hstored].
  destruct (last (turns file)) as [recent|] eqn:Hlast.
  - destruct (state_turn_id state + 1 <=? turn_id recent) eqn:Hle.
    + apply Z.leb_le in Hle. split; [exact Hstored|].
      intros H. specialize (H recent eq_refl). lia.
    + apply Z.leb_gt in Hle.
      assert (Hnum : forall r, Some recent = Some r -> turn_id r < state_turn_id state + 1)
        by (intros r [= <-]; exact Hle).
      destruct (normalize_text (Some (state_internal_thoughts state)) 4000)
        as [|c rest] eqn:Hth.
      * rewrite new_turn_blank by (intros H; apply H; reflexivity).
        right. split; [exact Hnum|reflexivity].
      * rewrite new_turn_visible
          by (rewrite <- Hth; apply normalize_text_visible; [lia|congruence]).
        cbn [state_turn_id last_agent_message turns candidate_profile final_feedback
             participant_name].
        unfold logged_turn. rewrite Hth.
        destruct (last_agent_message state); repeat split; try assumption; discriminate.
  - assert (Hnum : forall r, @None TurnLog = Some r -> turn_id r < state_turn_id state + 1)
      by discriminate.
    destruct (normalize_text (Some (state_internal_thoughts state)) 4000)
      as [|c rest] eqn:Hth.
    + rewrite new_turn_blank by (intros H; apply H; reflexivity).
      right. split; [exact Hnum|reflexivity].
    + rewrite new_turn_visible
        by (rewrite <- Hth; apply normalize_text_visible; [lia|congruence]).
      cbn [state_turn_id last_agent_message turns candidate_profile final_feedback
           participant_name].
      unfold logged_turn. rewrite Hth.
      destruct (last_agent_message state); repeat split; try assumption; discriminate.
Qed.

(** Property X16. [logger_node] appends one turn, numbered one more than the record's,
    with the three normalised texts, and keeps the rest of the file; it
    raises when a stored turn has blank thoughts, when the new number is not
    greater than the last stored one, and when the thoughts normalise to
    nothing: the blank put in their place is refused by [TurnLog]. *)
Theorem logger_node_outcome (state : LoggerState) (file : InterviewLog) :
  let thoughts := normalize_text (Some (state_internal_thoughts state)) 4000 in
  let stored_fine := Forall (fun t => visible (internal_thoughts t)) (turns file) in
  let number_fine :=
    forall recent, last (turns file) = Some recent -> turn_id recent < state_turn_id state + 1 in
  match logger_node state file with
  | inr (state', file') =>
      stored_fine /\ number_fine /\ thoughts <> []
      /\ state_turn_id state' = state_turn_id state + 1
      /\ last_agent_message state' = Some (state_agent_visible_message state)
      /\ turns file' = turns file ++ [logged_turn state]
      /\ candidate_profile file' = candidate_profile file
      /\ final_feedback file' = final_feedback file
      /\ participant_name file' = DEFAULT_PARTICIPANT_NAME
  | inl TurnIdNotGreater => stored_fine /\ ~ number_fine
  | inl BlankThoughts => ~ stored_fine \/ (number_fine /\ thoughts = [])
  end.
Proof. exact (logger_node_cases state file). Qed.

Lemma profile_extract_node_keeps (state : LoggerState) (file : InterviewLog)
    (extracted : pydict) :
  Forall (fun t => visible (internal_thoughts t)) (turns file) ->
  exists state' file',
    profile_extract_node state file extracted = inr (state', file')
    /\ turns file' = turns file
    /\ state_turn_id state' = state_turn_id state
    /\ last_agent_message state' = last_agent_message state
    /\ state_user_message state' = state_user_message state.
Proof.
  intros Hstored. unfold profile_extract_node, set_candidate_profile.
  destruct (profile_extracted state); [eauto 10|].
  destruct (negb (state_turn_id state =? -1)); [eauto 10|].
  destruct (strip (state_user_message state)); [eauto 10|].
  pose proof (model_validate_spec file) as Hvalid.
  destruct (model_validate file) as [e|log]; [destruct Hvalid as [_ Hbad]; contradiction|].
  destruct Hvalid as [-> _]. eauto 10.
Qed.

Lemma seqZ_snoc (m : Z) (n : nat) :
  seqZ m (Z.of_nat (S n)) = seqZ m (Z.of_nat n) ++ [m + Z.of_nat n].
Proof.
  replace (Z.of_nat (S n)) with (Z.of_nat n + 1) by lia.
  rewrite seqZ_app by lia. simpl. reflexivity.
Qed.

Lemma log_session_from (inputs : list Logged) :
  forall (state : LoggerState) (file : InterviewLog) (done : nat),
    state_turn_id state = Z.of_nat done - 1 ->
    Forall (fun t => visible (internal_thoughts t)) (turns file) ->
    map turn_id (turns file) = seqZ 0 (Z.of_nat done) ->
    let fine :=
      Forall (fun i => normalize_text (Some (logged_internal_thoughts i)) 4000 <> [])
        inputs in
    match log_session state file inputs with
    | inr (state', file') =>
        fine
        /\ map turn_id (turns file') = seqZ 0 (Z.of_nat (done + length inputs))
        /\ state_turn_id state' = Z.of_nat (done + length inputs) - 1
        /\ exists added, turns file' = turns file ++ added
    | inl e => e = BlankThoughts /\ ~ fine
    end.
Proof.
  induction inputs as [|input rest IH]; intros state file done Hid Hstored Hids; cbv zeta.
  - cbn [log_session length]. rewrite Nat.add_0_r.
    split; [constructor|]. split; [exact Hids|]. split; [exact Hid|].
    exists []. rewrite app_nil_r. reflexivity.
  - cbn [log_session].
    match goal with
    | |- context [profile_extract_node ?s file (logged_profile input)] =>
        destruct (profile_extract_node_keeps s file (logged_profile input) Hstored)
          as (s1 & f1 & -> & Hturns1 & Hid1 & Hlast1 & _)
    end.
    cbn [state_turn_id last_agent_message] in Hid1, Hlast1.
    match goal with
    | |- context [logger_node ?s f1] => set (s2 := s)
    end.
    pose proof (logger_node_cases s2 f1) as Hout. cbv zeta in Hout.
    change (state_internal_thoughts s2) with (logged_internal_thoughts input) in Hout.
    change (state_turn_id s2) with (state_turn_id s1) in Hout.
    destruct (logger_node s2 f1) as [e|[s3 f3]].
    + assert (Hblank : normalize_text (Some (logged_internal_thoughts input)) 4000 = []).
      { destruct e.
        - destruct Hout as [Hbad|[_ Hb]]; [|exact Hb].
          exfalso. apply Hbad. rewrite Hturns1. exact Hstored.
        - exfalso. destruct Hout as [_ Hbad]. apply Hbad. intros recent Hrecent.
          rewrite Hturns1 in Hrecent.
          assert (Hin : In (turn_id recent) (seqZ 0 (Z.of_nat done))).
          { rewrite <- Hids. apply in_map. apply list_elem_of_In.
            apply last_Some_elem_of. exact Hrecent. }
          apply list_elem_of_In, elem_of_seqZ in Hin. lia. }
      assert (Hnot : ~ Forall (fun i => normalize_text (Some (logged_internal_thoughts i))
                                          4000 <> []) (input :: rest)).
      { intros H. apply Forall_cons in H. destruct H as [H _]. contradiction. }
      destruct e; [split; [reflexivity|exact Hnot]|].
      exfalso. destruct Hout as [_ Hbad]. apply Hbad. intros recent Hrecent.
      rewrite Hturns1 in Hrecent.
      assert (Hin : In (turn_id recent) (seqZ 0 (Z.of_nat done))).
      { rewrite <- Hids. apply in_map. apply list_elem_of_In.
        apply last_Some_elem_of. exact Hrecent. }
      apply list_elem_of_In, elem_of_seqZ in Hin. lia.
    + destruct Hout as (_ & _ & Hthoughts & Hid3 & _ & Hturns3 & _).
      assert (Hstored3 : Forall (fun t => visible (internal_thoughts t)) (turns f3)).
      { rewrite Hturns3, Hturns1. apply Forall_app. split; [exact Hstored|].
        constructor; [|constructor]. cbn [logged_turn internal_thoughts].
        apply normalize_text_visible; [lia|exact Hthoughts]. }
      assert (Hids3 : map turn_id (turns f3) = seqZ 0 (Z.of_nat (S done))).
      { rewrite Hturns3, Hturns1, map_app, Hids, seqZ_snoc.
        cbn [map logged_turn turn_id].
        change (state_turn_id s2) with (state_turn_id s1). f_equal. f_equal. lia. }
      specialize (IH s3 f3 (S done) ltac:(lia) Hstored3 Hids3). cbv zeta in IH.
      destruct (log_session s3 f3 rest) as [e|[s4 f4]].
      * destruct IH as [-> Hnot]. split; [reflexivity|].
        intros H. apply Forall_cons in H. tauto.
      * destruct IH as (Hfine & Hids4 & Hid4 & added & Hadded).
        cbn [length]. replace (done + S (length rest))%nat with (S done + length rest)%nat
          by lia.
        split; [constructor; assumption|]. split; [exact Hids4|]. split; [exact Hid4|].
        exists (logged_turn s2 :: added).
        rewrite Hadded, Hturns3, Hturns1, <- app_assoc. reflexivity.
Qed.

(** Property X17. Over a session the log is numbered from 0 on, one turn per completed
    turn of the session, and the session's turn number is that of the last
    logged turn; the logging fails, on blank thoughts, exactly when the
    thoughts of some turn normalise to nothing. *)
Theorem log_session_turn_ids (greeting : list Z) (profile : pydict)
    (inputs : list Logged) :
  let fine :=
    Forall (fun i => normalize_text (Some (logged_internal_thoughts i)) 4000 <> [])
      inputs in
  match log_session (first_state greeting) (empty_log profile) inputs with
  | inr (state, file) =>
      fine
      /\ map turn_id (turns file) = seqZ 0 (Z.of_nat (length inputs))
      /\ state_turn_id state = Z.of_nat (length inputs) - 1
  | inl e => e = BlankThoughts /\ ~ fine
  end.
Proof.
  cbv zeta.
  pose proof (log_session_from inputs (first_state greeting) (empty_log profile) 0
                eq_refl (Forall_nil_2 _) eq_refl) as H.
  cbv zeta in H.
  destruct (log_session (first_state greeting) (empty_log profile) inputs) as [e|[s f]];
    [exact H|].
  destruct H as (Hfine & Hids & Hid & _). auto.
Qed.

End LoggerFacts.

(** ** The session: what every turn keeps *)

Module SessionFacts.

Import Py QuestionBank ContextGuard State Nodes Spec Turn Session.
Local Open Scope string_scope.
Local Open Scope list_scope.
Local Open Scope Z_scope.

Lemma question_id_listed (bank : list pydict) (q : pydict) (qid : string) :
  In q bank -> get q "question_id" = PStr qid ->
  In qid (omap (fun q => as_str (get q "question_id")) bank).
Proof.
  intros Hq Hid. apply list_elem_of_In, list_elem_of_omap.
  exists q. split; [apply list_elem_of_In; exact Hq|]. rewrite Hid. reflexivity.
Qed.

Lemma plan_question_bank (asked : gset string) (topic : string) (difficulty : Z)
    (followup_type : string) (q : pydict) :
  plan_question asked topic difficulty followup_type = Some q -> In q QUESTION_BANK.
Proof.
  unfold plan_question.
  destruct (pick_next_question asked (Some topic) difficulty followup_type) as [q'|] eqn:E.
  - intros [= <-]. unfold pick_next_question in E.
    apply SelectionFacts.first_unasked_Some in E as [E _].
    exact (SelectionFacts.get_candidates_bank _ _ _ _ E).
  - simpl enforce_no_repeat.
    destruct (first_unasked asked _) as [q'|] eqn:E'.
    + intros [= <-]. apply SelectionFacts.first_unasked_Some in E' as [E' _].
      destruct (get_candidates None difficulty (Some followup_type)) eqn:Epool.
      * exact (SelectionFacts.get_candidates_bank _ _ _ _ E').
      * rewrite <- Epool in E'. exact (SelectionFacts.get_candidates_bank _ _ _ _ E').
    + intros H. apply SelectionFacts.scan_levels_Some in H. apply H.
Qed.

(** What [interviewer_generate_node] appends, given a planned question that
    is new. *)
Lemma new_question_id_fresh (asked : list string) (q : pydict) (qid : string) :
  get q "question_id" = PStr qid -> ~ In qid asked ->
  new_question_id asked (Some q) = Some qid.
Proof.
  intros Hid Hfresh. unfold new_question_id.
  destruct q as [|kv rest]; [discriminate|]. rewrite Hid. cbn [as_str].
  rewrite bool_decide_eq_false_2; [reflexivity|].
  intros Hin. apply Hfresh, list_elem_of_In. exact Hin.
Qed.

Section WithEnvironment.

Variable strip : string -> string.
Variable _hash_prompt : string -> string.

Lemma policy_update_plans_bank (st : InterviewState) (q : pydict) :
  Nodes.planned_question (policy_update_node _hash_prompt st) = Some q ->
  In q QUESTION_BANK.
Proof.
  unfold policy_update_node. cbv zeta. cbn [Nodes.planned_question].
  match goal with
  | |- context [plan_question ?a ?t ?d ?f] =>
      set (asked := a); set (topic := t); set (level := d); set (ftype := f);
      destruct (plan_question asked topic level ftype) as [q0|] eqn:Hplan
  end; [|discriminate].
  pose proof (plan_question_bank _ _ _ _ _ Hplan) as Hq0.
  destruct q0 as [|kv rest]; [intros [= <-]; exact Hq0|].
  destruct (as_str (get (kv :: rest) "prompt")) as [prompt|];
    [|intros [= <-]; exact Hq0].
  destruct (Controls.detect_loop _hash_prompt (Nodes.topic_state st) prompt) as [ts looped].
  destruct looped; cbn [snd]; [|intros [= <-]; exact Hq0].
  intros Hpick. unfold pick_next_question in Hpick.
  apply SelectionFacts.first_unasked_Some in Hpick as [Hpick _].
  exact (SelectionFacts.get_candidates_bank _ _ _ _ Hpick).
Qed.

Abbreviation turn := (Session.turn strip _hash_prompt).
Abbreviation session := (Session.session strip _hash_prompt).

(** The record the policy update of a turn reads. *)
Abbreviation evaluated st input :=
  (robustness_detect_step strip
     (observer_evaluate_node (receive st (candidate_message input))
        (observer_output input) (observer_thoughts input))).

(** The projections of the nodes, each on an arbitrary record. *)
Lemma interviewer_generate_fields (s : SessionState) (output : InterviewerOutput) :
  let s' := interviewer_generate_node s output in
  difficulty s' = difficulty s
  /\ planned_question s' = planned_question s
  /\ asked_questions s'
     = match new_question_id (asked_questions s) (planned_question s) with
       | Some qid => asked_questions s ++ [qid]
       | None => asked_questions s
       end
  /\ last_question_id s'
     = match new_question_id (asked_questions s) (planned_question s) with
       | Some qid => Some qid
       | None => last_question_id s
       end
  /\ last_topics (topic_state s') = last_topics (topic_state s)
  /\ last_prompts_hashes (topic_state s') = last_prompts_hashes (topic_state s).
Proof.
  cbv zeta. unfold interviewer_generate_node.
  cbn [difficulty planned_question asked_questions last_question_id topic_state].
  repeat split; destruct (String.eqb (meta_topic output) ""); reflexivity.
Qed.

Lemma branch_step_fields (s : SessionState) :
  let s' := branch_step s in
  difficulty s' = difficulty s
  /\ planned_question s' = planned_question s
  /\ asked_questions s' = asked_questions s
  /\ last_question_id s' = last_question_id s
  /\ topic_state s' = topic_state s.
Proof. repeat split. Qed.

Lemma policy_update_step_fields (s : SessionState) :
  let s' := policy_update_step _hash_prompt s in
  let u := policy_update_node _hash_prompt (policy_input s) in
  difficulty s' = new_difficulty u
  /\ planned_question s' = Nodes.planned_question u
  /\ asked_questions s' = asked_questions s
  /\ last_question_id s' = last_question_id s
  /\ topic_state s' = new_topic_state u.
Proof. repeat split. Qed.

Lemma evaluated_fields (st : SessionState) (input : TurnInput) :
  let s := evaluated st input in
  asked_questions s = asked_questions st
  /\ last_question_id s = last_question_id st
  /\ topic_state s = topic_state st
  /\ difficulty s = difficulty st.
Proof. repeat split. Qed.

(** What one turn does to the keys the selection depends on. *)
Lemma turn_step (st : SessionState) (input : TurnInput) :
  let st' := turn st input in
  1 <= difficulty st' <= 5
  /\ (length (last_topics (topic_state st')) <= 5)%nat
  /\ (length (last_prompts_hashes (topic_state st'))
      <= Nat.max 5 (length (last_prompts_hashes (topic_state st))))%nat
  /\ match planned_id st' with
     | Some qid =>
         ~ In qid (asked_questions st) /\ In qid bank_ids
         /\ asked_questions st' = asked_questions st ++ [qid]
         /\ last_question_id st' = Some qid
     | None =>
         asked_questions st' = asked_questions st
         /\ last_question_id st' = last_question_id st
     end.
Proof.
  cbv zeta. unfold Session.turn, planned_id.
  set (s0 := evaluated st input).
  destruct (evaluated_fields st input) as (Ha0 & Hl0 & Ht0 & _). fold s0 in Ha0, Hl0, Ht0.
  destruct (policy_update_step_fields s0) as (Hd1 & Hp1 & Ha1 & Hl1 & Ht1).
  set (s1 := policy_update_step _hash_prompt s0) in *.
  destruct (branch_step_fields s1) as (Hd2 & Hp2 & Ha2 & Hl2 & Ht2).
  set (s2 := branch_step s1) in *.
  destruct (interviewer_generate_fields s2 (interviewer_output input))
    as (Hd3 & Hp3 & Ha3 & Hl3 & Ht3 & Hh3).
  set (s3 := interviewer_generate_node s2 (interviewer_output input)) in *.
  set (u := policy_update_node _hash_prompt (policy_input s0)) in *.
  rewrite Hd3, Hd2, Hd1, Ht3, Hh3, Ht2, Ht1, Hp3, Hp2, Hp1, Ha3, Hl3.
  rewrite Hp2, Hp1, Ha2, Ha1, Ha0, Hl2, Hl1, Hl0.
  split; [apply SelectionFacts.policy_update_difficulty|].
  destruct (RankingFacts.policy_update_topic_parts _hash_prompt (policy_input s0))
    as (t & _ & _ & _ & _ & _ & Hlen & _ & _ & Hring).
  fold u in Hlen, Hring.
  change (Nodes.topic_state (policy_input s0)) with (topic_state s0) in Hring.
  rewrite Ht0 in Hring.
  split; [exact Hlen|]. split; [exact Hring|].
  pose proof (SelectionFacts.policy_update_never_repeats _hash_prompt (policy_input s0))
    as Hnew.
  pose proof (policy_update_plans_bank (policy_input s0)) as Hbank.
  fold u in Hnew, Hbank.
  change (Nodes.asked_questions (policy_input s0)) with (asked_questions s0) in Hnew.
  rewrite Ha0 in Hnew.
  destruct (Nodes.planned_question u) as [q|]; [|split; reflexivity].
  destruct (Hnew q eq_refl) as (qid & Hid & Hfresh). specialize (Hbank q eq_refl).
  assert (Hnotin : ~ In qid (asked_questions st)).
  { intros Hin. apply Hfresh. apply elem_of_list_to_set, list_elem_of_In. exact Hin. }
  rewrite (new_question_id_fresh _ _ _ Hid Hnotin). rewrite Hid. cbn [as_str].
  split; [exact Hnotin|]. split; [|split; reflexivity].
  exact (question_id_listed QUESTION_BANK _ _ Hbank Hid).
Qed.

Lemma omap_planned_cons (st : SessionState) (states : list SessionState) :
  omap planned_id (st :: states)
  = match planned_id st with
    | Some qid => qid :: omap planned_id states
    | None => omap planned_id states
    end.
Proof. reflexivity. Qed.

Lemma session_from (inputs : list TurnInput) :
  forall st : SessionState,
    List.NoDup (asked_questions st) ->
    incl (asked_questions st) bank_ids ->
    (length (last_prompts_hashes (topic_state st)) <= 5)%nat ->
    let states := session st inputs in
    let ids := omap planned_id states in
    List.NoDup ids
    /\ (forall qid, In qid ids -> ~ In qid (asked_questions st) /\ In qid bank_ids)
    /\ Forall kept states.
Proof.
  induction inputs as [|input rest IH]; intros st Hnodup Hincl Hring; cbv zeta.
  - cbn. split; [constructor|]. split; [intros qid []|constructor].
  - cbn [Session.session]. set (st' := turn st input).
    destruct (turn_step st input) as (Hdiff & Htopics & Hhashes & Hplanned).
    fold st' in Hdiff, Htopics, Hhashes, Hplanned.
    assert (Hkept : List.NoDup (asked_questions st')
                    /\ incl (asked_questions st') bank_ids
                    /\ incl (asked_questions st) (asked_questions st')).
    { destruct (planned_id st') as [qid|].
      - destruct Hplanned as (Hfresh & Hbank & -> & _).
        split; [|split].
        + apply List.NoDup_app; [exact Hnodup|repeat constructor; intros []|].
          intros x Hx [<-|[]]. contradiction.
        + apply incl_app; [exact Hincl|]. intros x [<-|[]]. exact Hbank.
        + apply incl_appl, incl_refl.
      - destruct Hplanned as (-> & _). split; [exact Hnodup|].
        split; [exact Hincl|apply incl_refl]. }
    destruct Hkept as (Hnodup' & Hincl' & Hgrow).
    destruct (IH st' Hnodup' Hincl' ltac:(lia)) as (Hids & Hnew & Hall).
    rewrite omap_planned_cons.
    split; [|split].
    + destruct (planned_id st') as [qid|] eqn:Hid; [|exact Hids].
      constructor; [|exact Hids].
      intros Hin. destruct (Hnew qid Hin) as [Hnot _]. apply Hnot.
      destruct Hplanned as (_ & _ & -> & _). apply in_or_app. right. left. reflexivity.
    + intros qid Hin.
      assert (Hlater : In qid (omap planned_id (session st' rest)) ->
                       ~ In qid (asked_questions st) /\ In qid bank_ids).
      { intros Hq. destruct (Hnew qid Hq) as [Hnot Hb]. split; [|exact Hb].
        intros Hold. apply Hnot, Hgrow, Hold. }
      destruct (planned_id st') as [qid'|]; [|auto].
      destruct Hin as [<-|Hin]; [|auto]. destruct Hplanned as (? & ? & _). auto.
    + constructor; [|exact Hall].
      unfold kept. split; [exact Hdiff|]. split; [exact Hnodup'|].
      split; [exact Hincl'|]. split; [exact Htopics|lia].
Qed.

(** Property X13. Over a whole session, whatever the candidate and the two agents say: no
    question is planned twice, so at most as many questions are planned as
    the bank holds; and after every turn the difficulty is between 1 and 5,
    the asked identifiers are those of bank questions without repetition, and
    five recent topics and five prompt hashes at most are kept. *)
Theorem session_never_replans (inputs : list TurnInput) :
  let states := session initial_state inputs in
  let ids := omap planned_id states in
  List.NoDup ids
  /\ (length ids <= length QUESTION_BANK)%nat
  /\ Forall kept states.
Proof.
  cbv zeta.
  destruct (session_from inputs initial_state) as (Hids & Hnew & Hall).
  - constructor.
  - intros x [].
  - cbn. lia.
  - split; [exact Hids|]. split; [|exact Hall].
    transitivity (length bank_ids).
    + apply NoDup_incl_length; [exact Hids|]. intros qid Hqid. apply (Hnew qid Hqid).
    + unfold bank_ids. generalize QUESTION_BANK as bank.
      induction bank as [|q bank IHbank]; [reflexivity|].
      change (omap ?f (q :: bank))
        with (match f q with Some y => y :: omap f bank | None => omap f bank end).
      destruct (as_str (get q "question_id")); simpl; lia.
Qed.

End WithEnvironment.

End SessionFacts.

(** ** The turn when the evaluator's model fails *)

Module FallbackFacts.

Import Py QuestionBank ContextGuard State Nodes Spec Turn Session Fallbacks.
Local Open Scope string_scope.
Local Open Scope list_scope.
Local Open Scope Z_scope.

Section WithEnvironment.

Variable strip : string -> string.
Variable _hash_prompt : string -> string.

Lemma interviewer_generate_kept (s : SessionState) (output : InterviewerOutput) :
  let s' := interviewer_generate_node s output in
  action_type s' = action_type s /\ route s' = route s
  /\ skill_matrix s' = skill_matrix s /\ difficulty s' = difficulty s.
Proof. repeat split. Qed.

Lemma branch_step_kept (s : SessionState) :
  let s' := branch_step s in
  route s' = route s /\ skill_matrix s' = skill_matrix s /\ difficulty s' = difficulty s
  /\ action_type s'
     = (if String.eqb (node_after_policy (route s)) "answer_candidate"
        then Some "answer_candidate"
        else if String.eqb (node_after_policy (route s)) "refocus" then Some "refocus"
        else if String.eqb (node_after_policy (route s)) "factcheck"
        then Some "hallucination"
        else action_type s).
Proof. repeat split. Qed.

Lemma policy_update_step_kept (s : SessionState) :
  let s' := policy_update_step _hash_prompt s in
  let u := policy_update_node _hash_prompt (policy_input s) in
  route s' = route s /\ skill_matrix s' = skill_matrix s
  /\ difficulty s' = new_difficulty u
  /\ action_type s' = Some (new_action_type u).
Proof. repeat split. Qed.

(** Property X18. When the evaluator's model fails, the turn takes the normal route, asks
    for a simpler question, lowers the difficulty by one step and not below
    1, and leaves the skill matrix as it was. *)
Theorem fallback_turn_simplifies (st : SessionState) (input : TurnInput) :
  observer_output input = fallback_observer (topic_state st) ->
  let st' := Session.turn strip _hash_prompt st input in
  route st' = Some "normal"
  /\ action_type st' = Some "simplify"
  /\ difficulty st' = Z.max 1 (Z.min 5 ((if difficulty st =? 0 then 1 else difficulty st) - 1))
  /\ skill_matrix st' = skill_matrix st.
Proof.
  intros Hfallback. cbv zeta. unfold Session.turn.
  set (s0 := robustness_detect_step strip
               (observer_evaluate_node (receive st (candidate_message input))
                  (observer_output input) (observer_thoughts input))).
  assert (Hroute : route s0 = Some "normal").
  { unfold s0. rewrite Hfallback. reflexivity. }
  assert (Hmatrix : skill_matrix s0 = skill_matrix st).
  { unfold s0. rewrite Hfallback. reflexivity. }
  assert (Hobs : observer_json s0 = Some (fallback_observer (topic_state st))).
  { unfold s0. rewrite Hfallback. reflexivity. }
  assert (Hdiff : difficulty s0 = difficulty st) by reflexivity.
  assert (Hu : new_action_type (policy_update_node _hash_prompt (policy_input s0))
               = "simplify"
               /\ new_difficulty (policy_update_node _hash_prompt (policy_input s0))
                  = Z.max 1 (Z.min 5 ((if difficulty st =? 0 then 1 else difficulty st) - 1))).
  { split.
    - rewrite RouterFacts.policy_update_action_normal.
      + cbn [Nodes.observer_json policy_input]. rewrite Hobs. reflexivity.
      + cbn [Nodes.route policy_input]. rewrite Hroute. intros r [= <-]. reflexivity.
    - unfold policy_update_node. cbv zeta. cbn [new_difficulty].
      cbn [Nodes.observer_json Nodes.difficulty policy_input]. rewrite Hobs, Hdiff.
      reflexivity. }
  destruct Hu as [Haction Hlevel].
  destruct (policy_update_step_kept s0) as (Hr1 & Hm1 & Hd1 & Ha1).
  set (s1 := policy_update_step _hash_prompt s0) in *.
  destruct (branch_step_kept s1) as (Hr2 & Hm2 & Hd2 & Ha2).
  set (s2 := branch_step s1) in *.
  destruct (interviewer_generate_kept s2 (interviewer_output input))
    as (Ha3 & Hr3 & Hm3 & Hd3).
  rewrite Hr3, Hr2, Hr1, Hroute, Ha3, Ha2, Hr1, Hroute, Ha1, Haction.
  rewrite Hd3, Hd2, Hd1, Hlevel, Hm3, Hm2, Hm1, Hmatrix.
  repeat split.
Qed.

End WithEnvironment.

Lemma fallback_turn_simplifies_witness :
  let st' := Session.turn Str.strip (fun _ => "") initial_state Samples.failed_first_turn in
  route st' = Some "normal"
  /\ action_type st' = Some "simplify"
  /\ difficulty st' = 1
  /\ skill_matrix st' = skill_matrix initial_state.
Proof.
  apply (fallback_turn_simplifies Str.strip (fun _ => "") initial_state Samples.failed_first_turn).
  reflexivity.
Defined.

End FallbackFacts.

(** ** Leaving a topic after two turns *)

Module TopicSwitchFacts.

Import Py QuestionBank ContextGuard State TopicManager Ranking Spec Nodes Controls Turn Session.
Local Open Scope string_scope.
Local Open Scope list_scope.
Local Open Scope Z_scope.

Lemma pool_has_another (r : string) :
  existsb (fun topic => negb (String.eqb topic r)) get_all_topics = true.
Proof.
  assert (Hpool : exists a b rest, get_all_topics = a :: b :: rest /\ a <> b).
  { vm_compute. eexists _, _, _. split; [reflexivity|discriminate]. }
  destruct Hpool as (a & b & rest & -> & Hab). simpl.
  destruct (String.eqb_spec a r) as [->|Ha]; simpl; [|reflexivity].
  destruct (String.eqb_spec b r) as [->|Hb]; simpl; [congruence|reflexivity].
Qed.

Lemma select_next_topic_switches (sm : gmap string Skills.Entry) (ts : TopicState)
    (pre : list string) (r : string) :
  last_topics ts = pre ++ [r; r] -> select_next_topic sm ts <> r.
Proof.
  intros Hlast.
  destruct (RankingFacts.select_next_topic_cases sm ts) as (_ & _ & Hswitch).
  destruct Hswitch as (recent & Hrecent & Hne & _).
  - unfold should_switch_topic. rewrite Hlast, rev_app_distr. simpl.
    rewrite String.eqb_refl. simpl. apply pool_has_another.
  - rewrite Hlast in Hrecent.
    change (pre ++ [r; r]) with (pre ++ [r] ++ [r]) in Hrecent.
    rewrite app_assoc, last_snoc in Hrecent. congruence.
Qed.

Lemma last_n_two (pre : list string) (r : string) :
  Str.last_n 2 (pre ++ [r; r]) = [r; r].
Proof. apply LoopFacts.last_n_app_exact. reflexivity. Qed.

Section WithHash.

Variable _hash_prompt : string -> string.

Lemma policy_update_topic_after_two (st : InterviewState) (pre : list string) (r : string) :
  last_topics (Nodes.topic_state st) = pre ++ [r; r] ->
  exists t, current_topic (new_topic_state (policy_update_node _hash_prompt st)) = Some t
            /\ t <> r
            /\ last_topics (new_topic_state (policy_update_node _hash_prompt st))
               = Str.last_n 5 (pre ++ [r; r; t]).
Proof.
  intros Hlast.
  destruct (RankingFacts.policy_update_topic_parts _hash_prompt st)
    as (t & _ & Horigin & Hcurrent & Hrecent & _).
  exists t. split; [exact Hcurrent|]. split.
  - destruct Horigin as [->|(o & _ & _ & Hnot)].
    + apply (select_next_topic_switches _ _ pre). exact Hlast.
    + intros ->. apply Hnot. rewrite Hlast, last_n_two. constructor.
  - rewrite Hrecent, Hlast, <- app_assoc. reflexivity.
Qed.

(** Property X21. After two turns on the same topic the policy update records another
    one, whatever the evaluator suggests and whether or not the loop guard
    fires. *)
Theorem policy_update_leaves_topic (st : InterviewState) (pre : list string) (r : string) :
  last_topics (Nodes.topic_state st) = pre ++ [r; r] ->
  exists t, current_topic (new_topic_state (policy_update_node _hash_prompt st)) = Some t
            /\ t <> r
            /\ last_topics (new_topic_state (policy_update_node _hash_prompt st))
               = Str.last_n 5 (pre ++ [r; r; t]).
Proof. exact (policy_update_topic_after_two st pre r). Qed.

End WithHash.

Lemma no_triple_snoc (topics : list string) (t : string) :
  no_triple topics ->
  (forall pre r, topics = pre ++ [r; r] -> t <> r) ->
  no_triple (topics ++ [t]).
Proof.
  intros Hno Hnew pre r post.
  destruct post as [|x post _] using rev_ind.
  - rewrite app_nil_r. change (pre ++ [r; r; r]) with (pre ++ [r; r] ++ [r]).
    rewrite app_assoc. intros H. apply app_inj_tail in H as [Htopics Ht].
    exact (Hnew pre r Htopics Ht).
  - intros H. rewrite !app_assoc in H. apply app_inj_tail in H as [Htopics _].
    apply (Hno pre r post). rewrite Htopics, <- app_assoc. reflexivity.
Qed.

Lemma no_triple_drop (n : nat) (topics : list string) :
  no_triple topics -> no_triple (drop n topics).
Proof.
  intros Hno pre r post H. apply (Hno (take n topics ++ pre) r post).
  rewrite <- app_assoc, <- H. symmetry. apply take_drop.
Qed.

Section WithEnvironment.

Variable strip : string -> string.
Variable _hash_prompt : string -> string.

Lemma turn_last_topics (st : SessionState) (input : TurnInput) :
  exists t,
    last_topics (topic_state (Session.turn strip _hash_prompt st input))
    = Str.last_n 5 (last_topics (topic_state st) ++ [t])
    /\ forall pre r, last_topics (topic_state st) = pre ++ [r; r] -> t <> r.
Proof.
  unfold Session.turn.
  set (s0 := robustness_detect_step strip
               (observer_evaluate_node (receive st (candidate_message input))
                  (observer_output input) (observer_thoughts input))).
  destruct (SessionFacts.interviewer_generate_fields
              (branch_step (policy_update_step _hash_prompt s0)) (interviewer_output input))
    as (_ & _ & _ & _ & -> & _).
  destruct (SessionFacts.branch_step_fields (policy_update_step _hash_prompt s0))
    as (_ & _ & _ & _ & ->).
  destruct (SessionFacts.policy_update_step_fields _hash_prompt s0) as (_ & _ & _ & _ & ->).
  destruct (RankingFacts.policy_update_topic_parts _hash_prompt (policy_input s0))
    as (t & _ & _ & _ & Hrecent & _).
  change (Nodes.topic_state (policy_input s0)) with (topic_state st) in Hrecent.
  exists t. split; [exact Hrecent|].
  intros pre r Hlast.
  destruct (policy_update_topic_after_two _hash_prompt (policy_input s0) pre r Hlast)
    as (t' & _ & Hne & Hrecent').
  rewrite Hrecent in Hrecent'.
  change (Nodes.topic_state (policy_input s0)) with (topic_state st) in Hrecent'.
  rewrite Hlast in Hrecent'.
  change (pre ++ [r; r; t']) with (pre ++ [r; r] ++ [t']) in Hrecent'.
  rewrite (app_assoc pre [r; r] [t']) in Hrecent'.
  rewrite !(LoopFacts.last_n_app 4 5 _ [_]) in Hrecent' by reflexivity.
  apply app_inj_tail in Hrecent' as [_ ->]. exact Hne.
Qed.

Lemma session_leaves_topics_from (inputs : list TurnInput) (st : SessionState) :
  no_triple (last_topics (topic_state st)) ->
  Forall (fun st' => no_triple (last_topics (topic_state st')))
    (Session.session strip _hash_prompt st inputs).
Proof.
  revert st. induction inputs as [|input rest IH]; intros st Hno;
    cbn [Session.session]; [constructor|].
  assert (Hnext : no_triple (last_topics
                    (topic_state (Session.turn strip _hash_prompt st input)))).
  { destruct (turn_last_topics st input) as (t & -> & Hnew).
    apply no_triple_drop, no_triple_snoc; assumption. }
  constructor; [exact Hnext|]. apply IH. exact Hnext.
Qed.

(** Property X22. Over a session, whatever the candidate and the agents say,
    no topic is recorded three times in a row among the recent topics. *)
Theorem session_leaves_topics (inputs : list TurnInput) :
  Forall (fun st' => no_triple (last_topics (topic_state st')))
    (Session.session strip _hash_prompt initial_state inputs).
Proof.
  apply session_leaves_topics_from. intros pre r post H.
  destruct pre; discriminate.
Qed.

End WithEnvironment.

Lemma policy_update_leaves_topic_witness :
  exists t,
    current_topic (new_topic_state
                     (policy_update_node (fun _ => "") (policy_input Samples.settled_state)))
    = Some t
    /\ t <> "git_basics"
    /\ last_topics (new_topic_state
                      (policy_update_node (fun _ => "")
                         (policy_input Samples.settled_state)))
       = Str.last_n 5 ([] ++ ["git_basics"; "git_basics"; t]).
Proof.
  apply (policy_update_leaves_topic (fun _ => "") (policy_input Samples.settled_state)
           [] "git_basics").
  reflexivity.
Defined.

End TopicSwitchFacts.
